(** * Multi-armed bandit simulation: a shallow embedding of
    [multi_armed_bandit.py] and the properties of its three strategies.

    Python floats are modelled by the real numbers (exact arithmetic), Python
    integers by [Z], lists by [list].  Exceptions are values of [exn]; the
    pseudo-random generator of module [random] is an explicit state that is
    threaded through every call. *)

From Stdlib Require Import ZArith List Bool Lia Reals Lra.
Import ListNotations.

Local Open Scope Z_scope.

(** ** Exceptions and results *)

Inductive exn : Type :=
| ValueError
| IndexError
| ZeroDivisionError.

Inductive result (A : Type) : Type :=
| Ok (a : A)
| Raise (e : exn).

Arguments Ok {A} a.
Arguments Raise {A} e.

(** ** The random generator

    [random.random()] yields a float of [[0, 1)] and [random.randint(a, b)]
    an integer of [[a, b]].  The generator is modelled by the two sequences of
    raw draws it is going to deliver and a cursor in each; quantifying over
    all generators quantifies over all sequences of outcomes. *)

Record rng : Type := mkRng {
  floats : nat -> R;
  ints : nat -> Z;
  fpos : nat;
  ipos : nat
}.

(** A generator is well formed when its floats lie in [[0, 1)]. *)
Definition rng_wf (g : rng) : Prop :=
  forall i, (0 <= floats g i < 1)%R.

Definition next_float (g : rng) : R := floats g (fpos g).

Definition skip_float (g : rng) : rng :=
  mkRng (floats g) (ints g) (S (fpos g)) (ipos g).

Definition skip_int (g : rng) : rng :=
  mkRng (floats g) (ints g) (fpos g) (S (ipos g)).

(** ** Computations: generator state and exceptions *)

Definition M (A : Type) : Type := rng -> result (A * rng).

Definition ret {A} (a : A) : M A := fun g => Ok (a, g).

Definition bind {A B} (m : M A) (k : A -> M B) : M B :=
  fun g =>
    match m g with
    | Ok (a, g') => k a g'
    | Raise e => Raise e
    end.

Definition lift {A} (r : result A) : M A :=
  fun g =>
    match r with
    | Ok a => Ok (a, g)
    | Raise e => Raise e
    end.

Declare Scope py_scope.
Delimit Scope py_scope with py.
Notation "x <- m ;; k" := (bind m (fun x => k))
  (at level 61, m at next level, right associativity) : py_scope.
Notation "' pat <- m ;; k" := (bind m (fun x => match x with pat => k end))
  (at level 61, pat pattern, m at next level, right associativity) : py_scope.
Local Open Scope py_scope.

(** [random.random()] *)
Definition random : M R :=
  fun g => Ok (next_float g, skip_float g).

(** [random.randint(a, b)]: [ValueError] on an empty range, otherwise the
    raw draw reduced into [[a, b]]. *)
Definition randint (a b : Z) : M Z :=
  fun g =>
    if b <? a then Raise ValueError
    else Ok (a + ints g (ipos g) mod (b - a + 1), skip_int g).

(** ** Python list and arithmetic primitives *)

(** [range(n)] *)
Definition range (n : nat) : list Z := map Z.of_nat (seq 0 n).

(** [[x] * n]: empty when [n <= 0]. *)
Definition list_mul {A} (x : A) (n : Z) : list A := repeat x (Z.to_nat n).

(** The position a subscript [i] denotes in a list of length [n]: negative
    subscripts count from the end. *)
Definition norm_index (n : nat) (i : Z) : option nat :=
  let j := if i <? 0 then i + Z.of_nat n else i in
  if (0 <=? j) && (j <? Z.of_nat n) then Some (Z.to_nat j) else None.

(** [l[i]] *)
Definition getitem {A} (l : list A) (i : Z) : result A :=
  match norm_index (length l) i with
  | Some k =>
      match nth_error l k with
      | Some x => Ok x
      | None => Raise IndexError
      end
  | None => Raise IndexError
  end.

Fixpoint replace_nth {A} (l : list A) (k : nat) (x : A) : list A :=
  match l, k with
  | [], _ => []
  | _ :: l', O => x :: l'
  | y :: l', S k' => y :: replace_nth l' k' x
  end.

(** [l[i] = x] *)
Definition setitem {A} (l : list A) (i : Z) (x : A) : result (list A) :=
  match norm_index (length l) i with
  | Some k => Ok (replace_nth l k x)
  | None => Raise IndexError
  end.

(** [x / d] with an integer divisor *)
Definition py_div (x : R) (d : Z) : result R :=
  if d =? 0 then Raise ZeroDivisionError else Ok (x / IZR d)%R.

(** [math.log(n)] of an integer *)
Definition py_log (n : Z) : result R :=
  if n <=? 0 then Raise ValueError else Ok (ln (IZR n)).

(** [math.sqrt(x)] *)
Definition py_sqrt (x : R) : result R :=
  if Rlt_dec x 0 then Raise ValueError else Ok (sqrt x).

(** [max(l)]: the first of the greatest elements; [ValueError] on []. *)
Fixpoint max_from (m : R) (l : list R) : R :=
  match l with
  | [] => m
  | x :: l' => max_from (if Rgt_dec x m then x else m) l'
  end.

Definition py_max (l : list R) : result R :=
  match l with
  | [] => Raise ValueError
  | x :: l' => Ok (max_from x l')
  end.

(** [l.index(x)]: the first position holding a value equal to [x]. *)
Fixpoint index_from (i : Z) (l : list R) (x : R) : result Z :=
  match l with
  | [] => Raise ValueError
  | y :: l' => if Req_dec_T y x then Ok i else index_from (i + 1) l' x
  end.

Definition py_index (l : list R) (x : R) : result Z := index_from 0 l x.

(** [sum(l)] of floats *)
Definition py_sum (l : list R) : R := fold_left Rplus l 0%R.

(** Evaluate a comprehension [[f x for x in l]] whose element may raise. *)
Fixpoint comprehension {A B} (f : A -> result B) (l : list A) : result (list B) :=
  match l with
  | [] => Ok []
  | x :: l' =>
      match f x with
      | Ok y =>
          match comprehension f l' with
          | Ok ys => Ok (y :: ys)
          | Raise e => Raise e
          end
      | Raise e => Raise e
      end
  end.

(** [for x in l: body], over a loop state. *)
Fixpoint for_loop {St} (body : Z -> St -> M St) (l : list Z) (s : St) : M St :=
  match l with
  | [] => ret s
  | x :: l' => s' <- body x s ;; for_loop body l' s'
  end.

(** The same sequencing for computations that only raise. *)
Definition rbind {A B} (r : result A) (k : A -> result B) : result B :=
  match r with
  | Ok a => k a
  | Raise e => Raise e
  end.

Notation "x <~ r ;; k" := (rbind r (fun x => k))
  (at level 61, r at next level, right associativity) : py_scope.

(** Read the generator without consuming it: used only to record history;
    the program has no such operation. *)
Definition snapshot : M rng := fun g => Ok (g, g).

(** ** Configuration: the module-level constants *)

Record config : Type := mkConfig {
  NUM_ARMS : Z;
  NUM_STEPS : Z;
  NUM_RUNS : Z;
  EPSILON : R;
  TRUE_MEANS : list R
}.

(** The constants as the source sets them. *)
Definition source_config : config :=
  mkConfig 5 1000 50 (1 / 10)%R
    [(2 / 10)%R; (4 / 10)%R; (8 / 10)%R; (3 / 10)%R; (6 / 10)%R].

(** ** History of a run

    One [event] per executed loop iteration: the step index, the generator
    and the estimator as they were when the iteration began, the arm chosen
    and the reward obtained.  The field [trace] below is a history variable:
    the source does not store it, and nothing in the program reads it. *)

Record event : Type := mkEvent {
  ev_step : Z;
  ev_rng : rng;
  ev_counts : list Z;
  ev_values : list R;
  ev_arm : Z;
  ev_reward : Z
}.

(** Local variables of [run_epsilon_greedy] and [run_ucb]. *)
Record locals : Type := mkLocals {
  counts : list Z;
  values : list R;
  total_reward : Z;
  rewards : list R;
  trace : list event
}.

(** Local variables of [run_random]. *)
Record rlocals : Type := mkRlocals {
  r_total_reward : Z;
  r_rewards : list R;
  r_trace : list event
}.

(** The functions passed to [average_runs]. *)
Inductive learner : Type := EpsilonGreedy | UCB.

Inductive strategy : Type :=
| Learning (f : learner)
| RandomBaseline.

Section Bandit.

Variable cfg : config.

(** [pull_arm(arm_index)] *)
Definition pull_arm (arm_index : Z) : M Z :=
  u <- random ;;
  p <- lift (getitem (TRUE_MEANS cfg) arm_index) ;;
  ret (if Rlt_dec u p then 1 else 0).

(** Lines 57-62 and 88-92, the same in both learning strategies: pull the
    arm, update its count and its estimate, extend the trajectory. *)
Definition pull_and_learn (step : Z) (g0 : rng) (arm : Z) (s : locals) : M locals :=
  reward <- pull_arm arm ;;
  c <- lift (getitem (counts s) arm) ;;
  counts' <- lift (setitem (counts s) arm (c + 1)) ;;
  v <- lift (getitem (values s) arm) ;;
  c' <- lift (getitem counts' arm) ;;
  d <- lift (py_div (IZR reward - v) c') ;;
  values' <- lift (setitem (values s) arm (v + d)%R) ;;
  let total' := total_reward s + reward in
  avg <- lift (py_div (IZR total') (step + 1)) ;;
  ret (mkLocals counts' values' total' (rewards s ++ [avg])
         (trace s ++ [mkEvent step g0 (counts s) (values s) arm reward])).

(** Lines 52-55: the arm Epsilon-Greedy selects. *)
Definition eg_select (epsilon : R) (vals : list R) : M Z :=
  u <- random ;;
  if Rlt_dec u epsilon then randint 0 (NUM_ARMS cfg - 1)
  else lift (m <~ py_max vals ;; py_index vals m).

Definition eg_body (epsilon : R) (step : Z) (s : locals) : M locals :=
  g0 <- snapshot ;;
  arm <- eg_select epsilon (values s) ;;
  pull_and_learn step g0 arm s.

Definition init_locals : locals :=
  mkLocals (list_mul 0 (NUM_ARMS cfg)) (list_mul 0%R (NUM_ARMS cfg)) 0 [] [].

(** The first [n] iterations of the loop of [run_epsilon_greedy]. *)
Definition eg_loop (epsilon : R) (n : nat) : M locals :=
  for_loop (eg_body epsilon) (range n) init_locals.

Definition run_epsilon_greedy (epsilon : R) : M (list R * list R) :=
  s <- eg_loop epsilon (Z.to_nat (NUM_STEPS cfg)) ;;
  ret (rewards s, values s).

(** Lines 82-85: the list of confidence-bound scores. *)
Definition ucb_scores (step : Z) (cnts : list Z) (vals : list R) : result (list R) :=
  comprehension
    (fun a =>
       v <~ getitem vals a ;;
       l <~ py_log (step + 1) ;;
       c <~ getitem cnts a ;;
       q <~ py_div (2 * l)%R c ;;
       b <~ py_sqrt q ;;
       Ok (v + b)%R)
    (range (Z.to_nat (NUM_ARMS cfg))).

(** Lines 78-86: the arm UCB1 selects. *)
Definition ucb_select (step : Z) (cnts : list Z) (vals : list R) : result Z :=
  if step <? NUM_ARMS cfg then Ok step
  else
    scores <~ ucb_scores step cnts vals ;;
    m <~ py_max scores ;;
    py_index scores m.

Definition ucb_body (step : Z) (s : locals) : M locals :=
  g0 <- snapshot ;;
  arm <- lift (ucb_select step (counts s) (values s)) ;;
  pull_and_learn step g0 arm s.

(** The first [n] iterations of the loop of [run_ucb]. *)
Definition ucb_loop (n : nat) : M locals :=
  for_loop ucb_body (range n) init_locals.

Definition run_ucb : M (list R * list R) :=
  s <- ucb_loop (Z.to_nat (NUM_STEPS cfg)) ;;
  ret (rewards s, values s).

Definition random_body (step : Z) (s : rlocals) : M rlocals :=
  g0 <- snapshot ;;
  arm <- randint 0 (NUM_ARMS cfg - 1) ;;
  reward <- pull_arm arm ;;
  let total' := r_total_reward s + reward in
  avg <- lift (py_div (IZR total') (step + 1)) ;;
  ret (mkRlocals total' (r_rewards s ++ [avg])
         (r_trace s ++ [mkEvent step g0 [] [] arm reward])).

(** The first [n] iterations of the loop of [run_random]. *)
Definition random_loop (n : nat) : M rlocals :=
  for_loop random_body (range n) (mkRlocals 0 [] []).

Definition run_random : M (list R) :=
  s <- random_loop (Z.to_nat (NUM_STEPS cfg)) ;;
  ret (r_rewards s).

(** Calling a learning strategy with no argument: [epsilon] takes its
    default, [EPSILON]. *)
Definition call_learner (f : learner) : M (list R * list R) :=
  match f with
  | EpsilonGreedy => run_epsilon_greedy (EPSILON cfg)
  | UCB => run_ucb
  end.

(** Lines 113-122: the loop that gathers the runs. *)
Definition gather_body (strategy_fn : strategy) (_ : Z)
    (acc : list (list R) * list (list R)) : M (list (list R) * list (list R)) :=
  let '(all_rewards, all_final_values) := acc in
  match strategy_fn with
  | RandomBaseline =>
      r <- run_random ;;
      ret (all_rewards ++ [r], all_final_values)
  | Learning f =>
      '(r, v) <- call_learner f ;;
      ret (all_rewards ++ [r], all_final_values ++ [v])
  end.

Definition gather (strategy_fn : strategy) (runs : Z)
  : M (list (list R) * list (list R)) :=
  for_loop (gather_body strategy_fn) (range (Z.to_nat runs)) ([], []).

(** [[sum(rows[run][i] for run in range(runs)) / runs for i in range(n)]] *)
Definition column_means (rows : list (list R)) (runs : Z) (n : Z) : result (list R) :=
  comprehension
    (fun i =>
       col <~ comprehension
                (fun run => row <~ getitem rows run ;; getitem row i)
                (range (Z.to_nat runs)) ;;
       py_div (py_sum col) runs)
    (range (Z.to_nat n)).

(** [average_runs(strategy_fn, runs)] *)
Definition average_runs (strategy_fn : strategy) (runs : Z)
  : M (list R * option (list R)) :=
  '(all_rewards, all_final_values) <- gather strategy_fn runs ;;
  avg <- lift (column_means all_rewards runs (NUM_STEPS cfg)) ;;
  match all_final_values with
  | [] => ret (avg, None)
  | _ :: _ =>
      avg_values <- lift (column_means all_final_values runs (NUM_ARMS cfg)) ;;
      ret (avg, Some avg_values)
  end.

End Bandit.

(** ** Notions used to state the properties *)

(** [sum] of a list of integers, and of reals, by recursion on the list. *)
Fixpoint sumZ (l : list Z) : Z :=
  match l with
  | [] => 0
  | x :: l' => x + sumZ l'
  end.

Fixpoint sumR (l : list R) : R :=
  match l with
  | [] => 0%R
  | x :: l' => (x + sumR l')%R
  end.

(** The rewards an arm received during a history, oldest first. *)
Definition rewards_of (a : Z) (tr : list event) : list Z :=
  map ev_reward (filter (fun e => ev_arm e =? a) tr).

(** The rewards of the whole history, oldest first. *)
Definition all_rewards_of (tr : list event) : list Z := map ev_reward tr.

(** Arithmetic mean of integer rewards, and of reals. *)
Definition meanZ (rs : list Z) : R :=
  (IZR (sumZ rs) / IZR (Z.of_nat (length rs)))%R.

Definition meanR (xs : list R) : R :=
  (sumR xs / IZR (Z.of_nat (length xs)))%R.

(** Element [i] of a list of reals or of integers, for a subscript in range. *)
Definition at_R (l : list R) (i : Z) : R := nth (Z.to_nat i) l 0%R.
Definition at_Z (l : list Z) (i : Z) : Z := nth (Z.to_nat i) l 0.

(** [i] is the first position of a greatest element of [l]. *)
Definition first_argmax (l : list R) (i : Z) : Prop :=
  0 <= i < Z.of_nat (length l) /\
  (forall j, 0 <= j < Z.of_nat (length l) -> (at_R l j <= at_R l i)%R) /\
  (forall j, 0 <= j < i -> (at_R l j < at_R l i)%R).

(** The confidence-bound score of arm [a] at step [t]. *)
Definition ucb_score (t : Z) (cnts : list Z) (vals : list R) (a : Z) : R :=
  (at_R vals a + sqrt (2 * ln (IZR (t + 1)) / IZR (at_Z cnts a)))%R.

(** There is at least one arm and every arm has a true mean. *)
Definition arms_ok (cfg : config) : Prop :=
  1 <= NUM_ARMS cfg <= Z.of_nat (length (TRUE_MEANS cfg)).

(** What the specification asks of a configuration. *)
Definition config_valid (cfg : config) : Prop :=
  1 <= NUM_ARMS cfg /\ 1 <= NUM_STEPS cfg /\ 1 <= NUM_RUNS cfg /\
  Z.of_nat (length (TRUE_MEANS cfg)) = NUM_ARMS cfg /\
  (0 <= EPSILON cfg <= 1)%R.

(** Event [e] is the record of iteration [t] of a loop started on [g]: it
    holds the step index, and the generator and estimator the loop had after
    [t] iterations. *)
Definition records (loop : nat -> M locals) (g : rng) (t : nat) (e : event) : Prop :=
  ev_step e = Z.of_nat t /\
  exists s gt, loop t g = Ok (s, gt) /\
    ev_rng e = gt /\ ev_counts e = counts s /\ ev_values e = values s.

(** The arm of event [e] is the one Epsilon-Greedy, resp. UCB1, selects in the
    state the event records. *)
Definition eg_selected (cfg : config) (epsilon : R) (e : event) : Prop :=
  exists g1, eg_select cfg epsilon (ev_values e) (ev_rng e) = Ok (ev_arm e, g1).

Definition ucb_selected (cfg : config) (e : event) : Prop :=
  ucb_select cfg (ev_step e) (ev_counts e) (ev_values e) = Ok (ev_arm e).

(** The invariant of the two learning loops after [n] iterations; [sel] is
    the selection rule of the strategy. *)
Record learn_inv (cfg : config) (sel : event -> Prop) (n : nat) (s : locals) : Prop := {
  inv_counts_len : Z.of_nat (length (counts s)) = NUM_ARMS cfg;
  inv_values_len : Z.of_nat (length (values s)) = NUM_ARMS cfg;
  inv_trace_len : length (trace s) = n;
  inv_rewards_len : length (rewards s) = n;
  inv_step : forall t e, nth_error (trace s) t = Some e -> ev_step e = Z.of_nat t;
  inv_arm : forall e, In e (trace s) -> 0 <= ev_arm e < NUM_ARMS cfg;
  inv_reward : forall e, In e (trace s) -> ev_reward e = 0 \/ ev_reward e = 1;
  inv_sel : forall e, In e (trace s) -> sel e;
  inv_counts : forall a, 0 <= a < NUM_ARMS cfg ->
    at_Z (counts s) a = Z.of_nat (length (rewards_of a (trace s)));
  inv_values : forall a, 0 <= a < NUM_ARMS cfg ->
    at_R (values s) a = meanZ (rewards_of a (trace s));
  inv_total : total_reward s = sumZ (all_rewards_of (trace s));
  inv_traj : forall t, (t < n)%nat ->
    nth t (rewards s) 0%R =
    (IZR (sumZ (all_rewards_of (firstn (S t) (trace s)))) / IZR (Z.of_nat t + 1))%R
}.

(** The invariant of the loop of [run_random] after [n] iterations. *)
Record random_inv (cfg : config) (n : nat) (s : rlocals) : Prop := {
  rinv_trace_len : length (r_trace s) = n;
  rinv_rewards_len : length (r_rewards s) = n;
  rinv_step : forall t e, nth_error (r_trace s) t = Some e -> ev_step e = Z.of_nat t;
  rinv_arm : forall e, In e (r_trace s) -> 0 <= ev_arm e < NUM_ARMS cfg;
  rinv_total : r_total_reward s = sumZ (all_rewards_of (r_trace s));
  rinv_traj : forall t, (t < n)%nat ->
    nth t (r_rewards s) 0%R =
    (IZR (sumZ (all_rewards_of (firstn (S t) (r_trace s)))) / IZR (Z.of_nat t + 1))%R
}.

(** Concrete inputs for the examples: a generator that always draws zero, a
    configuration of two arms, three steps and one run, and a configuration
    with another value of [EPSILON]. *)
Definition zero_rng : rng := mkRng (fun _ => 0%R) (fun _ => 0) 0 0.

Definition tiny_config : config :=
  mkConfig 2 3 1 0 [(1 / 2)%R; (1 / 2)%R].

Definition with_epsilon (cfg : config) (epsilon : R) : config :=
  mkConfig (NUM_ARMS cfg) (NUM_STEPS cfg) (NUM_RUNS cfg) epsilon (TRUE_MEANS cfg).

(** The trajectory [rw] of a run with history [tr]: one element per step,
    element [t] being the total reward of steps [0..t] divided by [t + 1]. *)
Definition running_average (cfg : config) (rw : list R) (tr : list event) : Prop :=
  Z.of_nat (length rw) = NUM_STEPS cfg /\
  length tr = length rw /\
  (forall t e, nth_error tr t = Some e -> ev_step e = Z.of_nat t) /\
  forall t, 0 <= t < NUM_STEPS cfg ->
    at_R rw t =
    (IZR (sumZ (all_rewards_of (firstn (S (Z.to_nat t)) tr))) / IZR (t + 1))%R.

(** One run of a strategy, as [average_runs] calls it: its trajectory and,
    for a learning strategy, its final estimates. *)
Definition run_once (cfg : config) (f : strategy) : M (list R * option (list R)) :=
  match f with
  | RandomBaseline => r <- run_random cfg ;; ret (r, None)
  | Learning l => '(r, v) <- call_learner cfg l ;; ret (r, Some v)
  end.

(** The outcomes of [n] successive runs, oldest first; every run starts on
    the generator the previous one left. *)
Fixpoint successive_runs (cfg : config) (f : strategy) (n : nat) (g : rng)
  : result (list (list R * option (list R)) * rng) :=
  match n with
  | O => Ok ([], g)
  | S n' =>
      match successive_runs cfg f n' g with
      | Ok (outs, g1) =>
          match run_once cfg f g1 with
          | Ok (o, g2) => Ok (outs ++ [o], g2)
          | Raise e => Raise e
          end
      | Raise e => Raise e
      end
  end.

(** The final estimates among the outcomes of runs. *)
Fixpoint estimates_of (outs : list (list R * option (list R))) : list (list R) :=
  match outs with
  | [] => []
  | (_, Some v) :: outs' => v :: estimates_of outs'
  | (_, None) :: outs' => estimates_of outs'
  end.

(** Element [i] of every row. *)
Definition column (rows : list (list R)) (i : Z) : list R :=
  map (fun row => at_R row i) rows.

(** The estimator of state [s] agrees with its history: for every arm, the
    count is the number of pulls of the arm and, once the arm has been pulled,
    the estimate is the sum of the rewards of the arm divided by that number. *)
Definition estimates_are_means (cfg : config) (s : locals) : Prop :=
  forall a, 0 <= a < NUM_ARMS cfg ->
    let rs := rewards_of a (trace s) in
    at_Z (counts s) a = Z.of_nat (length rs) /\
    ((1 <= length rs)%nat ->
     at_R (values s) a = (IZR (sumZ rs) / IZR (Z.of_nat (length rs)))%R).

(** The arm of event [e] has the greatest confidence-bound score in the state
    the event records, and the smallest index among the arms of that score. *)
Definition maximises_score (cfg : config) (e : event) : Prop :=
  let score := ucb_score (ev_step e) (ev_counts e) (ev_values e) in
  0 <= ev_arm e < NUM_ARMS cfg /\
  (forall a, 0 <= a < NUM_ARMS cfg -> (score a <= score (ev_arm e))%R) /\
  (forall a, 0 <= a < ev_arm e -> (score a < score (ev_arm e))%R).

(** The shape of the outcome of one run of strategy [f]. *)
Definition outcome_ok (cfg : config) (f : strategy) (o : list R * option (list R)) : Prop :=
  length (fst o) = Z.to_nat (NUM_STEPS cfg) /\
  match f with
  | RandomBaseline => snd o = None
  | Learning _ => exists v, snd o = Some v /\ Z.of_nat (length v) = NUM_ARMS cfg
  end.

(** ** The report: [print_bar_chart], [print_performance_summary], [main]

    A printed line is kept as the [print] statement it comes from together
    with the values that statement interpolates; how a number or a list is
    rendered as text is not modelled.  The two chart labels of the program,
    "Epsilon-Greedy" and "UCB", which are also the two names it can print as
    winner, are the values of [label]. *)

Inductive label : Type := LabelEpsilonGreedy | LabelUCB.

Inductive line : Type :=
| BannerRule                                    (* lines 157, 160, 188 *)
| TitleLine                                     (* line 158 *)
| AuthorLine                                    (* line 159 *)
| SetupLine (arms steps runs : Z)               (* line 161 *)
| TrueMeansLine (means : list R)                (* line 162 *)
| BestArmLine (arm : Z) (mean : R)              (* line 163 *)
| RunningEpsilonGreedy (epsilon : R)            (* line 165 *)
| RunningUCB                                    (* line 168 *)
| RunningRandom                                 (* line 171 *)
| SummaryTitle                                  (* line 149 *)
| SummaryHeader                                 (* line 150 *)
| SummaryRule                                   (* line 151 *)
| SummaryRow (step : Z) (eg ucb rand : R)       (* line 153 *)
| ChartTitle (l : label)                        (* line 137 *)
| ChartHeader                                   (* line 138 *)
| ChartRule                                     (* line 139 *)
| ChartRow (arm : Z) (est true_mean : R) (bar : nat) (best : bool)  (* line 143 *)
| WinnerRule                                    (* line 182 *)
| WinnerLine (steps : Z) (winner : label)       (* line 183 *)
| FinalEpsilonGreedy (x : R)                    (* line 184 *)
| FinalUCB (x : R)                              (* line 185 *)
| FinalRandom (x : R)                           (* line 186 *)
| TheoreticalBest (arm : Z) (mean : R).         (* line 187 *)

(** The exceptions of the report: those of [exn], and [TypeError], which only
    iterating over [None] raises. *)
Inductive report_exn : Type :=
| Exn (e : exn)
| TypeError.

(** How a computation of the report ends; what it printed until then is kept
    in both cases. *)
Inductive outcome (A : Type) : Type :=
| Returned (a : A) (g : rng)
| Raised (e : report_exn).

Arguments Returned {A} a g.
Arguments Raised {A} e.

Definition IO (A : Type) : Type := rng -> list line * outcome A.

Definition io_ret {A} (a : A) : IO A := fun g => ([], Returned a g).

Definition io_bind {A B} (m : IO A) (k : A -> IO B) : IO B :=
  fun g =>
    match m g with
    | (out, Returned a g1) => let (out', r) := k a g1 in (out ++ out', r)
    | (out, Raised e) => (out, Raised e)
    end.

Definition print (l : line) : IO unit := fun g => ([l], Returned tt g).

Definition io_raise {A} (e : report_exn) : IO A := fun _ => ([], Raised e).

(** A computation of the simulation, run inside the report. *)
Definition simulate {A} (m : M A) : IO A :=
  fun g =>
    match m g with
    | Ok (a, g') => ([], Returned a g')
    | Raise e => ([], Raised (Exn e))
    end.

(** An expression that may raise. *)
Definition eval {A} (r : result A) : IO A :=
  fun g =>
    match r with
    | Ok a => ([], Returned a g)
    | Raise e => ([], Raised (Exn e))
    end.

Declare Scope io_scope.
Delimit Scope io_scope with io.
Notation "x <- m ;; k" := (io_bind m (fun x => k))
  (at level 61, m at next level, right associativity) : io_scope.
Notation "' pat <- m ;; k" := (io_bind m (fun x => match x with pat => k end))
  (at level 61, pat pattern, m at next level, right associativity) : io_scope.
Notation "m ;;; k" := (io_bind m (fun _ => k))
  (at level 61, right associativity) : io_scope.

(** [for x in l: body] *)
Fixpoint io_for {A} (body : A -> IO unit) (l : list A) : IO unit :=
  match l with
  | [] => io_ret tt
  | x :: l' => io_bind (body x) (fun _ => io_for body l')
  end.

(** [int(x)]: truncation towards zero. *)
Definition py_int (x : R) : Z :=
  if Rlt_dec x 0 then - Int_part (- x) else Int_part x.

(** The length of [c * n] for a string [c] of one character: nothing is
    repeated for [n <= 0]. *)
Definition str_mul_len (n : Z) : nat := Z.to_nat n.

(** [enumerate(l)] *)
Definition enumerate {A} (l : list A) : list (Z * A) :=
  combine (range (length l)) l.

(** Lines 140-143: one row of the chart. *)
Definition chart_row (true_means : list R) (row : Z * (R * R)) : IO unit :=
  (let '(i, (est, tm)) := row in
   let bar := str_mul_len (py_int (est * 20)) in
   m <- eval (py_max true_means) ;;
   let best := if Req_dec_T tm m then true else false in
   print (ChartRow i est tm bar best))%io.

(** [print_bar_chart(label, values, true_means)]; [values] is what
    [average_runs] returned as second component, a list or [None]. *)
Definition print_bar_chart (l : label) (vals : option (list R)) (true_means : list R)
  : IO unit :=
  (print (ChartTitle l) ;;;
   print ChartHeader ;;;
   print ChartRule ;;;
   match vals with
   | None => io_raise TypeError
   | Some vs => io_for (chart_row true_means) (enumerate (combine vs true_means))
   end)%io.

Definition checkpoints : list Z := [50; 200; 500; 999].

(** Line 153: one row of the summary. *)
Definition summary_row (eg_avg ucb_avg rand_avg : list R) (step : Z) : IO unit :=
  (a <- eval (getitem eg_avg step) ;;
   b <- eval (getitem ucb_avg step) ;;
   c <- eval (getitem rand_avg step) ;;
   print (SummaryRow (step + 1) a b c))%io.

(** [print_performance_summary(eg_avg, ucb_avg, rand_avg)] *)
Definition print_performance_summary (eg_avg ucb_avg rand_avg : list R) : IO unit :=
  (print SummaryTitle ;;;
   print SummaryHeader ;;;
   print SummaryRule ;;;
   io_for (summary_row eg_avg ucb_avg rand_avg) checkpoints)%io.

(** [TRUE_MEANS.index(max(TRUE_MEANS))], then [max(TRUE_MEANS)] (lines 163
    and 187). *)
Definition best_arm (cfg : config) : IO (Z * R) :=
  (m <- eval (py_max (TRUE_MEANS cfg)) ;;
   i <- eval (py_index (TRUE_MEANS cfg) m) ;;
   m' <- eval (py_max (TRUE_MEANS cfg)) ;;
   io_ret (i, m'))%io.

(** [main()] *)
Definition main (cfg : config) : IO unit :=
  (print BannerRule ;;;
   print TitleLine ;;;
   print AuthorLine ;;;
   print BannerRule ;;;
   print (SetupLine (NUM_ARMS cfg) (NUM_STEPS cfg) (NUM_RUNS cfg)) ;;;
   print (TrueMeansLine (TRUE_MEANS cfg)) ;;;
   '(i, m) <- best_arm cfg ;;
   print (BestArmLine i m) ;;;
   print (RunningEpsilonGreedy (EPSILON cfg)) ;;;
   '(eg_avg, eg_values) <-
     simulate (average_runs cfg (Learning EpsilonGreedy) (NUM_RUNS cfg)) ;;
   print RunningUCB ;;;
   '(ucb_avg, ucb_values) <-
     simulate (average_runs cfg (Learning UCB) (NUM_RUNS cfg)) ;;
   print RunningRandom ;;;
   '(rand_avg, _) <- simulate (average_runs cfg RandomBaseline (NUM_RUNS cfg)) ;;
   print_performance_summary eg_avg ucb_avg rand_avg ;;;
   print_bar_chart LabelEpsilonGreedy eg_values (TRUE_MEANS cfg) ;;;
   print_bar_chart LabelUCB ucb_values (TRUE_MEANS cfg) ;;;
   final_eg <- eval (getitem eg_avg (-1)) ;;
   final_ucb <- eval (getitem ucb_avg (-1)) ;;
   let winner := if Rgt_dec final_eg final_ucb then LabelEpsilonGreedy else LabelUCB in
   print WinnerRule ;;;
   print (WinnerLine (NUM_STEPS cfg) winner) ;;;
   print (FinalEpsilonGreedy final_eg) ;;;
   print (FinalUCB final_ucb) ;;;
   final_rand <- eval (getitem rand_avg (-1)) ;;
   print (FinalRandom final_rand) ;;;
   '(i', m') <- best_arm cfg ;;
   print (TheoreticalBest i' m') ;;;
   print BannerRule)%io.

(** ** Further notions *)

(** The generator [g] after [nf] more calls of [random.random()] and [ni]
    more of [random.randint]. *)
Definition advance (g : rng) (nf ni : nat) : rng :=
  mkRng (floats g) (ints g) (fpos g + nf) (ipos g + ni).

(** Event [e] of a run of Epsilon-Greedy took the exploration branch. *)
Definition explored (epsilon : R) (e : event) : bool :=
  if Rlt_dec (next_float (ev_rng e)) epsilon then true else false.

(** A computation of the report returns [a] leaving generator [g'], resp.
    raises [e], when started on [g]. *)
Definition returns {A} (m : IO A) (g : rng) (a : A) (g' : rng) : Prop :=
  exists out, m g = (out, Returned a g').

Definition raises {A} (m : IO A) (g : rng) (e : report_exn) : Prop :=
  exists out, m g = (out, Raised e).


(** Every element of [l] lies in [[0, 1]]. *)
Definition unit_interval (l : list R) : Prop :=
  forall x, In x l -> (0 <= x <= 1)%R.

(** * Properties *)

(** ** Lists and subscripts *)

Lemma norm_index_in_range (n : nat) (i : Z) :
  0 <= i < Z.of_nat n -> norm_index n i = Some (Z.to_nat i).
Proof.
  intros H. unfold norm_index.
  destruct (Z.ltb_spec i 0) as [Hn | _]; [lia |].
  destruct (Z.leb_spec 0 i) as [_ | Hn]; [| lia].
  destruct (Z.ltb_spec i (Z.of_nat n)) as [_ | Hn]; [reflexivity | lia].
Qed.

Lemma getitem_in_range {A} (l : list A) (i : Z) (d : A) :
  0 <= i < Z.of_nat (length l) -> getitem l i = Ok (nth (Z.to_nat i) l d).
Proof.
  intros H. unfold getitem. rewrite norm_index_in_range by assumption.
  assert (Hk : (Z.to_nat i < length l)%nat) by lia.
  destruct (nth_error l (Z.to_nat i)) as [x |] eqn:E.
  - apply nth_error_nth with (d := d) in E. now rewrite E.
  - apply nth_error_None in E. lia.
Qed.

Lemma getitem_past_end {A} (l : list A) (i : Z) :
  Z.of_nat (length l) <= i -> getitem l i = Raise IndexError.
Proof.
  intros H. unfold getitem, norm_index.
  destruct (Z.ltb_spec i 0) as [Hn | _]; [lia |].
  destruct (Z.ltb_spec i (Z.of_nat (length l))) as [Hn | _]; [lia |].
  now rewrite andb_false_r.
Qed.

Lemma setitem_in_range {A} (l : list A) (i : Z) (x : A) :
  0 <= i < Z.of_nat (length l) -> setitem l i x = Ok (replace_nth l (Z.to_nat i) x).
Proof.
  intros H. unfold setitem. now rewrite norm_index_in_range.
Qed.

Lemma replace_nth_length {A} (l : list A) (k : nat) (x : A) :
  length (replace_nth l k x) = length l.
Proof.
  revert k. induction l as [| y l IH]; intros [| k]; simpl; auto.
Qed.

Lemma nth_replace_nth_same {A} (l : list A) (k : nat) (x d : A) :
  (k < length l)%nat -> nth k (replace_nth l k x) d = x.
Proof.
  revert k. induction l as [| y l IH]; intros [| k] H; simpl in *; try lia; auto.
  apply IH. lia.
Qed.

Lemma nth_replace_nth_other {A} (l : list A) (k j : nat) (x d : A) :
  j <> k -> nth j (replace_nth l k x) d = nth j l d.
Proof.
  revert k j. induction l as [| y l IH]; intros [| k] [| j] H; simpl; auto.
  congruence.
Qed.

Lemma list_mul_length {A} (x : A) (n : Z) :
  Z.of_nat (length (list_mul x n)) = Z.max 0 n.
Proof.
  unfold list_mul. rewrite repeat_length. lia.
Qed.

Lemma nth_list_mul {A} (x : A) (n : Z) (k : nat) :
  nth k (list_mul x n) x = x.
Proof.
  unfold list_mul. generalize (Z.to_nat n). intros m. revert k.
  induction m as [| m IH]; intros [| k]; simpl; auto.
Qed.

Lemma range_S (n : nat) : range (S n) = range n ++ [Z.of_nat n].
Proof.
  unfold range. rewrite seq_S, map_app. reflexivity.
Qed.

Lemma range_length (n : nat) : length (range n) = n.
Proof.
  unfold range. now rewrite length_map, length_seq.
Qed.

Lemma nth_range (n k : nat) (d : Z) :
  (k < n)%nat -> nth k (range n) d = Z.of_nat k.
Proof.
  intros H. unfold range.
  rewrite nth_indep with (d' := Z.of_nat 0) by (rewrite length_map, length_seq; lia).
  rewrite map_nth, seq_nth by lia. reflexivity.
Qed.

Lemma In_range (n : nat) (x : Z) : In x (range n) <-> 0 <= x < Z.of_nat n.
Proof.
  unfold range. rewrite in_map_iff. split.
  - intros (k & <- & Hk). apply in_seq in Hk. lia.
  - intros H. exists (Z.to_nat x). split; [lia |]. apply in_seq. lia.
Qed.

(** ** Sequencing *)

Lemma for_loop_app {St} (body : Z -> St -> M St) (l1 l2 : list Z) (s : St) (g : rng) :
  for_loop body (l1 ++ l2) s g =
  match for_loop body l1 s g with
  | Ok (s', g') => for_loop body l2 s' g'
  | Raise e => Raise e
  end.
Proof.
  revert s g. induction l1 as [| x l1 IH]; intros s g; simpl.
  - reflexivity.
  - unfold bind. destruct (body x s g) as [[s' g'] | e]; auto.
Qed.

Lemma for_loop_range_S {St} (body : Z -> St -> M St) (n : nat) (s : St) (g : rng) :
  for_loop body (range (S n)) s g =
  match for_loop body (range n) s g with
  | Ok (s', g') => body (Z.of_nat n) s' g'
  | Raise e => Raise e
  end.
Proof.
  rewrite range_S, for_loop_app.
  destruct (for_loop body (range n) s g) as [[s' g'] | e]; auto.
  simpl. unfold bind, ret. destruct (body (Z.of_nat n) s' g') as [[s'' g''] | e]; auto.
Qed.

Lemma comprehension_ok {A B} (f : A -> result B) (h : A -> B) (l : list A) :
  (forall x, In x l -> f x = Ok (h x)) -> comprehension f l = Ok (map h l).
Proof.
  induction l as [| x l IH]; intros H; simpl.
  - reflexivity.
  - rewrite (H x) by (now left). rewrite IH; auto. intros y Hy. apply H. now right.
Qed.

(** ** [max] and [index]: the first position of the maximum *)

Lemma max_from_ge_init (m : R) (l : list R) : (m <= max_from m l)%R.
Proof.
  revert m. induction l as [| x l IH]; intros m; simpl.
  - lra.
  - destruct (Rgt_dec x m) as [H | H].
    + specialize (IH x). lra.
    + apply IH.
Qed.

Lemma max_from_ge (m : R) (l : list R) (x : R) :
  In x l -> (x <= max_from m l)%R.
Proof.
  revert m. induction l as [| y l IH]; intros m H; [destruct H |].
  destruct H as [-> | H]; simpl.
  - destruct (Rgt_dec x m) as [Hg | Hg].
    + apply max_from_ge_init.
    + pose proof (max_from_ge_init m l). lra.
  - now apply IH.
Qed.

Lemma max_from_in (m : R) (l : list R) :
  max_from m l = m \/ In (max_from m l) l.
Proof.
  revert m. induction l as [| y l IH]; intros m; simpl.
  - now left.
  - destruct (Rgt_dec y m) as [Hg | Hg].
    + destruct (IH y) as [-> | H]; auto.
    + destruct (IH m) as [-> | H]; auto.
Qed.

Lemma index_from_spec (i : Z) (l : list R) (x : R) :
  In x l ->
  exists k : nat,
    (k < length l)%nat /\ index_from i l x = Ok (i + Z.of_nat k) /\
    nth k l 0%R = x /\ forall j, (j < k)%nat -> nth j l 0%R <> x.
Proof.
  revert i. induction l as [| y l IH]; intros i H; [destruct H |].
  simpl. destruct (Req_dec_T y x) as [E | E].
  - exists 0%nat. repeat split; simpl; try lia; auto. now rewrite Z.add_0_r.
  - destruct H as [H | H]; [contradiction |].
    destruct (IH (i + 1) H) as (k & Hk & Hi & Hn & Hf).
    exists (S k). repeat split; simpl; try lia; auto.
    + rewrite Hi. f_equal. lia.
    + intros [| j] Hj; auto. apply Hf. lia.
Qed.

Lemma argmax_first (l : list R) :
  l <> [] ->
  exists i, (m <~ py_max l ;; py_index l m) = Ok i /\ first_argmax l i.
Proof.
  destruct l as [| x l]; [congruence | intros _].
  set (m := max_from x l).
  assert (Hin : In m (x :: l)).
  { destruct (max_from_in x l) as [H | H]; [left; symmetry; exact H | now right]. }
  assert (Hge : forall y, In y (x :: l) -> (y <= m)%R).
  { intros y [<- | Hy]; [apply max_from_ge_init | now apply max_from_ge]. }
  destruct (index_from_spec 0 (x :: l) m Hin) as (k & Hk & Hi & Hn & Hf).
  exists (Z.of_nat k). split.
  - simpl rbind. fold m. unfold py_index. rewrite Hi. reflexivity.
  - unfold first_argmax, at_R. rewrite Nat2Z.id, Hn. split; [lia |]. split.
    + intros j Hj. apply Hge, nth_In. lia.
    + intros j Hj.
      assert (Hle : (nth (Z.to_nat j) (x :: l) 0 <= m)%R) by (apply Hge, nth_In; lia).
      assert (Hne : nth (Z.to_nat j) (x :: l) 0%R <> m) by (apply Hf; lia).
      lra.
Qed.

Lemma first_argmax_unique (l : list R) (i j : Z) :
  first_argmax l i -> first_argmax l j -> i = j.
Proof.
  intros (Hi & Hmi & Hfi) (Hj & Hmj & Hfj).
  destruct (Z.lt_trichotomy i j) as [H | [H | H]]; auto.
  - specialize (Hfj i ltac:(lia)). specialize (Hmi j Hj). lra.
  - specialize (Hfi j ltac:(lia)). specialize (Hmj i Hi). lra.
Qed.

(** ** Sums, means and histories *)

Lemma sumZ_app (l1 l2 : list Z) : sumZ (l1 ++ l2) = sumZ l1 + sumZ l2.
Proof.
  induction l1 as [| x l1 IH]; simpl; lia.
Qed.

Lemma sumR_app (l1 l2 : list R) : sumR (l1 ++ l2) = (sumR l1 + sumR l2)%R.
Proof.
  induction l1 as [| x l1 IH]; simpl; [| rewrite IH]; lra.
Qed.

Lemma py_sum_sumR (l : list R) : py_sum l = sumR l.
Proof.
  unfold py_sum.
  assert (H : forall acc, fold_left Rplus l acc = (acc + sumR l)%R).
  { induction l as [| x l IH]; intros acc; simpl; [| rewrite IH]; lra. }
  rewrite H. lra.
Qed.

Lemma sumZ_01_bounds (l : list Z) :
  (forall x, In x l -> x = 0 \/ x = 1) -> 0 <= sumZ l <= Z.of_nat (length l).
Proof.
  induction l as [| x l IH]; intros H; simpl length; simpl sumZ; [lia |].
  assert (Hx : x = 0 \/ x = 1) by (apply H; now left).
  assert (Hl : 0 <= sumZ l <= Z.of_nat (length l)) by (apply IH; intros y Hy; apply H; now right).
  lia.
Qed.

Lemma rewards_of_snoc (a : Z) (tr : list event) (e : event) :
  rewards_of a (tr ++ [e]) =
  if ev_arm e =? a then rewards_of a tr ++ [ev_reward e] else rewards_of a tr.
Proof.
  unfold rewards_of. rewrite filter_app. simpl.
  destruct (ev_arm e =? a).
  - now rewrite map_app.
  - now rewrite app_nil_r.
Qed.

Lemma meanZ_nil : meanZ [] = 0%R.
Proof.
  unfold meanZ. simpl. unfold Rdiv. apply Rmult_0_l.
Qed.

(** The incremental update turns the mean of [rs] into the mean of [rs]
    followed by [r]. *)
Lemma meanZ_snoc (rs : list Z) (r : Z) :
  (meanZ rs + (IZR r - meanZ rs) / IZR (Z.of_nat (length rs) + 1))%R = meanZ (rs ++ [r]).
Proof.
  unfold meanZ. rewrite sumZ_app, length_app. simpl sumZ. simpl length.
  replace (Z.of_nat (length rs + 1)) with (Z.of_nat (length rs) + 1) by lia.
  rewrite Z.add_0_r, !plus_IZR.
  destruct rs as [| x rs].
  - simpl. unfold Rdiv. rewrite Rmult_0_l. field.
  - assert (Hk : (IZR (Z.of_nat (length (x :: rs))) > 0)%R).
    { apply IZR_lt. simpl length. lia. }
    field. split; lra.
Qed.

Lemma meanZ_01_bounds (rs : list Z) :
  (forall x, In x rs -> x = 0 \/ x = 1) -> (0 <= meanZ rs <= 1)%R.
Proof.
  intros H. destruct rs as [| x rs]; [rewrite meanZ_nil; lra |].
  pose proof (sumZ_01_bounds _ H) as [Hlo Hhi].
  unfold meanZ.
  assert (Hk : (0 < IZR (Z.of_nat (length (x :: rs))))%R) by (apply IZR_lt; simpl length; lia).
  apply IZR_le in Hlo, Hhi.
  split.
  - apply Rmult_le_reg_r with (r := IZR (Z.of_nat (length (x :: rs)))); auto.
    unfold Rdiv. rewrite Rmult_assoc, Rinv_l by lra. lra.
  - apply Rmult_le_reg_r with (r := IZR (Z.of_nat (length (x :: rs)))); auto.
    unfold Rdiv. rewrite Rmult_assoc, Rinv_l by lra. lra.
Qed.

Lemma rewards_of_in (a : Z) (tr : list event) (x : Z) :
  In x (rewards_of a tr) -> exists e, In e tr /\ ev_arm e = a /\ ev_reward e = x.
Proof.
  unfold rewards_of. rewrite in_map_iff. intros (e & <- & He).
  apply filter_In in He. destruct He as [He Ha]. exists e. repeat split; auto. lia.
Qed.

Lemma rewards_of_none (a : Z) (tr : list event) :
  (forall e, In e tr -> ev_arm e <> a) -> rewards_of a tr = [].
Proof.
  intros H. unfold rewards_of.
  induction tr as [| e tr IH]; simpl; auto.
  destruct (Z.eqb_spec (ev_arm e) a) as [E | E].
  - exfalso. apply (H e); [now left | exact E].
  - apply IH. intros e' He'. apply H. now right.
Qed.

(** ** One iteration of a learning loop *)

(** The lemmas of this part and the next two ask for one arm at least.  An
    arm without a true mean is allowed: pulling it raises [IndexError], which
    is the first of the two cases of each statement. *)

Section Iteration.

Variable cfg : config.
Hypothesis Hone : 1 <= NUM_ARMS cfg.

Lemma pull_arm_cases (arm : Z) (g : rng) :
  0 <= arm < NUM_ARMS cfg ->
  (Z.of_nat (length (TRUE_MEANS cfg)) < NUM_ARMS cfg /\
   pull_arm cfg arm g = Raise IndexError) \/
  exists reward, (reward = 0 \/ reward = 1) /\
    pull_arm cfg arm g = Ok (reward, skip_float g).
Proof.
  intros Ha. unfold pull_arm, bind, random, lift, ret.
  destruct (Z.lt_ge_cases arm (Z.of_nat (length (TRUE_MEANS cfg)))) as [Hlt | Hge].
  - right. rewrite (getitem_in_range _ _ 0%R) by lia.
    destruct (Rlt_dec _ _); [exists 1 | exists 0]; split; auto.
  - left. split; [lia |]. now rewrite getitem_past_end.
Qed.

Lemma randint_ok (g : rng) :
  exists arm, 0 <= arm < NUM_ARMS cfg /\
    randint 0 (NUM_ARMS cfg - 1) g = Ok (arm, skip_int g).
Proof.
  unfold randint.
  destruct (Z.ltb_spec (NUM_ARMS cfg - 1) 0) as [H | H]; [lia |].
  eexists. split; [| reflexivity].
  pose proof (Z.mod_pos_bound (ints g (ipos g)) (NUM_ARMS cfg - 1 - 0 + 1) ltac:(lia)).
  lia.
Qed.

Lemma pull_and_learn_cases (step : Z) (g0 : rng) (arm : Z) (s : locals) (g : rng) :
  Z.of_nat (length (counts s)) = NUM_ARMS cfg ->
  Z.of_nat (length (values s)) = NUM_ARMS cfg ->
  0 <= arm < NUM_ARMS cfg ->
  0 <= at_Z (counts s) arm ->
  0 <= step ->
  (Z.of_nat (length (TRUE_MEANS cfg)) < NUM_ARMS cfg /\
   pull_and_learn cfg step g0 arm s g = Raise IndexError) \/
  exists reward, (reward = 0 \/ reward = 1) /\
    pull_and_learn cfg step g0 arm s g =
    Ok (mkLocals
          (replace_nth (counts s) (Z.to_nat arm) (at_Z (counts s) arm + 1))
          (replace_nth (values s) (Z.to_nat arm)
             (at_R (values s) arm +
              (IZR reward - at_R (values s) arm) / IZR (at_Z (counts s) arm + 1))%R)
          (total_reward s + reward)
          (rewards s ++ [(IZR (total_reward s + reward) / IZR (step + 1))%R])
          (trace s ++ [mkEvent step g0 (counts s) (values s) arm reward]),
        skip_float g).
Proof.
  intros Hc Hv Ha Hcnt Hstep.
  destruct (pull_arm_cases arm g Ha) as [[Hshort Hpull] | (reward & H01 & Hpull)].
  { left. split; [exact Hshort |]. unfold pull_and_learn, bind. now rewrite Hpull. }
  right. exists reward. split; [exact H01 |].
  unfold pull_and_learn, bind. rewrite Hpull. unfold lift, ret.
  rewrite (getitem_in_range (counts s) arm 0) by lia. fold (at_Z (counts s) arm).
  rewrite setitem_in_range by lia.
  rewrite (getitem_in_range (values s) arm 0%R) by lia. fold (at_R (values s) arm).
  rewrite (getitem_in_range _ arm 0) by (rewrite replace_nth_length; lia).
  rewrite nth_replace_nth_same by lia.
  unfold py_div.
  destruct (Z.eqb_spec (at_Z (counts s) arm + 1) 0) as [E | _]; [lia |].
  rewrite setitem_in_range by lia.
  destruct (Z.eqb_spec (step + 1) 0) as [E | _]; [lia |].
  reflexivity.
Qed.

Lemma learn_inv_init (sel : event -> Prop) : learn_inv cfg sel 0 (init_locals cfg).
Proof.
  constructor; simpl; try reflexivity; try (rewrite list_mul_length; lia);
    try (intros; contradiction); try (intros; lia).
  - intros [| t] e H; discriminate.
  - intros a Ha. unfold at_Z. now rewrite nth_list_mul.
  - intros a Ha. unfold at_R. rewrite nth_list_mul. unfold rewards_of. simpl.
    now rewrite meanZ_nil.
Qed.

Lemma learn_inv_step (sel : event -> Prop) (n : nat) (s : locals)
    (g0 : rng) (arm : Z) (g : rng) :
  learn_inv cfg sel n s ->
  0 <= arm < NUM_ARMS cfg ->
  (forall r, sel (mkEvent (Z.of_nat n) g0 (counts s) (values s) arm r)) ->
  (Z.of_nat (length (TRUE_MEANS cfg)) < NUM_ARMS cfg /\
   pull_and_learn cfg (Z.of_nat n) g0 arm s g = Raise IndexError) \/
  exists s' r,
    pull_and_learn cfg (Z.of_nat n) g0 arm s g = Ok (s', skip_float g) /\
    trace s' = trace s ++ [mkEvent (Z.of_nat n) g0 (counts s) (values s) arm r] /\
    learn_inv cfg sel (S n) s'.
Proof.
  intros I Ha Hsel.
  assert (Hcnt : 0 <= at_Z (counts s) arm) by (rewrite (inv_counts _ _ _ _ I) by lia; lia).
  destruct (pull_and_learn_cases (Z.of_nat n) g0 arm s g
              (inv_counts_len _ _ _ _ I) (inv_values_len _ _ _ _ I) Ha Hcnt ltac:(lia))
    as [Hraise | (r & H01 & Hrun)]; [left; exact Hraise | right].
  eexists. exists r. split; [exact Hrun |]. split; [reflexivity |].
  pose proof (inv_counts_len _ _ _ _ I) as Lc.
  pose proof (inv_values_len _ _ _ _ I) as Lv.
  pose proof (inv_trace_len _ _ _ _ I) as Lt.
  pose proof (inv_rewards_len _ _ _ _ I) as Lr.
  constructor; cbn [counts values total_reward rewards trace].
  - rewrite replace_nth_length. exact Lc.
  - rewrite replace_nth_length. exact Lv.
  - rewrite length_app. simpl. lia.
  - rewrite length_app. simpl. lia.
  - intros t e He.
    destruct (Nat.lt_ge_cases t n) as [Hlt | Hge].
    + rewrite nth_error_app1 in He by lia. now apply (inv_step _ _ _ _ I).
    + rewrite nth_error_app2 in He by lia. rewrite Lt in He.
      destruct (t - n)%nat as [| k] eqn:Ek; simpl in He.
      * injection He as <-. simpl. lia.
      * destruct k; discriminate.
  - intros e He. apply in_app_or in He. destruct He as [He | [<- | []]].
    + now apply (inv_arm _ _ _ _ I).
    + exact Ha.
  - intros e He. apply in_app_or in He. destruct He as [He | [<- | []]].
    + now apply (inv_reward _ _ _ _ I).
    + exact H01.
  - intros e He. apply in_app_or in He. destruct He as [He | [<- | []]].
    + now apply (inv_sel _ _ _ _ I).
    + apply Hsel.
  - intros a Hr. rewrite rewards_of_snoc. simpl. unfold at_Z.
    destruct (Z.eqb_spec arm a) as [-> | Hne].
    + rewrite nth_replace_nth_same by lia. fold (at_Z (counts s) a).
      rewrite (inv_counts _ _ _ _ I) by lia. rewrite length_app. simpl. lia.
    + rewrite nth_replace_nth_other by lia. now apply (inv_counts _ _ _ _ I).
  - intros a Hr. rewrite rewards_of_snoc. simpl. unfold at_R.
    destruct (Z.eqb_spec arm a) as [-> | Hne].
    + rewrite nth_replace_nth_same by lia. fold (at_R (values s) a).
      rewrite (inv_values _ _ _ _ I), (inv_counts _ _ _ _ I) by lia.
      apply meanZ_snoc.
    + rewrite nth_replace_nth_other by lia. now apply (inv_values _ _ _ _ I).
  - unfold all_rewards_of. rewrite map_app, sumZ_app. simpl.
    rewrite (inv_total _ _ _ _ I). unfold all_rewards_of. lia.
  - intros t Ht.
    destruct (Nat.lt_ge_cases t n) as [Hlt | Hge].
    + rewrite app_nth1 by lia. rewrite firstn_app.
      replace (S t - length (trace s))%nat with 0%nat by lia.
      simpl firstn at 2. rewrite app_nil_r. now apply (inv_traj _ _ _ _ I).
    + assert (t = n) as -> by lia.
      rewrite app_nth2 by lia. rewrite Lr, Nat.sub_diag. simpl nth.
      rewrite firstn_all2 by (rewrite length_app; simpl; lia).
      unfold all_rewards_of. rewrite map_app, sumZ_app. simpl.
      rewrite (inv_total _ _ _ _ I). unfold all_rewards_of.
      rewrite Z.add_0_r. reflexivity.
Qed.

End Iteration.

(** ** Arm selection *)

Lemma at_R_map_range (f : Z -> R) (n : nat) (a : Z) :
  0 <= a < Z.of_nat n -> at_R (map f (range n)) a = f a.
Proof.
  intros Ha. unfold at_R.
  rewrite nth_indep with (d' := f 0) by (rewrite length_map, range_length; lia).
  rewrite map_nth, nth_range by lia. f_equal. lia.
Qed.

Lemma ucb_scores_ok (cfg : config) (step : Z) (cnts : list Z) (vals : list R) :
  Z.of_nat (length cnts) = NUM_ARMS cfg ->
  Z.of_nat (length vals) = NUM_ARMS cfg ->
  0 <= step ->
  (forall a, 0 <= a < NUM_ARMS cfg -> 1 <= at_Z cnts a) ->
  ucb_scores cfg step cnts vals =
  Ok (map (ucb_score step cnts vals) (range (Z.to_nat (NUM_ARMS cfg)))).
Proof.
  intros Hc Hv Hstep Hpos. unfold ucb_scores.
  apply comprehension_ok. intros a Ha. apply In_range in Ha.
  assert (Hr : 0 <= a < NUM_ARMS cfg) by lia.
  rewrite (getitem_in_range vals a 0%R) by lia. simpl rbind.
  unfold py_log. destruct (Z.leb_spec (step + 1) 0) as [E | _]; [lia |]. simpl rbind.
  rewrite (getitem_in_range cnts a 0) by lia. simpl rbind.
  fold (at_Z cnts a). fold (at_R vals a).
  specialize (Hpos a Hr).
  unfold py_div. destruct (Z.eqb_spec (at_Z cnts a) 0) as [E | _]; [lia |]. simpl rbind.
  assert (Hln : (0 <= ln (IZR (step + 1)))%R).
  { assert (H1 : (1 <= IZR (step + 1))%R) by (apply IZR_le; lia).
    destruct H1 as [H1 | <-]; [| rewrite ln_1; lra].
    rewrite <- ln_1. left. apply ln_increasing; lra. }
  assert (Hcp : (0 < IZR (at_Z cnts a))%R) by (apply IZR_lt; lia).
  assert (Hq : (0 <= 2 * ln (IZR (step + 1)) / IZR (at_Z cnts a))%R).
  { apply Rmult_le_pos; [lra |]. left. now apply Rinv_0_lt_compat. }
  unfold py_sqrt. destruct (Rlt_dec _ 0) as [E | _]; [lra |]. reflexivity.
Qed.

Section Selection.

Variable cfg : config.
Hypothesis Hone : 1 <= NUM_ARMS cfg.

Lemma eg_select_ok (epsilon : R) (vals : list R) (g : rng) :
  Z.of_nat (length vals) = NUM_ARMS cfg ->
  exists arm g1,
    eg_select cfg epsilon vals g = Ok (arm, g1) /\
    0 <= arm < NUM_ARMS cfg /\
    floats g1 = floats g /\
    (~ (next_float g < epsilon)%R -> first_argmax vals arm).
Proof.
  intros Hlen. unfold eg_select, bind, random.
  destruct (Rlt_dec (next_float g) epsilon) as [Hlt | Hge].
  - destruct (randint_ok cfg Hone (skip_float g)) as (arm & Ha & Hr).
    exists arm, (skip_int (skip_float g)).
    split; [exact Hr |]. split; [exact Ha |]. split; [reflexivity |].
    intros Hn. contradiction.
  - assert (Hne : vals <> []).
    { destruct vals; [simpl in Hlen; lia | discriminate]. }
    destruct (argmax_first vals Hne) as (arm & Hsel & Hfirst).
    exists arm, (skip_float g). unfold lift. rewrite Hsel.
    split; [reflexivity |]. split; [| split; [reflexivity | intros _; exact Hfirst]].
    destruct Hfirst as [Hr _]. lia.
Qed.

Lemma ucb_select_ok (step : Z) (cnts : list Z) (vals : list R) :
  Z.of_nat (length cnts) = NUM_ARMS cfg ->
  Z.of_nat (length vals) = NUM_ARMS cfg ->
  0 <= step ->
  (NUM_ARMS cfg <= step -> forall a, 0 <= a < NUM_ARMS cfg -> 1 <= at_Z cnts a) ->
  exists arm,
    ucb_select cfg step cnts vals = Ok arm /\
    0 <= arm < NUM_ARMS cfg /\
    (step < NUM_ARMS cfg -> arm = step) /\
    (NUM_ARMS cfg <= step ->
     (forall a, 0 <= a < NUM_ARMS cfg ->
        (ucb_score step cnts vals a <= ucb_score step cnts vals arm)%R) /\
     (forall a, 0 <= a < arm ->
        (ucb_score step cnts vals a < ucb_score step cnts vals arm)%R)).
Proof.
  intros Hc Hv Hstep Hpos. unfold ucb_select.
  destruct (Z.ltb_spec step (NUM_ARMS cfg)) as [Hlt | Hge].
  - exists step. repeat split; auto; lia.
  - rewrite ucb_scores_ok by auto. simpl rbind.
    set (scores := map (ucb_score step cnts vals) (range (Z.to_nat (NUM_ARMS cfg)))).
    assert (Hlen : Z.of_nat (length scores) = NUM_ARMS cfg).
    { unfold scores. rewrite length_map, range_length. lia. }
    assert (Hne : scores <> []).
    { destruct scores; [simpl in Hlen; lia | discriminate]. }
    destruct (argmax_first scores Hne) as (arm & Hsel & Hr & Hmax & Hfst).
    exists arm. split; [exact Hsel |]. split; [lia |]. split; [lia |].
    intros _. split.
    + intros a Ha. specialize (Hmax a ltac:(lia)). unfold scores in Hmax.
      rewrite !at_R_map_range in Hmax by lia. exact Hmax.
    + intros a Ha. specialize (Hfst a Ha). unfold scores in Hfst.
      rewrite !at_R_map_range in Hfst by lia. exact Hfst.
Qed.

End Selection.

(** ** The three loops *)

Lemma nth_error_snoc {A} (l : list A) (x y : A) (t : nat) :
  nth_error (l ++ [x]) t = Some y ->
  ((t < length l)%nat /\ nth_error l t = Some y) \/ (t = length l /\ y = x).
Proof.
  intros H. destruct (Nat.lt_ge_cases t (length l)) as [Hlt | Hge].
  - left. rewrite nth_error_app1 in H by lia. auto.
  - right. rewrite nth_error_app2 in H by lia.
    destruct (t - length l)%nat as [| k] eqn:Ek; simpl in H.
    + injection H as <-. split; [lia | reflexivity].
    + destruct k; discriminate.
Qed.

Lemma rewards_of_nonempty (a : Z) (tr : list event) (e : event) :
  In e tr -> ev_arm e = a -> (1 <= length (rewards_of a tr))%nat.
Proof.
  intros He Ha.
  assert (H : In (ev_reward e) (rewards_of a tr)).
  { unfold rewards_of. apply in_map, filter_In. split; [exact He | lia]. }
  destruct (rewards_of a tr); [destruct H | simpl; lia].
Qed.

(** During the warm-up of UCB1 the arm pulled is the step index. *)
Lemma ucb_warmup_arm (cfg : config) (n : nat) (s : locals) (t : nat) (e : event) :
  learn_inv cfg (ucb_selected cfg) n s ->
  nth_error (trace s) t = Some e ->
  Z.of_nat t < NUM_ARMS cfg ->
  ev_arm e = Z.of_nat t.
Proof.
  intros I He Ht.
  pose proof (inv_step _ _ _ _ I t e He) as Hs.
  pose proof (inv_sel _ _ _ _ I e (nth_error_In _ _ He)) as Hsel.
  unfold ucb_selected, ucb_select in Hsel. rewrite Hs in Hsel.
  destruct (Z.ltb_spec (Z.of_nat t) (NUM_ARMS cfg)) as [_ | Hge]; [| lia].
  now injection Hsel as <-.
Qed.

(** Once the warm-up is over every arm has been pulled. *)
Lemma ucb_counts_pos (cfg : config) (n : nat) (s : locals) :
  learn_inv cfg (ucb_selected cfg) n s ->
  NUM_ARMS cfg <= Z.of_nat n ->
  forall a, 0 <= a < NUM_ARMS cfg -> 1 <= at_Z (counts s) a.
Proof.
  intros I Hn a Ha.
  rewrite (inv_counts _ _ _ _ I a Ha).
  destruct (nth_error (trace s) (Z.to_nat a)) as [e |] eqn:He.
  - pose proof (ucb_warmup_arm cfg n s _ e I He ltac:(lia)) as Harm.
    pose proof (rewards_of_nonempty a (trace s) e (nth_error_In _ _ He) ltac:(lia)).
    lia.
  - apply nth_error_None in He. rewrite (inv_trace_len _ _ _ _ I) in He. lia.
Qed.

Section Loops.

Variable cfg : config.
Hypothesis Hone : 1 <= NUM_ARMS cfg.

Lemma eg_loop_cases (epsilon : R) (n : nat) (g : rng) :
  (Z.of_nat (length (TRUE_MEANS cfg)) < NUM_ARMS cfg /\
   eg_loop cfg epsilon n g = Raise IndexError) \/
  exists s g',
    eg_loop cfg epsilon n g = Ok (s, g') /\
    learn_inv cfg (eg_selected cfg epsilon) n s /\
    floats g' = floats g /\
    forall t e, nth_error (trace s) t = Some e -> records (eg_loop cfg epsilon) g t e.
Proof.
  induction n as [| n [[Hshort Hrun] | (s & g1 & Hrun & I & Hfl & Hrec)]].
  - right. exists (init_locals cfg), g. split; [reflexivity |].
    split; [apply learn_inv_init; lia |]. split; [reflexivity |].
    intros [| t] e H; discriminate.
  - left. split; [exact Hshort |].
    unfold eg_loop. rewrite for_loop_range_S. fold (eg_loop cfg epsilon n).
    now rewrite Hrun.
  - unfold eg_loop. rewrite for_loop_range_S. fold (eg_loop cfg epsilon n). rewrite Hrun.
    unfold eg_body, bind, snapshot.
    destruct (eg_select_ok cfg Hone epsilon (values s) g1 (inv_values_len _ _ _ _ I))
      as (arm & g2 & Hsel & Ha & Hfl2 & _).
    rewrite Hsel.
    destruct (learn_inv_step cfg Hone (eg_selected cfg epsilon) n s g1 arm g2 I Ha)
      as [[Hshort Hraise] | (s' & r & Hstep & Htr & I')].
    { intros r. exists g2. exact Hsel. }
    { left. split; assumption. }
    right. exists s', (skip_float g2). split; [exact Hstep |]. split; [exact I' |].
    split; [simpl; congruence |].
    intros t e He. rewrite Htr in He.
    apply nth_error_snoc in He. destruct He as [[Hlt He] | [Ht ->]].
    + now apply Hrec.
    + rewrite (inv_trace_len _ _ _ _ I) in Ht. subst t.
      split; [reflexivity |]. exists s, g1. auto.
Qed.

Lemma ucb_loop_cases (n : nat) (g : rng) :
  (Z.of_nat (length (TRUE_MEANS cfg)) < NUM_ARMS cfg /\
   ucb_loop cfg n g = Raise IndexError) \/
  exists s g',
    ucb_loop cfg n g = Ok (s, g') /\
    learn_inv cfg (ucb_selected cfg) n s /\
    forall t e, nth_error (trace s) t = Some e -> records (ucb_loop cfg) g t e.
Proof.
  induction n as [| n [[Hshort Hrun] | (s & g1 & Hrun & I & Hrec)]].
  - right. exists (init_locals cfg), g. split; [reflexivity |].
    split; [apply learn_inv_init; lia |].
    intros [| t] e H; discriminate.
  - left. split; [exact Hshort |].
    unfold ucb_loop. rewrite for_loop_range_S. fold (ucb_loop cfg n).
    now rewrite Hrun.
  - unfold ucb_loop. rewrite for_loop_range_S. fold (ucb_loop cfg n). rewrite Hrun.
    unfold ucb_body, bind, snapshot.
    destruct (ucb_select_ok cfg Hone (Z.of_nat n) (counts s) (values s)
                (inv_counts_len _ _ _ _ I) (inv_values_len _ _ _ _ I) ltac:(lia))
      as (arm & Hsel & Ha & _).
    { intros Hn. now apply (ucb_counts_pos cfg n s I). }
    unfold lift at 1. rewrite Hsel.
    destruct (learn_inv_step cfg Hone (ucb_selected cfg) n s g1 arm g1 I Ha)
      as [[Hshort Hraise] | (s' & r & Hstep & Htr & I')].
    { intros r. exact Hsel. }
    { left. split; assumption. }
    right. exists s', (skip_float g1). split; [exact Hstep |]. split; [exact I' |].
    intros t e He. rewrite Htr in He.
    apply nth_error_snoc in He. destruct He as [[Hlt He] | [Ht ->]].
    + now apply Hrec.
    + rewrite (inv_trace_len _ _ _ _ I) in Ht. subst t.
      split; [reflexivity |]. exists s, g1. auto.
Qed.

Lemma random_loop_cases (n : nat) (g : rng) :
  (Z.of_nat (length (TRUE_MEANS cfg)) < NUM_ARMS cfg /\
   random_loop cfg n g = Raise IndexError) \/
  exists s g', random_loop cfg n g = Ok (s, g') /\ random_inv cfg n s.
Proof.
  induction n as [| n [[Hshort Hrun] | (s & g1 & Hrun & I)]].
  - right. exists (mkRlocals 0 [] []), g. split; [reflexivity |].
    constructor; simpl; auto; try (intros; contradiction); try (intros; lia).
    intros [| t] e H; discriminate.
  - left. split; [exact Hshort |].
    unfold random_loop. rewrite for_loop_range_S. fold (random_loop cfg n).
    now rewrite Hrun.
  - unfold random_loop. rewrite for_loop_range_S. fold (random_loop cfg n). rewrite Hrun.
    unfold random_body, bind, snapshot.
    destruct (randint_ok cfg Hone g1) as (arm & Ha & Hr). rewrite Hr.
    destruct (pull_arm_cases cfg arm (skip_int g1) Ha)
      as [[Hshort Hp] | (reward & H01 & Hp)]; rewrite Hp.
    { left. split; [exact Hshort | reflexivity]. }
    right. unfold lift, py_div, ret.
    destruct (Z.eqb_spec (Z.of_nat n + 1) 0) as [E | _]; [lia |].
    eexists. eexists. split; [reflexivity |].
    pose proof (rinv_trace_len _ _ _ I) as Lt.
    pose proof (rinv_rewards_len _ _ _ I) as Lr.
    constructor; cbn [r_total_reward r_rewards r_trace].
    + rewrite length_app. simpl. lia.
    + rewrite length_app. simpl. lia.
    + intros t e He. apply nth_error_snoc in He. destruct He as [[Hlt He] | [Ht ->]].
      * now apply (rinv_step _ _ _ I).
      * simpl. lia.
    + intros e He. apply in_app_or in He. destruct He as [He | [<- | []]].
      * now apply (rinv_arm _ _ _ I).
      * exact Ha.
    + unfold all_rewards_of. rewrite map_app, sumZ_app. simpl.
      rewrite (rinv_total _ _ _ I). unfold all_rewards_of. lia.
    + intros t Ht.
      destruct (Nat.lt_ge_cases t n) as [Hlt | Hge].
      * rewrite app_nth1 by lia. rewrite firstn_app.
        replace (S t - length (r_trace s))%nat with 0%nat by lia.
        simpl firstn at 2. rewrite app_nil_r. now apply (rinv_traj _ _ _ I).
      * assert (t = n) as -> by lia.
        rewrite app_nth2 by lia. rewrite Lr, Nat.sub_diag. simpl nth.
        rewrite firstn_all2 by (rewrite length_app; simpl; lia).
        unfold all_rewards_of. rewrite map_app, sumZ_app. simpl.
        rewrite (rinv_total _ _ _ I). unfold all_rewards_of.
        rewrite Z.add_0_r. reflexivity.
Qed.

End Loops.

(** With a true mean for every arm the loops run to their end. *)

Lemma eg_loop_spec (cfg : config) (Harms : arms_ok cfg)
    (epsilon : R) (n : nat) (g : rng) :
  exists s g',
    eg_loop cfg epsilon n g = Ok (s, g') /\
    learn_inv cfg (eg_selected cfg epsilon) n s /\
    floats g' = floats g /\
    forall t e, nth_error (trace s) t = Some e -> records (eg_loop cfg epsilon) g t e.
Proof.
  destruct Harms as [Hone Hmeans].
  destruct (eg_loop_cases cfg Hone epsilon n g) as [[Hshort _] | H]; [lia | exact H].
Qed.

Lemma ucb_loop_spec (cfg : config) (Harms : arms_ok cfg) (n : nat) (g : rng) :
  exists s g',
    ucb_loop cfg n g = Ok (s, g') /\
    learn_inv cfg (ucb_selected cfg) n s /\
    forall t e, nth_error (trace s) t = Some e -> records (ucb_loop cfg) g t e.
Proof.
  destruct Harms as [Hone Hmeans].
  destruct (ucb_loop_cases cfg Hone n g) as [[Hshort _] | H]; [lia | exact H].
Qed.

Lemma random_loop_spec (cfg : config) (Harms : arms_ok cfg) (n : nat) (g : rng) :
  exists s g', random_loop cfg n g = Ok (s, g') /\ random_inv cfg n s.
Proof.
  destruct Harms as [Hone Hmeans].
  destruct (random_loop_cases cfg Hone n g) as [[Hshort _] | H]; [lia | exact H].
Qed.

(** ** Events and the states they record *)

Lemma eg_event_state (cfg : config) (epsilon : R) (n : nat) (g : rng)
    (s : locals) (g' : rng) (t : nat) (e : event) :
  arms_ok cfg ->
  eg_loop cfg epsilon n g = Ok (s, g') ->
  nth_error (trace s) t = Some e ->
  exists st gt,
    eg_loop cfg epsilon t g = Ok (st, gt) /\
    learn_inv cfg (eg_selected cfg epsilon) t st /\
    floats gt = floats g /\
    ev_step e = Z.of_nat t /\ ev_rng e = gt /\
    ev_counts e = counts st /\ ev_values e = values st /\
    eg_selected cfg epsilon e.
Proof.
  intros Harms Hrun He.
  destruct (eg_loop_spec cfg Harms epsilon n g) as (s0 & g0 & Hrun0 & I & _ & Hrec).
  rewrite Hrun in Hrun0. injection Hrun0 as <- <-.
  destruct (Hrec t e He) as (Hstep & st & gt & Hrunt & Hg & Hc & Hv).
  destruct (eg_loop_spec cfg Harms epsilon t g) as (st' & gt' & Hrunt' & It & Hfl & _).
  rewrite Hrunt in Hrunt'. injection Hrunt' as <- <-.
  exists st, gt. do 7 (split; [assumption |]).
  apply (inv_sel _ _ _ _ I). eapply nth_error_In; eauto.
Qed.

Lemma ucb_event_state (cfg : config) (n : nat) (g : rng)
    (s : locals) (g' : rng) (t : nat) (e : event) :
  1 <= NUM_ARMS cfg ->
  ucb_loop cfg n g = Ok (s, g') ->
  nth_error (trace s) t = Some e ->
  exists st gt,
    ucb_loop cfg t g = Ok (st, gt) /\
    learn_inv cfg (ucb_selected cfg) t st /\
    ev_step e = Z.of_nat t /\ ev_rng e = gt /\
    ev_counts e = counts st /\ ev_values e = values st /\
    ucb_selected cfg e.
Proof.
  intros Hone Hrun He.
  destruct (ucb_loop_cases cfg Hone n g) as [[_ Hr] | (s0 & g0 & Hrun0 & I & Hrec)];
    [congruence |].
  rewrite Hrun in Hrun0. injection Hrun0 as <- <-.
  destruct (Hrec t e He) as (Hstep & st & gt & Hrunt & Hg & Hc & Hv).
  destruct (ucb_loop_cases cfg Hone t g) as [[_ Hr] | (st' & gt' & Hrunt' & It & _)];
    [congruence |].
  rewrite Hrunt in Hrunt'. injection Hrunt' as <- <-.
  exists st, gt. do 6 (split; [assumption |]).
  apply (inv_sel _ _ _ _ I). eapply nth_error_In; eauto.
Qed.

Lemma nth_error_in_length {A} (l : list A) (t : nat) :
  (t < length l)%nat -> exists x, nth_error l t = Some x.
Proof.
  intros H. destruct (nth_error l t) as [x |] eqn:E; [eauto |].
  apply nth_error_None in E. lia.
Qed.

(** In the exploitation branch Epsilon-Greedy pulls the first arm of
    greatest estimate. *)
Lemma eg_event_exploit (cfg : config) (epsilon : R) (n : nat) (g : rng)
    (s : locals) (g' : rng) (t : nat) (e : event) :
  arms_ok cfg ->
  eg_loop cfg epsilon n g = Ok (s, g') ->
  nth_error (trace s) t = Some e ->
  ~ (next_float (ev_rng e) < epsilon)%R ->
  first_argmax (ev_values e) (ev_arm e).
Proof.
  intros Harms Hrun He Hexp.
  destruct (eg_event_state cfg epsilon n g s g' t e Harms Hrun He)
    as (st & gt & _ & It & _ & _ & Hg & _ & Hv & g1 & Hsel).
  destruct (eg_select_ok cfg (proj1 Harms) epsilon (ev_values e) (ev_rng e))
    as (arm & g2 & Hsel' & _ & _ & Hfirst).
  { rewrite Hv. apply (inv_values_len _ _ _ _ It). }
  rewrite Hsel in Hsel'. injection Hsel' as <- <-. now apply Hfirst.
Qed.

Lemma rng_wf_floats (g g' : rng) : floats g' = floats g -> rng_wf g -> rng_wf g'.
Proof.
  unfold rng_wf. intros -> H. exact H.
Qed.

(** ** The value estimator *)

(** C1: after any number of iterations of the loop of either learning
    strategy, on any generator, every arm's count is the number of times the
    arm was pulled, and the estimate of an arm pulled [k >= 1] times is the
    sum of the rewards of that arm divided by [k]; the pulls of the other arms
    do not enter. *)
Theorem estimator_is_arithmetic_mean (cfg : config) (epsilon : R) (n : nat) (g : rng) :
  arms_ok cfg ->
  (exists s g', eg_loop cfg epsilon n g = Ok (s, g') /\
     length (trace s) = n /\ estimates_are_means cfg s) /\
  (exists s g', ucb_loop cfg n g = Ok (s, g') /\
     length (trace s) = n /\ estimates_are_means cfg s).
Proof.
  intros Harms.
  assert (Hmeans : forall sel s, learn_inv cfg sel n s -> estimates_are_means cfg s).
  { intros sel s I a Ha. split.
    - now apply (inv_counts _ _ _ _ I).
    - intros _. now apply (inv_values _ _ _ _ I). }
  split.
  - destruct (eg_loop_spec cfg Harms epsilon n g) as (s & g' & Hrun & I & _).
    exists s, g'. split; [exact Hrun |]. split; [apply (inv_trace_len _ _ _ _ I) |].
    now apply (Hmeans _ _ I).
  - destruct (ucb_loop_spec cfg Harms n g) as (s & g' & Hrun & I & _).
    exists s, g'. split; [exact Hrun |]. split; [apply (inv_trace_len _ _ _ _ I) |].
    now apply (Hmeans _ _ I).
Qed.

Lemma arms_ok_source : arms_ok source_config.
Proof.
  unfold arms_ok. simpl. lia.
Defined.

Lemma estimator_is_arithmetic_mean_witness :
  arms_ok source_config /\
  ((exists s g', eg_loop source_config (1 / 10) 7 zero_rng = Ok (s, g') /\
      length (trace s) = 7%nat /\ estimates_are_means source_config s) /\
   (exists s g', ucb_loop source_config 7 zero_rng = Ok (s, g') /\
      length (trace s) = 7%nat /\ estimates_are_means source_config s)).
Proof.
  split; [exact arms_ok_source |].
  apply (estimator_is_arithmetic_mean source_config (1 / 10) 7 zero_rng).
  unfold arms_ok. simpl. lia.
Defined.

(** ** UCB1 *)

(** C3: in a run of UCB1, on any generator, the arm selected at step [t] is
    [t] itself for every [t] below both [NUM_ARMS] and [NUM_STEPS]. *)
Theorem ucb_warmup_in_order (cfg : config) (g : rng) :
  arms_ok cfg ->
  exists s g',
    ucb_loop cfg (Z.to_nat (NUM_STEPS cfg)) g = Ok (s, g') /\
    forall t, 0 <= t < Z.min (NUM_ARMS cfg) (NUM_STEPS cfg) ->
      exists e, nth_error (trace s) (Z.to_nat t) = Some e /\
        records (ucb_loop cfg) g (Z.to_nat t) e /\
        ucb_selected cfg e /\
        ev_arm e = t.
Proof.
  intros Harms.
  destruct (ucb_loop_spec cfg Harms (Z.to_nat (NUM_STEPS cfg)) g)
    as (s & g' & Hrun & I & Hrec).
  exists s, g'. split; [exact Hrun |]. intros t Ht.
  destruct (nth_error_in_length (trace s) (Z.to_nat t)) as (e & He).
  { rewrite (inv_trace_len _ _ _ _ I). lia. }
  exists e. split; [exact He |]. split; [now apply Hrec |].
  split; [apply (inv_sel _ _ _ _ I); eapply nth_error_In; eauto |].
  rewrite (ucb_warmup_arm cfg _ s _ e I He) by lia. lia.
Qed.

Lemma ucb_warmup_in_order_witness :
  arms_ok source_config /\
  exists s g',
    ucb_loop source_config (Z.to_nat (NUM_STEPS source_config)) zero_rng = Ok (s, g') /\
    forall t, 0 <= t < Z.min (NUM_ARMS source_config) (NUM_STEPS source_config) ->
      exists e, nth_error (trace s) (Z.to_nat t) = Some e /\
        records (ucb_loop source_config) zero_rng (Z.to_nat t) e /\
        ucb_selected source_config e /\
        ev_arm e = t.
Proof.
  split; [exact arms_ok_source |].
  apply (ucb_warmup_in_order source_config zero_rng).
  unfold arms_ok. simpl. lia.
Defined.

(** C2: in a run of UCB1, at every step [t] with [NUM_ARMS <= t < NUM_STEPS]
    the selected arm maximises [values[a] + sqrt(2 * ln(t + 1) / counts[a])]
    over the arms, the counts and values being those the step begins with,
    and is the arm of smallest index among the maximisers. *)
Theorem ucb_selects_first_max_score (cfg : config) (g : rng) :
  arms_ok cfg ->
  exists s g',
    ucb_loop cfg (Z.to_nat (NUM_STEPS cfg)) g = Ok (s, g') /\
    forall t, NUM_ARMS cfg <= t < NUM_STEPS cfg ->
      exists e, nth_error (trace s) (Z.to_nat t) = Some e /\
        records (ucb_loop cfg) g (Z.to_nat t) e /\
        ucb_selected cfg e /\
        maximises_score cfg e.
Proof.
  intros Harms.
  destruct (ucb_loop_spec cfg Harms (Z.to_nat (NUM_STEPS cfg)) g)
    as (s & g' & Hrun & I & Hrec).
  exists s, g'. split; [exact Hrun |]. intros t Ht.
  assert (Hpos : 1 <= NUM_ARMS cfg) by (unfold arms_ok in Harms; lia).
  destruct (nth_error_in_length (trace s) (Z.to_nat t)) as (e & He).
  { rewrite (inv_trace_len _ _ _ _ I). lia. }
  exists e. split; [exact He |]. split; [now apply Hrec |].
  destruct (ucb_event_state cfg _ g s g' _ e (proj1 Harms) Hrun He)
    as (st & gt & _ & It & Hstep & _ & Hc & Hv & Hsel).
  split; [exact Hsel |].
  assert (Hst : ev_step e = t) by lia.
  destruct (ucb_select_ok cfg (proj1 Harms) t (counts st) (values st)
              (inv_counts_len _ _ _ _ It) (inv_values_len _ _ _ _ It) ltac:(lia))
    as (arm & Hsel' & Ha & _ & Hmax).
  { intros _. apply (ucb_counts_pos cfg (Z.to_nat t) st It). lia. }
  unfold ucb_selected in Hsel. rewrite Hst, Hc, Hv, Hsel' in Hsel.
  injection Hsel as ->.
  destruct (Hmax ltac:(lia)) as [Hge Hfst].
  unfold maximises_score. rewrite Hst, Hc, Hv. auto.
Qed.

Lemma ucb_selects_first_max_score_witness :
  arms_ok source_config /\
  exists s g',
    ucb_loop source_config (Z.to_nat (NUM_STEPS source_config)) zero_rng = Ok (s, g') /\
    forall t, NUM_ARMS source_config <= t < NUM_STEPS source_config ->
      exists e, nth_error (trace s) (Z.to_nat t) = Some e /\
        records (ucb_loop source_config) zero_rng (Z.to_nat t) e /\
        ucb_selected source_config e /\
        maximises_score source_config e.
Proof.
  split; [exact arms_ok_source |].
  apply (ucb_selects_first_max_score source_config zero_rng).
  unfold arms_ok. simpl. lia.
Defined.

(** C4: in a run of UCB1 with at least one arm, the estimator every step
    [t >= NUM_ARMS] begins with has a count of at least one for every arm, the
    list of scores is computed there without a division by zero, and the run
    never raises [ZeroDivisionError]: it returns when every arm has a true
    mean.  When [NUM_STEPS < NUM_ARMS] every step is a warm-up step, where the
    arm is the step index whatever the counts are. *)
Theorem ucb_never_divides_by_zero (cfg : config) (g : rng) :
  1 <= NUM_ARMS cfg ->
  ucb_loop cfg (Z.to_nat (NUM_STEPS cfg)) g <> Raise ZeroDivisionError /\
  (NUM_ARMS cfg <= Z.of_nat (length (TRUE_MEANS cfg)) ->
   exists s g', ucb_loop cfg (Z.to_nat (NUM_STEPS cfg)) g = Ok (s, g')) /\
  forall s g', ucb_loop cfg (Z.to_nat (NUM_STEPS cfg)) g = Ok (s, g') ->
    length (trace s) = Z.to_nat (NUM_STEPS cfg) /\
    (forall t e, nth_error (trace s) t = Some e ->
       records (ucb_loop cfg) g t e /\
       ucb_selected cfg e /\
       (NUM_ARMS cfg <= ev_step e ->
        (forall a, 0 <= a < NUM_ARMS cfg -> 1 <= at_Z (ev_counts e) a) /\
        exists scores,
          ucb_scores cfg (ev_step e) (ev_counts e) (ev_values e) = Ok scores)) /\
    (NUM_STEPS cfg < NUM_ARMS cfg ->
     forall e, In e (trace s) ->
       ev_step e < NUM_ARMS cfg /\
       forall cnts vals, ucb_select cfg (ev_step e) cnts vals = Ok (ev_step e)).
Proof.
  intros Hone.
  destruct (ucb_loop_cases cfg Hone (Z.to_nat (NUM_STEPS cfg)) g)
    as [[Hshort Hraise] | (s & g' & Hrun & I & Hrec)].
  { rewrite Hraise. split; [discriminate |]. split; [lia |]. discriminate. }
  rewrite Hrun. split; [discriminate |]. split; [eauto |].
  intros s0 g0 E. injection E as <- <-.
  split; [apply (inv_trace_len _ _ _ _ I) |]. split.
  - intros t e He. split; [now apply Hrec |].
    destruct (ucb_event_state cfg _ g s g' _ e Hone Hrun He)
      as (st & gt & _ & It & Hstep & _ & Hc & Hv & Hsel).
    split; [exact Hsel |]. intros Hge.
    assert (Hcnt : forall a, 0 <= a < NUM_ARMS cfg -> 1 <= at_Z (ev_counts e) a).
    { rewrite Hc. apply (ucb_counts_pos cfg t st It). lia. }
    split; [exact Hcnt |].
    eexists. apply ucb_scores_ok.
    + rewrite Hc. apply (inv_counts_len _ _ _ _ It).
    + rewrite Hv. apply (inv_values_len _ _ _ _ It).
    + lia.
    + exact Hcnt.
  - intros Hfew e He.
    apply In_nth_error in He. destruct He as (t & He).
    assert (Ht : (t < Z.to_nat (NUM_STEPS cfg))%nat).
    { rewrite <- (inv_trace_len _ _ _ _ I). apply nth_error_Some. congruence. }
    rewrite (inv_step _ _ _ _ I t e He).
    assert (Hlt : Z.of_nat t < NUM_ARMS cfg) by lia.
    split; [exact Hlt |]. intros cnts vals. unfold ucb_select.
    destruct (Z.ltb_spec (Z.of_nat t) (NUM_ARMS cfg)) as [_ | Hge]; [reflexivity | lia].
Qed.

Lemma ucb_never_divides_by_zero_witness :
  1 <= NUM_ARMS source_config /\
  (ucb_loop source_config (Z.to_nat (NUM_STEPS source_config)) zero_rng
     <> Raise ZeroDivisionError /\
   (NUM_ARMS source_config <= Z.of_nat (length (TRUE_MEANS source_config)) ->
    exists s g',
      ucb_loop source_config (Z.to_nat (NUM_STEPS source_config)) zero_rng = Ok (s, g')) /\
   forall s g',
     ucb_loop source_config (Z.to_nat (NUM_STEPS source_config)) zero_rng = Ok (s, g') ->
     length (trace s) = Z.to_nat (NUM_STEPS source_config) /\
     (forall t e, nth_error (trace s) t = Some e ->
        records (ucb_loop source_config) zero_rng t e /\
        ucb_selected source_config e /\
        (NUM_ARMS source_config <= ev_step e ->
         (forall a, 0 <= a < NUM_ARMS source_config -> 1 <= at_Z (ev_counts e) a) /\
         exists scores,
           ucb_scores source_config (ev_step e) (ev_counts e) (ev_values e)
           = Ok scores)) /\
     (NUM_STEPS source_config < NUM_ARMS source_config ->
      forall e, In e (trace s) ->
        ev_step e < NUM_ARMS source_config /\
        forall cnts vals,
          ucb_select source_config (ev_step e) cnts vals = Ok (ev_step e))).
Proof.
  split; [simpl; lia |].
  apply (ucb_never_divides_by_zero source_config zero_rng).
  simpl. lia.
Defined.

(** ** Epsilon-Greedy *)

(** C5: in a run of Epsilon-Greedy, at every step whose draw is not below
    [epsilon] (the exploitation branch) the selected arm holds the greatest
    current estimate and is the first arm to do so; with [epsilon = 0] and a
    well-formed generator this is so at every step. *)
Theorem eg_exploits_first_max (cfg : config) (epsilon : R) (g : rng) :
  arms_ok cfg ->
  exists s g',
    eg_loop cfg epsilon (Z.to_nat (NUM_STEPS cfg)) g = Ok (s, g') /\
    length (trace s) = Z.to_nat (NUM_STEPS cfg) /\
    forall t e, nth_error (trace s) t = Some e ->
      records (eg_loop cfg epsilon) g t e /\
      eg_selected cfg epsilon e /\
      (~ (next_float (ev_rng e) < epsilon)%R ->
       first_argmax (ev_values e) (ev_arm e)) /\
      (epsilon = 0%R -> rng_wf g -> first_argmax (ev_values e) (ev_arm e)).
Proof.
  intros Harms.
  destruct (eg_loop_spec cfg Harms epsilon (Z.to_nat (NUM_STEPS cfg)) g)
    as (s & g' & Hrun & I & _ & Hrec).
  exists s, g'. split; [exact Hrun |].
  split; [apply (inv_trace_len _ _ _ _ I) |].
  intros t e He. split; [now apply Hrec |].
  destruct (eg_event_state cfg epsilon _ g s g' t e Harms Hrun He)
    as (st & gt & _ & _ & Hfl & _ & Hg & _ & _ & Hsel).
  split; [exact Hsel |]. split.
  - now apply (eg_event_exploit cfg epsilon (Z.to_nat (NUM_STEPS cfg)) g s g' t e).
  - intros -> Hwf.
    apply (eg_event_exploit cfg 0 (Z.to_nat (NUM_STEPS cfg)) g s g' t e); auto.
    rewrite Hg. pose proof (rng_wf_floats g gt Hfl Hwf (fpos gt)) as Hu.
    unfold next_float. lra.
Qed.

Lemma rng_wf_zero : rng_wf zero_rng.
Proof.
  intros i. simpl. lra.
Defined.

Lemma eg_exploits_first_max_witness :
  arms_ok source_config /\
  exists s g',
    eg_loop source_config 0 (Z.to_nat (NUM_STEPS source_config)) zero_rng = Ok (s, g') /\
    length (trace s) = Z.to_nat (NUM_STEPS source_config) /\
    forall t e, nth_error (trace s) t = Some e ->
      records (eg_loop source_config 0) zero_rng t e /\
      eg_selected source_config 0 e /\
      (~ (next_float (ev_rng e) < 0)%R ->
       first_argmax (ev_values e) (ev_arm e)) /\
      (0%R = 0%R -> rng_wf zero_rng -> first_argmax (ev_values e) (ev_arm e)).
Proof.
  split; [exact arms_ok_source |].
  apply (eg_exploits_first_max source_config 0 zero_rng).
  unfold arms_ok. simpl. lia.
Defined.

(** With [epsilon = 0] every event of a run pulls arm 0, and the estimates it
    begins with are zero except that of arm 0, which lies in [[0, 1]]. *)
Lemma greedy_event_arm_0 (cfg : config) (g : rng) :
  arms_ok cfg -> rng_wf g ->
  forall t n s g' e,
    eg_loop cfg 0 n g = Ok (s, g') ->
    nth_error (trace s) t = Some e ->
    ev_arm e = 0 /\
    (0 <= at_R (ev_values e) 0 <= 1)%R /\
    forall a, 1 <= a < NUM_ARMS cfg -> at_R (ev_values e) a = 0%R.
Proof.
  intros Harms Hwf t.
  induction t as [t IH] using lt_wf_ind. intros n s g' e Hrun He.
  destruct (eg_event_state cfg 0 n g s g' t e Harms Hrun He)
    as (st & gt & Hrunt & It & Hfl & _ & Hg & _ & Hv & _).
  assert (Hzero : forall e', In e' (trace st) -> ev_arm e' = 0).
  { intros e' He'. apply In_nth_error in He'. destruct He' as (t' & He').
    assert (Ht' : (t' < t)%nat).
    { rewrite <- (inv_trace_len _ _ _ _ It). apply nth_error_Some. congruence. }
    apply (IH t' Ht' t st gt e' Hrunt He'). }
  assert (Hv0 : (0 <= at_R (values st) 0 <= 1)%R).
  { rewrite (inv_values _ _ _ _ It) by (unfold arms_ok in Harms; lia).
    apply meanZ_01_bounds. intros x Hx.
    apply rewards_of_in in Hx. destruct Hx as (e' & He' & _ & <-).
    now apply (inv_reward _ _ _ _ It). }
  assert (Hva : forall a, 1 <= a < NUM_ARMS cfg -> at_R (values st) a = 0%R).
  { intros a Ha. rewrite (inv_values _ _ _ _ It) by lia.
    rewrite rewards_of_none; [apply meanZ_nil |].
    intros e' He'. rewrite (Hzero e' He'). lia. }
  assert (Hfirst : first_argmax (values st) 0).
  { pose proof (inv_values_len _ _ _ _ It) as Lv. unfold arms_ok in Harms.
    split; [lia |]. split.
    - intros j Hj. destruct (Z.eq_dec j 0) as [-> | Hne]; [lra |].
      rewrite Hva by lia. lra.
    - intros j Hj. lia. }
  assert (Hexp : first_argmax (ev_values e) (ev_arm e)).
  { apply (eg_event_exploit cfg 0 n g s g' t e Harms Hrun He).
    rewrite Hg. pose proof (rng_wf_floats g gt Hfl Hwf (fpos gt)) as Hu.
    unfold next_float. lra. }
  rewrite Hv in *. split; [| split; assumption].
  exact (first_argmax_unique _ _ _ Hexp Hfirst).
Qed.

(** C10: in a run of Epsilon-Greedy with [epsilon = 0], on a well-formed
    generator, every step selects arm 0: the estimate of arm 0 stays within
    [[0, 1]] and that of every other arm stays 0. *)
Theorem greedy_always_pulls_arm_0 (cfg : config) (g : rng) :
  arms_ok cfg -> rng_wf g ->
  exists s g',
    eg_loop cfg 0 (Z.to_nat (NUM_STEPS cfg)) g = Ok (s, g') /\
    length (trace s) = Z.to_nat (NUM_STEPS cfg) /\
    forall t e, nth_error (trace s) t = Some e ->
      records (eg_loop cfg 0) g t e /\
      eg_selected cfg 0 e /\
      ev_arm e = 0 /\
      (0 <= at_R (ev_values e) 0 <= 1)%R /\
      forall a, 1 <= a < NUM_ARMS cfg -> at_R (ev_values e) a = 0%R.
Proof.
  intros Harms Hwf.
  destruct (eg_loop_spec cfg Harms 0 (Z.to_nat (NUM_STEPS cfg)) g)
    as (s & g' & Hrun & I & _ & Hrec).
  exists s, g'. split; [exact Hrun |].
  split; [apply (inv_trace_len _ _ _ _ I) |].
  intros t e He. split; [now apply Hrec |].
  split; [apply (inv_sel _ _ _ _ I); eapply nth_error_In; eauto |].
  exact (greedy_event_arm_0 cfg g Harms Hwf t _ s g' e Hrun He).
Qed.

Lemma greedy_always_pulls_arm_0_witness :
  (arms_ok source_config /\ rng_wf zero_rng) /\
  exists s g',
    eg_loop source_config 0 (Z.to_nat (NUM_STEPS source_config)) zero_rng = Ok (s, g') /\
    length (trace s) = Z.to_nat (NUM_STEPS source_config) /\
    forall t e, nth_error (trace s) t = Some e ->
      records (eg_loop source_config 0) zero_rng t e /\
      eg_selected source_config 0 e /\
      ev_arm e = 0 /\
      (0 <= at_R (ev_values e) 0 <= 1)%R /\
      forall a, 1 <= a < NUM_ARMS source_config -> at_R (ev_values e) a = 0%R.
Proof.
  split; [split; [exact arms_ok_source | exact rng_wf_zero] |].
  apply (greedy_always_pulls_arm_0 source_config zero_rng).
  - unfold arms_ok. simpl. lia.
  - intros i. simpl. lra.
Defined.

(** ** Trajectories *)

Lemma running_average_of_inv (cfg : config) (rw : list R) (tr : list event) :
  0 <= NUM_STEPS cfg ->
  length tr = Z.to_nat (NUM_STEPS cfg) ->
  length rw = Z.to_nat (NUM_STEPS cfg) ->
  (forall t e, nth_error tr t = Some e -> ev_step e = Z.of_nat t) ->
  (forall t, (t < Z.to_nat (NUM_STEPS cfg))%nat ->
     nth t rw 0%R =
     (IZR (sumZ (all_rewards_of (firstn (S t) tr))) / IZR (Z.of_nat t + 1))%R) ->
  running_average cfg rw tr.
Proof.
  intros Hn Lt Lr Hstep Htraj. unfold running_average.
  split; [lia |]. split; [lia |]. split; [exact Hstep |].
  intros t Ht. unfold at_R. rewrite Htraj by lia.
  now rewrite Z2Nat.id by lia.
Qed.

(** C6: the trajectory a single run of any of the three strategies returns
    has exactly [NUM_STEPS] elements, and its element [t] is the total of the
    rewards of steps [0..t] divided by [t + 1]. *)
Theorem trajectory_is_running_average (cfg : config) (epsilon : R) (g : rng) :
  arms_ok cfg -> 0 <= NUM_STEPS cfg ->
  (exists s g',
     eg_loop cfg epsilon (Z.to_nat (NUM_STEPS cfg)) g = Ok (s, g') /\
     run_epsilon_greedy cfg epsilon g = Ok ((rewards s, values s), g') /\
     running_average cfg (rewards s) (trace s)) /\
  (exists s g',
     ucb_loop cfg (Z.to_nat (NUM_STEPS cfg)) g = Ok (s, g') /\
     run_ucb cfg g = Ok ((rewards s, values s), g') /\
     running_average cfg (rewards s) (trace s)) /\
  (exists s g',
     random_loop cfg (Z.to_nat (NUM_STEPS cfg)) g = Ok (s, g') /\
     run_random cfg g = Ok (r_rewards s, g') /\
     running_average cfg (r_rewards s) (r_trace s)).
Proof.
  intros Harms Hn. split; [| split].
  - destruct (eg_loop_spec cfg Harms epsilon (Z.to_nat (NUM_STEPS cfg)) g)
      as (s & g' & Hrun & I & _).
    exists s, g'. split; [exact Hrun |]. split.
    + unfold run_epsilon_greedy, bind. now rewrite Hrun.
    + apply running_average_of_inv; auto; apply I.
  - destruct (ucb_loop_spec cfg Harms (Z.to_nat (NUM_STEPS cfg)) g)
      as (s & g' & Hrun & I & _).
    exists s, g'. split; [exact Hrun |]. split.
    + unfold run_ucb, bind. now rewrite Hrun.
    + apply running_average_of_inv; auto; apply I.
  - destruct (random_loop_spec cfg Harms (Z.to_nat (NUM_STEPS cfg)) g)
      as (s & g' & Hrun & I).
    exists s, g'. split; [exact Hrun |]. split.
    + unfold run_random, bind. now rewrite Hrun.
    + apply running_average_of_inv; auto; apply I.
Qed.

Lemma trajectory_is_running_average_witness :
  (arms_ok source_config /\ 0 <= NUM_STEPS source_config) /\
  (exists s g',
     eg_loop source_config (1 / 10) (Z.to_nat (NUM_STEPS source_config)) zero_rng
       = Ok (s, g') /\
     run_epsilon_greedy source_config (1 / 10) zero_rng = Ok ((rewards s, values s), g') /\
     running_average source_config (rewards s) (trace s)) /\
  (exists s g',
     ucb_loop source_config (Z.to_nat (NUM_STEPS source_config)) zero_rng = Ok (s, g') /\
     run_ucb source_config zero_rng = Ok ((rewards s, values s), g') /\
     running_average source_config (rewards s) (trace s)) /\
  (exists s g',
     random_loop source_config (Z.to_nat (NUM_STEPS source_config)) zero_rng = Ok (s, g') /\
     run_random source_config zero_rng = Ok (r_rewards s, g') /\
     running_average source_config (r_rewards s) (r_trace s)).
Proof.
  split; [split; [exact arms_ok_source | simpl; lia] |].
  apply (trajectory_is_running_average source_config (1 / 10) zero_rng).
  - unfold arms_ok. simpl. lia.
  - simpl. lia.
Defined.

(** ** Averaging over runs *)

Lemma map_range_nth {A B} (h : A -> B) (l : list A) (d : A) :
  map (fun k => h (nth (Z.to_nat k) l d)) (range (length l)) = map h l.
Proof.
  induction l as [| x l IH] using rev_ind; [reflexivity |].
  rewrite length_app. simpl length. rewrite Nat.add_1_r, range_S, !map_app. f_equal.
  - rewrite <- IH. apply map_ext_in. intros k Hk. apply In_range in Hk.
    rewrite app_nth1 by lia. reflexivity.
  - simpl. rewrite Nat2Z.id, app_nth2, Nat.sub_diag by lia. reflexivity.
Qed.

Lemma column_means_ok (rows : list (list R)) (runs n : Z) :
  length rows = Z.to_nat runs ->
  runs <> 0 ->
  (forall row, In row rows -> n <= Z.of_nat (length row)) ->
  column_means rows runs n =
  Ok (map (fun i => (sumR (column rows i) / IZR runs)%R) (range (Z.to_nat n))).
Proof.
  intros Hlen Hruns Hrows. unfold column_means.
  apply comprehension_ok. intros i Hi. apply In_range in Hi.
  rewrite <- Hlen.
  rewrite (comprehension_ok _ (fun run => at_R (nth (Z.to_nat run) rows []) i)).
  - simpl rbind. unfold py_div.
    destruct (Z.eqb_spec runs 0) as [E | _]; [contradiction |].
    rewrite py_sum_sumR. unfold column.
    now rewrite (map_range_nth (fun row => at_R row i) rows []).
  - intros run Hrun. apply In_range in Hrun.
    rewrite (getitem_in_range rows run []) by lia. simpl rbind.
    assert (Hin : In (nth (Z.to_nat run) rows []) rows) by (apply nth_In; lia).
    specialize (Hrows _ Hin).
    rewrite (getitem_in_range _ i 0%R) by lia. reflexivity.
Qed.

Lemma estimates_of_app (outs1 outs2 : list (list R * option (list R))) :
  estimates_of (outs1 ++ outs2) = estimates_of outs1 ++ estimates_of outs2.
Proof.
  induction outs1 as [| [r [v |]] outs1 IH]; simpl; auto. now rewrite IH.
Qed.

(** The loop of [average_runs] gathers the outcomes of successive runs. *)
Lemma gather_successive (cfg : config) (f : strategy) (n : nat) (g : rng) :
  for_loop (gather_body cfg f) (range n) ([], []) g =
  match successive_runs cfg f n g with
  | Ok (outs, g') => Ok ((map fst outs, estimates_of outs), g')
  | Raise e => Raise e
  end.
Proof.
  induction n as [| n IH]; [reflexivity |].
  rewrite for_loop_range_S, IH. simpl successive_runs.
  destruct (successive_runs cfg f n g) as [[outs g1] | e]; [| reflexivity].
  unfold gather_body, run_once. destruct f as [l |]; unfold bind, ret.
  - destruct (call_learner cfg l g1) as [[[r v] g2] | e]; [| reflexivity].
    rewrite map_app, estimates_of_app. reflexivity.
  - destruct (run_random cfg g1) as [[r g2] | e]; [| reflexivity].
    rewrite map_app, estimates_of_app. simpl. now rewrite app_nil_r.
Qed.

Lemma run_once_ok (cfg : config) (f : strategy) (g : rng) :
  arms_ok cfg ->
  exists o g', run_once cfg f g = Ok (o, g') /\ outcome_ok cfg f o.
Proof.
  intros Harms. unfold run_once, outcome_ok. destruct f as [[|] |]; unfold bind, ret.
  - destruct (eg_loop_spec cfg Harms (EPSILON cfg) (Z.to_nat (NUM_STEPS cfg)) g)
      as (s & g' & Hrun & I & _).
    simpl call_learner. unfold run_epsilon_greedy, bind, ret. rewrite Hrun.
    eexists. eexists. split; [reflexivity |]. simpl. split.
    + apply (inv_rewards_len _ _ _ _ I).
    + eexists. split; [reflexivity |]. apply (inv_values_len _ _ _ _ I).
  - destruct (ucb_loop_spec cfg Harms (Z.to_nat (NUM_STEPS cfg)) g)
      as (s & g' & Hrun & I & _).
    simpl call_learner. unfold run_ucb, bind, ret. rewrite Hrun.
    eexists. eexists. split; [reflexivity |]. simpl. split.
    + apply (inv_rewards_len _ _ _ _ I).
    + eexists. split; [reflexivity |]. apply (inv_values_len _ _ _ _ I).
  - destruct (random_loop_spec cfg Harms (Z.to_nat (NUM_STEPS cfg)) g)
      as (s & g' & Hrun & I).
    unfold run_random, bind, ret. rewrite Hrun.
    eexists. eexists. split; [reflexivity |]. simpl. split.
    + apply (rinv_rewards_len _ _ _ I).
    + reflexivity.
Qed.

Lemma successive_runs_ok (cfg : config) (f : strategy) (n : nat) (g : rng) :
  arms_ok cfg ->
  exists outs g',
    successive_runs cfg f n g = Ok (outs, g') /\
    length outs = n /\
    forall o, In o outs -> outcome_ok cfg f o.
Proof.
  intros Harms. induction n as [| n (outs & g1 & Hrun & Hlen & Hok)].
  - exists [], g. split; [reflexivity |]. split; [reflexivity |]. intros o [].
  - simpl. rewrite Hrun.
    destruct (run_once_ok cfg f g1 Harms) as (o & g2 & Ho & Hshape). rewrite Ho.
    exists (outs ++ [o]), g2. split; [reflexivity |]. split.
    + rewrite length_app. simpl. lia.
    + intros o' Hin. apply in_app_or in Hin. destruct Hin as [Hin | [<- | []]]; auto.
Qed.

Lemma estimates_of_random (cfg : config) (outs : list (list R * option (list R))) :
  (forall o, In o outs -> outcome_ok cfg RandomBaseline o) -> estimates_of outs = [].
Proof.
  induction outs as [| [r ov] outs IH]; intros H; [reflexivity |].
  destruct (H (r, ov) ltac:(now left)) as [_ Hnone]. simpl in Hnone. subst ov.
  simpl. apply IH. intros o Ho. apply H. now right.
Qed.

Lemma estimates_of_learning (cfg : config) (l : learner)
    (outs : list (list R * option (list R))) :
  (forall o, In o outs -> outcome_ok cfg (Learning l) o) ->
  map snd outs = map Some (estimates_of outs) /\
  length (estimates_of outs) = length outs /\
  forall v, In v (estimates_of outs) -> Z.of_nat (length v) = NUM_ARMS cfg.
Proof.
  induction outs as [| [r ov] outs IH]; intros H.
  - split; [reflexivity |]. split; [reflexivity |]. intros v [].
  - destruct (H (r, ov) ltac:(now left)) as [_ (v & Hv & Hlen)]. simpl in Hv. subst ov.
    destruct IH as (Hm & Hl & Hin); [intros o' Ho'; apply H; now right |].
    simpl. split; [now rewrite Hm |]. split; [now rewrite Hl |].
    intros v' [<- | Hv']; auto.
Qed.

(** What [average_runs] returns, in terms of the outcomes of the runs. *)
Lemma average_runs_spec (cfg : config) (f : strategy) (runs : Z) (g : rng) :
  arms_ok cfg -> runs <> 0 ->
  exists outs g',
    successive_runs cfg f (Z.to_nat runs) g = Ok (outs, g') /\
    length outs = Z.to_nat runs /\
    (forall o, In o outs -> outcome_ok cfg f o) /\
    average_runs cfg f runs g =
    Ok ((map (fun t => (sumR (column (map fst outs) t) / IZR runs)%R)
           (range (Z.to_nat (NUM_STEPS cfg))),
         match estimates_of outs with
         | [] => None
         | _ :: _ =>
             Some (map (fun a => (sumR (column (estimates_of outs) a) / IZR runs)%R)
                     (range (Z.to_nat (NUM_ARMS cfg))))
         end), g').
Proof.
  intros Harms Hruns.
  destruct (successive_runs_ok cfg f (Z.to_nat runs) g Harms) as (outs & g' & Hrun & Hlen & Hok).
  exists outs, g'. do 3 (split; [assumption |]).
  unfold average_runs, gather, bind. rewrite gather_successive, Hrun.
  unfold lift at 1.
  rewrite column_means_ok; auto.
  - destruct (estimates_of outs) as [| v vs] eqn:Eest; [reflexivity |].
    unfold lift, ret. rewrite column_means_ok; auto.
    + destruct f as [l |].
      * destruct (estimates_of_learning cfg l outs Hok) as (_ & Hl & _).
        rewrite Eest in Hl. lia.
      * rewrite (estimates_of_random cfg outs Hok) in Eest. discriminate.
    + intros row Hrow. destruct f as [l |].
      * destruct (estimates_of_learning cfg l outs Hok) as (_ & _ & Hin).
        rewrite Eest in Hin. rewrite (Hin row Hrow). lia.
      * rewrite (estimates_of_random cfg outs Hok) in Eest. discriminate.
  - now rewrite length_map.
  - intros row Hrow. apply in_map_iff in Hrow. destruct Hrow as (o & <- & Ho).
    destruct (Hok o Ho) as [Hl _]. lia.
Qed.

Lemma column_length (rows : list (list R)) (i : Z) : length (column rows i) = length rows.
Proof.
  unfold column. apply length_map.
Qed.

(** C7: for [runs >= 1], [average_runs] performs [runs] successive runs of the
    strategy and returns a curve whose element [t] is the arithmetic mean,
    over the runs, of the element [t] of their trajectories; for a learning
    strategy every run yields final estimates, and element [a] of the vector
    returned is the arithmetic mean over the runs of their estimate of arm
    [a]. *)
Theorem average_runs_is_mean_over_runs
    (cfg : config) (f : strategy) (runs : Z) (g : rng) :
  arms_ok cfg -> 1 <= runs ->
  exists outs g' avg avg_values,
    successive_runs cfg f (Z.to_nat runs) g = Ok (outs, g') /\
    Z.of_nat (length outs) = runs /\
    average_runs cfg f runs g = Ok ((avg, avg_values), g') /\
    (forall t, 0 <= t < NUM_STEPS cfg ->
       at_R avg t = meanR (column (map fst outs) t)) /\
    (forall l, f = Learning l ->
       exists vs, avg_values = Some vs /\
         map snd outs = map Some (estimates_of outs) /\
         forall a, 0 <= a < NUM_ARMS cfg ->
           at_R vs a = meanR (column (estimates_of outs) a)).
Proof.
  intros Harms Hruns.
  destruct (average_runs_spec cfg f runs g Harms ltac:(lia))
    as (outs & g' & Hsucc & Hlen & Hok & Havg).
  eexists outs, g', _, _. split; [exact Hsucc |]. split; [lia |].
  split; [exact Havg |]. split.
  - intros t Ht. rewrite at_R_map_range by lia.
    unfold meanR. rewrite column_length, length_map, Hlen, Z2Nat.id by lia. reflexivity.
  - intros l ->.
    destruct (estimates_of_learning cfg l outs Hok) as (Hm & Hl & _).
    destruct (estimates_of outs) as [| v vs] eqn:Eest.
    + simpl in Hl. lia.
    + eexists. split; [reflexivity |]. split; [exact Hm |].
      intros a Ha. rewrite at_R_map_range by lia.
      unfold meanR. rewrite column_length, Hl, Hlen, Z2Nat.id by lia. reflexivity.
Qed.

Lemma average_runs_is_mean_over_runs_witness :
  (arms_ok source_config /\ 1 <= 50) /\
  exists outs g' avg avg_values,
    successive_runs source_config (Learning UCB) (Z.to_nat 50) zero_rng = Ok (outs, g') /\
    Z.of_nat (length outs) = 50 /\
    average_runs source_config (Learning UCB) 50 zero_rng = Ok ((avg, avg_values), g') /\
    (forall t, 0 <= t < NUM_STEPS source_config ->
       at_R avg t = meanR (column (map fst outs) t)) /\
    (forall l, Learning UCB = Learning l ->
       exists vs, avg_values = Some vs /\
         map snd outs = map Some (estimates_of outs) /\
         forall a, 0 <= a < NUM_ARMS source_config ->
           at_R vs a = meanR (column (estimates_of outs) a)).
Proof.
  split; [split; [exact arms_ok_source | lia] |].
  apply (average_runs_is_mean_over_runs source_config (Learning UCB) 50 zero_rng).
  - unfold arms_ok. simpl. lia.
  - lia.
Defined.

(** C9: with at least one run, [average_runs] returns [None] as second
    component for the Random strategy and, for either learning strategy, a
    vector of [NUM_ARMS] averaged estimates. *)
Theorem final_estimates_absent_for_random (cfg : config) (runs : Z) (g : rng) :
  arms_ok cfg -> 1 <= runs ->
  (exists avg g', average_runs cfg RandomBaseline runs g = Ok ((avg, None), g')) /\
  (forall l, exists avg vs g',
     average_runs cfg (Learning l) runs g = Ok ((avg, Some vs), g') /\
     Z.of_nat (length vs) = NUM_ARMS cfg).
Proof.
  intros Harms Hruns. split.
  - destruct (average_runs_spec cfg RandomBaseline runs g Harms ltac:(lia))
      as (outs & g' & _ & _ & Hok & Havg).
    rewrite (estimates_of_random cfg outs Hok) in Havg. eauto.
  - intros l.
    destruct (average_runs_spec cfg (Learning l) runs g Harms ltac:(lia))
      as (outs & g' & _ & Hlen & Hok & Havg).
    destruct (estimates_of_learning cfg l outs Hok) as (_ & Hl & _).
    destruct (estimates_of outs) as [| v vs] eqn:Eest.
    + simpl in Hl. lia.
    + eexists _, _, g'. split; [exact Havg |].
      rewrite length_map, range_length. unfold arms_ok in Harms. lia.
Qed.

Lemma final_estimates_absent_for_random_witness :
  (arms_ok source_config /\ 1 <= 50) /\
  (exists avg g',
     average_runs source_config RandomBaseline 50 zero_rng = Ok ((avg, None), g')) /\
  (forall l, exists avg vs g',
     average_runs source_config (Learning l) 50 zero_rng = Ok ((avg, Some vs), g') /\
     Z.of_nat (length vs) = NUM_ARMS source_config).
Proof.
  split; [split; [exact arms_ok_source | lia] |].
  apply (final_estimates_absent_for_random source_config 50 zero_rng).
  - unfold arms_ok. simpl. lia.
  - lia.
Defined.

(** ** Configuration *)

Lemma average_runs_total (cfg : config) (f : strategy) (g : rng) :
  arms_ok cfg -> NUM_RUNS cfg <> 0 ->
  exists r g', average_runs cfg f (NUM_RUNS cfg) g = Ok (r, g').
Proof.
  intros Harms Hruns.
  destruct (average_runs_spec cfg f (NUM_RUNS cfg) g Harms Hruns)
    as (outs & g' & _ & _ & _ & Havg).
  eauto.
Qed.

(** C8, amended: no configuration is checked.  Whenever there is at least one
    arm, a true mean for every arm and a run count other than zero,
    [average_runs] simulates the configuration and returns a result, whatever
    [EPSILON] (also outside [[0, 1]]), the step count (also zero or negative)
    and the sign of the run count are. *)
Theorem configuration_is_not_checked (cfg : config) (f : strategy) (g : rng) :
  arms_ok cfg -> NUM_RUNS cfg <> 0 ->
  exists r g', average_runs cfg f (NUM_RUNS cfg) g = Ok (r, g').
Proof.
  intros Harms Hruns. now apply average_runs_total.
Qed.

Lemma configuration_is_not_checked_witness :
  (arms_ok (mkConfig 5 (-3) (-2) (-1) (TRUE_MEANS source_config)) /\
   NUM_RUNS (mkConfig 5 (-3) (-2) (-1) (TRUE_MEANS source_config)) <> 0) /\
  exists r g',
    average_runs (mkConfig 5 (-3) (-2) (-1) (TRUE_MEANS source_config)) RandomBaseline
      (NUM_RUNS (mkConfig 5 (-3) (-2) (-1) (TRUE_MEANS source_config))) zero_rng
    = Ok (r, g').
Proof.
  split; [split; [unfold arms_ok; simpl; lia | simpl; lia] |].
  apply (configuration_is_not_checked
           (mkConfig 5 (-3) (-2) (-1) (TRUE_MEANS source_config)) RandomBaseline zero_rng).
  - unfold arms_ok. simpl. lia.
  - simpl. lia.
Defined.

(** ** Concrete runs

    The comparisons of real numbers do not compute; [py_eval] evaluates a
    closed call by deciding them one after the other with [lra]. *)

Ltac decide_real :=
  match goal with
  | |- context [Rlt_dec ?x ?y] =>
      first [ destruct (Rlt_dec x y) as [? | ?]; [ | exfalso; lra ]
            | destruct (Rlt_dec x y) as [? | ?]; [ exfalso; lra | ] ]
  | |- context [Rgt_dec ?x ?y] =>
      first [ destruct (Rgt_dec x y) as [? | ?]; [ | exfalso; lra ]
            | destruct (Rgt_dec x y) as [? | ?]; [ exfalso; lra | ] ]
  | |- context [Req_dec_T ?x ?y] =>
      first [ destruct (Req_dec_T x y) as [? | ?]; [ | exfalso; lra ]
            | destruct (Req_dec_T x y) as [? | ?]; [ exfalso; lra | ] ]
  end.

Ltac py_eval :=
  cbv -[IZR Rlt_dec Rgt_dec Req_dec_T Rdiv Rplus Rminus Rmult sqrt ln];
  repeat (decide_real;
          cbv -[IZR Rlt_dec Rgt_dec Req_dec_T Rdiv Rplus Rminus Rmult sqrt ln]).

Lemma ln_3_pos : (0 < ln 3)%R.
Proof.
  rewrite <- ln_1. apply ln_increasing; lra.
Qed.

(** [max] keeps the first of two equal greatest elements. *)
Example argmax_tie :
  (m <~ py_max [0; 3; 3; 2]%R ;; py_index [0; 3; 3; 2]%R m) = Ok 1.
Proof.
  py_eval. reflexivity.
Qed.

(** A negative subscript counts from the end; one past the end raises. *)
Example getitem_negative : getitem [10; 20; 30] (-1) = Ok 30.
Proof. reflexivity. Qed.

Example getitem_out_of_range : getitem [10; 20; 30] 3 = Raise IndexError.
Proof. reflexivity. Qed.

(** UCB1 on two arms and three steps, every draw being 0: arms 0 and 1 are
    pulled in turn, then the scores tie and arm 0 is pulled again. *)
Example run_ucb_tiny :
  exists rw vs g',
    run_ucb tiny_config zero_rng = Ok ((rw, vs), g') /\
    rw = [1; 1; 1]%R /\ vs = [1; 1]%R.
Proof.
  pose proof ln_3_pos as Hln.
  py_eval. eexists _, _, _. split; [reflexivity |].
  split; repeat f_equal; lra.
Qed.

Example ucb_trace_tiny :
  exists s g',
    ucb_loop tiny_config 3 zero_rng = Ok (s, g') /\
    map ev_arm (trace s) = [0; 1; 0] /\
    map ev_reward (trace s) = [1; 1; 1] /\
    counts s = [2; 1].
Proof.
  pose proof ln_3_pos as Hln.
  py_eval. eexists _, _. split; [reflexivity |]. repeat split.
Qed.

(** Greedy selection ([epsilon = 0]) on the same input stays on arm 0. *)
Example run_greedy_tiny :
  exists s g',
    eg_loop tiny_config 0 3 zero_rng = Ok (s, g') /\
    map ev_arm (trace s) = [0; 0; 0] /\
    counts s = [3; 0] /\
    values s = [1; 0]%R.
Proof.
  py_eval. eexists _, _. split; [reflexivity |].
  split; [reflexivity |]. split; [reflexivity |]. repeat f_equal; lra.
Qed.

(** With no run at all the average divides by zero; with no arm the
    simulation itself raises, at the first selection. *)
Example average_runs_zero_runs :
  average_runs tiny_config RandomBaseline 0 zero_rng = Raise ZeroDivisionError.
Proof. reflexivity. Qed.

Example run_random_no_arm :
  run_random (mkConfig 0 3 1 0 []) zero_rng = Raise ValueError.
Proof. reflexivity. Qed.

Example run_ucb_no_arm :
  run_ucb (mkConfig 0 3 1 0 []) zero_rng = Raise ValueError.
Proof. reflexivity. Qed.

Example run_ucb_missing_mean :
  run_ucb (mkConfig 2 3 1 0 [(1 / 2)%R]) zero_rng = Raise IndexError.
Proof.
  py_eval. reflexivity.
Qed.

(** C8 fails: [tiny_config] with [EPSILON = 2], which is outside [[0, 1]], is
    not rejected.  [average_runs] simulates it: every step explores, the
    draws pick arm 0 and reward 1, and the curve and the averaged estimates
    are returned. *)
Lemma invalid_epsilon_not_rejected :
  ~ config_valid (with_epsilon tiny_config 2) /\
  (1 < EPSILON (with_epsilon tiny_config 2))%R /\
  exists avg avg_values g',
    average_runs (with_epsilon tiny_config 2) (Learning EpsilonGreedy)
      (NUM_RUNS (with_epsilon tiny_config 2)) zero_rng
    = Ok ((avg, Some avg_values), g') /\
    avg = [1; 1; 1]%R /\ avg_values = [1; 0]%R.
Proof.
  split; [| split].
  - unfold config_valid. simpl. intros (_ & _ & _ & _ & H). lra.
  - simpl. lra.
  - py_eval. eexists _, _, _. split; [reflexivity |].
    split; repeat f_equal; lra.
Qed.

(** * Further properties of the simulation *)

(** ** What one call does to the generator *)

Lemma skip_float_advance (g : rng) : skip_float g = advance g 1 0.
Proof.
  unfold skip_float, advance. f_equal; lia.
Qed.

Lemma skip_int_advance (g : rng) : skip_int g = advance g 0 1.
Proof.
  unfold skip_int, advance. f_equal; lia.
Qed.

Lemma advance_advance (g : rng) (a b c d : nat) :
  advance (advance g a b) c d = advance g (a + c) (b + d).
Proof.
  unfold advance. simpl. f_equal; lia.
Qed.

Lemma advance_0 (g : rng) : advance g 0 0 = g.
Proof.
  destruct g as [f i p q]. unfold advance. simpl. f_equal; lia.
Qed.

Lemma for_loop_S_inv {St} (body : Z -> St -> M St) (n : nat) (s0 s' : St) (g g' : rng) :
  for_loop body (range (S n)) s0 g = Ok (s', g') ->
  exists s g1,
    for_loop body (range n) s0 g = Ok (s, g1) /\ body (Z.of_nat n) s g1 = Ok (s', g').
Proof.
  rewrite for_loop_range_S.
  destruct (for_loop body (range n) s0 g) as [[s g1] | e]; [| discriminate].
  intros H. exists s, g1. auto.
Qed.

(** [pull_arm] pays 1 exactly when the draw is below the true mean of the
    arm, and makes one call of [random.random()]. *)
Lemma pull_arm_inv (cfg : config) (arm r : Z) (g g' : rng) :
  pull_arm cfg arm g = Ok (r, g') ->
  g' = skip_float g /\
  exists p, getitem (TRUE_MEANS cfg) arm = Ok p /\
    r = (if Rlt_dec (next_float g) p then 1 else 0).
Proof.
  unfold pull_arm, bind, random, lift, ret.
  destruct (getitem (TRUE_MEANS cfg) arm) as [p | e]; [| discriminate].
  intros H. injection H as <- <-. split; [reflexivity |]. exists p. auto.
Qed.

Lemma randint_inv (a b r : Z) (g g' : rng) :
  randint a b g = Ok (r, g') -> g' = skip_int g /\ a <= r <= b.
Proof.
  unfold randint. destruct (Z.ltb_spec b a) as [H | H]; [discriminate |].
  intros E. injection E as <- <-. split; [reflexivity |].
  pose proof (Z.mod_pos_bound (ints g (ipos g)) (b - a + 1) ltac:(lia)). lia.
Qed.

Lemma lift_inv {A} (r : result A) (a : A) (g g' : rng) :
  lift r g = Ok (a, g') -> r = Ok a /\ g' = g.
Proof.
  unfold lift. destruct r; [| discriminate]. intros H. injection H as <- <-. auto.
Qed.

Lemma bind_inv {A B} (m : M A) (k : A -> M B) (b : B) (g g' : rng) :
  bind m k g = Ok (b, g') ->
  exists a g1, m g = Ok (a, g1) /\ k a g1 = Ok (b, g').
Proof.
  unfold bind. destruct (m g) as [[a g1] | e]; [| discriminate].
  intros H. exists a, g1. auto.
Qed.

(** What lines 57-62 (and 88-92) do when they do not raise. *)
Lemma pull_and_learn_inv (cfg : config) (step : Z) (g0 : rng) (arm : Z)
    (s s' : locals) (g g' : rng) :
  pull_and_learn cfg step g0 arm s g = Ok (s', g') ->
  g' = skip_float g /\
  exists r, (r = 0 \/ r = 1) /\
    trace s' = trace s ++ [mkEvent step g0 (counts s) (values s) arm r] /\
    (exists p, getitem (TRUE_MEANS cfg) arm = Ok p).
Proof.
  unfold pull_and_learn. intros H.
  apply bind_inv in H. destruct H as (r & g1 & Hpull & H).
  apply pull_arm_inv in Hpull. destruct Hpull as (-> & p & Hp & Hr).
  repeat (apply bind_inv in H;
          let x := fresh "x" in let gx := fresh "gx" in let Hx := fresh "Hx" in
          destruct H as (x & gx & Hx & H);
          apply lift_inv in Hx; destruct Hx as (Hx & ->)).
  unfold ret in H. injection H as <- <-. split; [reflexivity |].
  exists r. simpl. split; [rewrite Hr; destruct (Rlt_dec _ _); auto |].
  split; [reflexivity | exists p; exact Hp].
Qed.

Lemma eg_body_inv (cfg : config) (epsilon : R) (step : Z) (s s' : locals) (g g' : rng) :
  eg_body cfg epsilon step s g = Ok (s', g') ->
  exists arm r,
    trace s' = trace s ++ [mkEvent step g (counts s) (values s) arm r] /\
    g' = advance g 2 (if Rlt_dec (next_float g) epsilon then 1 else 0).
Proof.
  unfold eg_body. intros H.
  apply bind_inv in H. destruct H as (g0 & g1 & Hsnap & H).
  unfold snapshot in Hsnap. injection Hsnap as <- <-.
  apply bind_inv in H. destruct H as (arm & g2 & Hsel & H).
  apply pull_and_learn_inv in H. destruct H as (-> & r & _ & Htr & _).
  exists arm, r. split; [exact Htr |].
  unfold eg_select in Hsel.
  apply bind_inv in Hsel. destruct Hsel as (u & g3 & Hu & Hsel).
  unfold random in Hu. injection Hu as <- <-.
  destruct (Rlt_dec (next_float g) epsilon) as [Hlt | Hge].
  - apply randint_inv in Hsel. destruct Hsel as [-> _].
    rewrite !skip_float_advance, skip_int_advance, !advance_advance. reflexivity.
  - apply lift_inv in Hsel. destruct Hsel as [_ ->].
    rewrite !skip_float_advance, !advance_advance. reflexivity.
Qed.

Lemma eg_loop_generator (cfg : config) (epsilon : R) (n : nat) (g : rng) :
  forall s g',
    eg_loop cfg epsilon n g = Ok (s, g') ->
    g' = advance g (2 * n) (length (filter (explored epsilon) (trace s))).
Proof.
  induction n as [| n IH]; intros s' g' H.
  - unfold eg_loop in H. simpl in H. unfold ret in H. injection H as <- <-.
    simpl. now rewrite advance_0.
  - unfold eg_loop in H. apply for_loop_S_inv in H.
    destruct H as (s & g1 & Hrun & Hbody). fold (eg_loop cfg epsilon n) in Hrun.
    apply eg_body_inv in Hbody. destruct Hbody as (arm & r & Htr & ->).
    rewrite Htr, filter_app, length_app. simpl filter.
    unfold explored at 2. simpl ev_rng.
    destruct (Rlt_dec (next_float g1) epsilon); simpl length;
      rewrite (IH s g1 Hrun), advance_advance; f_equal; lia.
Qed.

Lemma ucb_loop_generator (cfg : config) (n : nat) (g : rng) :
  forall s g', ucb_loop cfg n g = Ok (s, g') -> g' = advance g n 0.
Proof.
  induction n as [| n IH]; intros s' g' H.
  - unfold ucb_loop in H. simpl in H. unfold ret in H. injection H as <- <-.
    now rewrite advance_0.
  - unfold ucb_loop in H. apply for_loop_S_inv in H.
    destruct H as (s & g1 & Hrun & Hbody). fold (ucb_loop cfg n) in Hrun.
    unfold ucb_body in Hbody.
    apply bind_inv in Hbody. destruct Hbody as (g0 & g2 & Hsnap & Hbody).
    unfold snapshot in Hsnap. injection Hsnap as <- <-.
    apply bind_inv in Hbody. destruct Hbody as (arm & g3 & Hsel & Hbody).
    apply lift_inv in Hsel. destruct Hsel as [_ ->].
    apply pull_and_learn_inv in Hbody. destruct Hbody as (-> & _).
    rewrite (IH s g1 Hrun), skip_float_advance, advance_advance. f_equal; lia.
Qed.

Lemma random_body_inv (cfg : config) (step : Z) (s s' : rlocals) (g g' : rng) :
  random_body cfg step s g = Ok (s', g') ->
  g' = advance g 1 1 /\
  exists arm r, 0 <= arm <= NUM_ARMS cfg - 1 /\ (r = 0 \/ r = 1) /\
    r_trace s' = r_trace s ++ [mkEvent step g [] [] arm r] /\
    r_rewards s' = r_rewards s ++ [(IZR (r_total_reward s + r) / IZR (step + 1))%R] /\
    r_total_reward s' = r_total_reward s + r.
Proof.
  unfold random_body. intros H.
  apply bind_inv in H. destruct H as (g0 & g1 & Hsnap & H).
  unfold snapshot in Hsnap. injection Hsnap as <- <-.
  apply bind_inv in H. destruct H as (arm & g2 & Harm & H).
  apply randint_inv in Harm. destruct Harm as [-> Harm].
  apply bind_inv in H. destruct H as (r & g3 & Hpull & H).
  apply pull_arm_inv in Hpull. destruct Hpull as (-> & p & _ & Hr).
  apply bind_inv in H. destruct H as (avg & g4 & Havg & H).
  apply lift_inv in Havg. destruct Havg as [Havg ->].
  unfold ret in H. injection H as <- <-.
  split.
  - rewrite skip_float_advance, skip_int_advance, advance_advance. reflexivity.
  - exists arm, r. split; [lia |]. split.
    + rewrite Hr. destruct (Rlt_dec _ _); auto.
    + simpl. unfold py_div in Havg.
      destruct (step + 1 =? 0); [discriminate |]. injection Havg as <-. auto.
Qed.

Lemma random_loop_generator (cfg : config) (n : nat) (g : rng) :
  forall s g', random_loop cfg n g = Ok (s, g') -> g' = advance g n n.
Proof.
  induction n as [| n IH]; intros s' g' H.
  - unfold random_loop in H. simpl in H. unfold ret in H. injection H as <- <-.
    now rewrite advance_0.
  - unfold random_loop in H. apply for_loop_S_inv in H.
    destruct H as (s & g1 & Hrun & Hbody). fold (random_loop cfg n) in Hrun.
    apply random_body_inv in Hbody. destruct Hbody as (-> & _).
    rewrite (IH s g1 Hrun), advance_advance. f_equal; lia.
Qed.

(** X1: the calls each strategy makes to the generator.  After [n] steps
    UCB1 has called [random.random()] [n] times and [random.randint] never;
    Random has called each [n] times; Epsilon-Greedy has called
    [random.random()] [2 * n] times and [random.randint] once per step that
    took the exploration branch. *)
Theorem generator_calls (cfg : config) (epsilon : R) (n : nat) (g : rng) :
  arms_ok cfg ->
  (exists s g', ucb_loop cfg n g = Ok (s, g') /\ g' = advance g n 0) /\
  (exists s g', random_loop cfg n g = Ok (s, g') /\ g' = advance g n n) /\
  (exists s g', eg_loop cfg epsilon n g = Ok (s, g') /\
     g' = advance g (2 * n) (length (filter (explored epsilon) (trace s)))).
Proof.
  intros Harms. split; [| split].
  - destruct (ucb_loop_spec cfg Harms n g) as (s & g' & Hrun & _).
    exists s, g'. split; [exact Hrun |]. now apply (ucb_loop_generator cfg n g s).
  - destruct (random_loop_spec cfg Harms n g) as (s & g' & Hrun & _).
    exists s, g'. split; [exact Hrun |]. now apply (random_loop_generator cfg n g s).
  - destruct (eg_loop_spec cfg Harms epsilon n g) as (s & g' & Hrun & _).
    exists s, g'. split; [exact Hrun |].
    now apply (eg_loop_generator cfg epsilon n g s).
Qed.

Lemma generator_calls_witness :
  arms_ok source_config /\
  ((exists s g', ucb_loop source_config 7 zero_rng = Ok (s, g') /\
      g' = advance zero_rng 7 0) /\
   (exists s g', random_loop source_config 7 zero_rng = Ok (s, g') /\
      g' = advance zero_rng 7 7) /\
   (exists s g', eg_loop source_config (1 / 10) 7 zero_rng = Ok (s, g') /\
      g' = advance zero_rng (2 * 7)
             (length (filter (explored (1 / 10)) (trace s))))).
Proof.
  split; [exact arms_ok_source |].
  apply (generator_calls source_config (1 / 10) 7 zero_rng).
  unfold arms_ok. simpl. lia.
Defined.

(** ** Epsilon at and beyond the ends of [[0, 1]] *)

(** X2: on a well-formed generator, a run of Epsilon-Greedy with
    [epsilon >= 1] explores at every step, the arm being the integer draw
    reduced into the arms whatever the estimates are; with [epsilon <= 0] it
    exploits at every step, the arm being the first one of greatest
    estimate. *)
Theorem epsilon_extremes (cfg : config) (epsilon : R) (g : rng) :
  arms_ok cfg -> rng_wf g ->
  exists s g',
    eg_loop cfg epsilon (Z.to_nat (NUM_STEPS cfg)) g = Ok (s, g') /\
    length (trace s) = Z.to_nat (NUM_STEPS cfg) /\
    forall t e, nth_error (trace s) t = Some e ->
      records (eg_loop cfg epsilon) g t e /\
      ((1 <= epsilon)%R ->
       explored epsilon e = true /\
       ev_arm e = ints (ev_rng e) (ipos (ev_rng e)) mod NUM_ARMS cfg) /\
      ((epsilon <= 0)%R ->
       explored epsilon e = false /\ first_argmax (ev_values e) (ev_arm e)).
Proof.
  intros Harms Hwf.
  destruct (eg_loop_spec cfg Harms epsilon (Z.to_nat (NUM_STEPS cfg)) g)
    as (s & g' & Hrun & I & _ & Hrec).
  exists s, g'. split; [exact Hrun |].
  split; [apply (inv_trace_len _ _ _ _ I) |].
  intros t e He. split; [now apply Hrec |].
  destruct (eg_event_state cfg epsilon _ g s g' t e Harms Hrun He)
    as (st & gt & _ & _ & Hfl & _ & Hg & _ & _ & g1 & Hsel).
  assert (Hu : (0 <= next_float (ev_rng e) < 1)%R).
  { rewrite Hg. apply (rng_wf_floats g gt Hfl Hwf). }
  split.
  - intros Hbig. unfold explored.
    unfold eg_select, bind, random in Hsel.
    destruct (Rlt_dec (next_float (ev_rng e)) epsilon) as [_ | Hn]; [| lra].
    split; [reflexivity |].
    unfold randint in Hsel.
    destruct (NUM_ARMS cfg - 1 <? 0); [discriminate |].
    injection Hsel as Harm _. rewrite <- Harm. simpl.
    f_equal. lia.
  - intros Hsmall. unfold explored.
    destruct (Rlt_dec (next_float (ev_rng e)) epsilon) as [Hlt | Hn]; [lra |].
    split; [reflexivity |].
    now apply (eg_event_exploit cfg epsilon (Z.to_nat (NUM_STEPS cfg)) g s g' t e).
Qed.

Lemma epsilon_extremes_witness :
  (arms_ok source_config /\ rng_wf zero_rng) /\
  exists s g',
    eg_loop source_config 2 (Z.to_nat (NUM_STEPS source_config)) zero_rng = Ok (s, g') /\
    length (trace s) = Z.to_nat (NUM_STEPS source_config) /\
    forall t e, nth_error (trace s) t = Some e ->
      records (eg_loop source_config 2) zero_rng t e /\
      ((1 <= 2)%R ->
       explored 2 e = true /\
       ev_arm e = ints (ev_rng e) (ipos (ev_rng e)) mod NUM_ARMS source_config) /\
      ((2 <= 0)%R ->
       explored 2 e = false /\ first_argmax (ev_values e) (ev_arm e)).
Proof.
  split; [split; [exact arms_ok_source | exact rng_wf_zero] |].
  apply (epsilon_extremes source_config 2 zero_rng).
  - unfold arms_ok. simpl. lia.
  - intros i. simpl. lra.
Defined.

(** ** Counts, total reward and estimates *)













(** ** Everything stays within [[0, 1]] *)

Lemma ratio_in_unit_interval (a b : Z) :
  0 <= a <= b -> 0 < b -> (0 <= IZR a / IZR b <= 1)%R.
Proof.
  intros Ha Hb.
  assert (Hb' : (0 < IZR b)%R) by (now apply IZR_lt).
  assert (Ha0 : (0 <= IZR a)%R) by (apply IZR_le; lia).
  assert (Hab : (IZR a <= IZR b)%R) by (apply IZR_le; lia).
  split.
  - apply Rmult_le_reg_r with (r := IZR b); auto.
    unfold Rdiv. rewrite Rmult_assoc, Rinv_l by lra. lra.
  - apply Rmult_le_reg_r with (r := IZR b); auto.
    unfold Rdiv. rewrite Rmult_assoc, Rinv_l by lra. lra.
Qed.

Lemma In_firstn_In {A} (n : nat) (l : list A) (x : A) :
  In x (firstn n l) -> In x l.
Proof.
  intros H. rewrite <- (firstn_skipn n l). apply in_or_app. now left.
Qed.

Lemma running_sums_in_unit_interval (rw : list R) (rs : list Z) (n : nat) :
  length rw = n -> length rs = n ->
  (forall x, In x rs -> x = 0 \/ x = 1) ->
  (forall t, (t < n)%nat ->
     nth t rw 0%R = (IZR (sumZ (firstn (S t) rs)) / IZR (Z.of_nat t + 1))%R) ->
  unit_interval rw.
Proof.
  intros Lw Ls H01 Htraj x Hx.
  apply (In_nth _ _ 0%R) in Hx. destruct Hx as (t & Ht & <-).
  rewrite Htraj by lia.
  apply ratio_in_unit_interval; [| lia].
  pose proof (sumZ_01_bounds (firstn (S t) rs)) as Hb.
  rewrite length_firstn in Hb.
  replace (Z.of_nat (Nat.min (S t) (length rs))) with (Z.of_nat t + 1) in Hb by lia.
  apply Hb. intros y Hy. apply H01. eapply In_firstn_In; eauto.
Qed.

Lemma learn_inv_unit_interval (cfg : config) (sel : event -> Prop) (n : nat) (s : locals) :
  learn_inv cfg sel n s -> unit_interval (rewards s) /\ unit_interval (values s).
Proof.
  intros I. split.
  - apply (running_sums_in_unit_interval _ (all_rewards_of (trace s)) n).
    + apply (inv_rewards_len _ _ _ _ I).
    + unfold all_rewards_of. rewrite length_map. apply (inv_trace_len _ _ _ _ I).
    + intros x Hx. unfold all_rewards_of in Hx. apply in_map_iff in Hx.
      destruct Hx as (e & <- & He). now apply (inv_reward _ _ _ _ I).
    + intros t Ht. rewrite (inv_traj _ _ _ _ I t Ht).
      unfold all_rewards_of. now rewrite firstn_map.
  - intros v Hv. apply (In_nth _ _ 0%R) in Hv. destruct Hv as (k & Hk & <-).
    pose proof (inv_values_len _ _ _ _ I) as Lv.
    pose proof (inv_values _ _ _ _ I (Z.of_nat k) ltac:(lia)) as Hval.
    unfold at_R in Hval. rewrite Nat2Z.id in Hval. rewrite Hval.
    apply meanZ_01_bounds. intros x Hx.
    apply rewards_of_in in Hx. destruct Hx as (e & He & _ & <-).
    now apply (inv_reward _ _ _ _ I).
Qed.

Lemma random_loop_rewards (cfg : config) (n : nat) (g : rng) :
  forall s g',
    random_loop cfg n g = Ok (s, g') ->
    forall e, In e (r_trace s) -> ev_reward e = 0 \/ ev_reward e = 1.
Proof.
  induction n as [| n IH]; intros s' g' H e He.
  - unfold random_loop in H. simpl in H. unfold ret in H. injection H as <- <-.
    destruct He.
  - unfold random_loop in H. apply for_loop_S_inv in H.
    destruct H as (s & g1 & Hrun & Hbody). fold (random_loop cfg n) in Hrun.
    apply random_body_inv in Hbody.
    destruct Hbody as (_ & arm & r & _ & H01 & Htr & _).
    rewrite Htr in He. apply in_app_or in He. destruct He as [He | [<- | []]].
    + exact (IH s g1 Hrun e He).
    + exact H01.
Qed.

Lemma single_runs_unit_interval (cfg : config) (epsilon : R) (g : rng) :
  arms_ok cfg ->
  (exists rw vs g',
     run_epsilon_greedy cfg epsilon g = Ok ((rw, vs), g') /\
     unit_interval rw /\ unit_interval vs) /\
  (exists rw vs g',
     run_ucb cfg g = Ok ((rw, vs), g') /\ unit_interval rw /\ unit_interval vs) /\
  (exists rw g', run_random cfg g = Ok (rw, g') /\ unit_interval rw).
Proof.
  intros Harms. split; [| split].
  - destruct (eg_loop_spec cfg Harms epsilon (Z.to_nat (NUM_STEPS cfg)) g)
      as (s & g' & Hrun & I & _).
    exists (rewards s), (values s), g'. split.
    + unfold run_epsilon_greedy, bind. now rewrite Hrun.
    + now apply (learn_inv_unit_interval cfg _ _ s I).
  - destruct (ucb_loop_spec cfg Harms (Z.to_nat (NUM_STEPS cfg)) g)
      as (s & g' & Hrun & I & _).
    exists (rewards s), (values s), g'. split.
    + unfold run_ucb, bind. now rewrite Hrun.
    + now apply (learn_inv_unit_interval cfg _ _ s I).
  - destruct (random_loop_spec cfg Harms (Z.to_nat (NUM_STEPS cfg)) g)
      as (s & g' & Hrun & I).
    exists (r_rewards s), g'. split.
    + unfold run_random, bind. now rewrite Hrun.
    + apply (running_sums_in_unit_interval _ (all_rewards_of (r_trace s))
               (Z.to_nat (NUM_STEPS cfg))).
      * apply (rinv_rewards_len _ _ _ I).
      * unfold all_rewards_of. rewrite length_map. apply (rinv_trace_len _ _ _ I).
      * intros x Hx. unfold all_rewards_of in Hx. apply in_map_iff in Hx.
        destruct Hx as (e & <- & He).
        exact (random_loop_rewards cfg _ g s g' Hrun e He).
      * intros t Ht. rewrite (rinv_traj _ _ _ I t Ht).
        unfold all_rewards_of. now rewrite firstn_map.
Qed.

(** X4: every element of the trajectory a single run returns, for the
    three strategies, and every final estimate of a learning strategy, lies
    in [[0, 1]]. *)
Theorem runs_stay_in_unit_interval (cfg : config) (epsilon : R) (g : rng) :
  arms_ok cfg ->
  (exists rw vs g',
     run_epsilon_greedy cfg epsilon g = Ok ((rw, vs), g') /\
     unit_interval rw /\ unit_interval vs) /\
  (exists rw vs g',
     run_ucb cfg g = Ok ((rw, vs), g') /\ unit_interval rw /\ unit_interval vs) /\
  (exists rw g', run_random cfg g = Ok (rw, g') /\ unit_interval rw).
Proof.
  exact (single_runs_unit_interval cfg epsilon g).
Qed.

Lemma runs_stay_in_unit_interval_witness :
  arms_ok source_config /\
  ((exists rw vs g',
      run_epsilon_greedy source_config (1 / 10) zero_rng = Ok ((rw, vs), g') /\
      unit_interval rw /\ unit_interval vs) /\
   (exists rw vs g',
      run_ucb source_config zero_rng = Ok ((rw, vs), g') /\
      unit_interval rw /\ unit_interval vs) /\
   (exists rw g', run_random source_config zero_rng = Ok (rw, g') /\ unit_interval rw)).
Proof.
  split; [exact arms_ok_source |].
  apply (runs_stay_in_unit_interval source_config (1 / 10) zero_rng).
  unfold arms_ok. simpl. lia.
Defined.

Lemma sumR_unit_bounds (l : list R) :
  unit_interval l -> (0 <= sumR l <= IZR (Z.of_nat (length l)))%R.
Proof.
  induction l as [| x l IH]; intros H.
  - simpl. lra.
  - assert (Hx : (0 <= x <= 1)%R) by (apply H; now left).
    assert (Hl : (0 <= sumR l <= IZR (Z.of_nat (length l)))%R).
    { apply IH. intros y Hy. apply H. now right. }
    simpl sumR. simpl length. rewrite Nat2Z.inj_succ, succ_IZR. lra.
Qed.

Lemma mean_in_unit_interval (l : list R) (n : Z) :
  unit_interval l -> Z.of_nat (length l) = n -> 1 <= n ->
  (0 <= sumR l / IZR n <= 1)%R.
Proof.
  intros Hl Hn Hpos.
  pose proof (sumR_unit_bounds l Hl) as Hb. rewrite Hn in Hb.
  assert (Hn' : (0 < IZR n)%R) by (apply IZR_lt; lia).
  split.
  - apply Rmult_le_reg_r with (r := IZR n); auto.
    unfold Rdiv. rewrite Rmult_assoc, Rinv_l by lra. lra.
  - apply Rmult_le_reg_r with (r := IZR n); auto.
    unfold Rdiv. rewrite Rmult_assoc, Rinv_l by lra. lra.
Qed.

Lemma column_unit_interval (rows : list (list R)) (i n : Z) :
  (forall row, In row rows -> Z.of_nat (length row) = n /\ unit_interval row) ->
  0 <= i < n ->
  unit_interval (column rows i).
Proof.
  intros Hrows Hi x Hx. unfold column in Hx. apply in_map_iff in Hx.
  destruct Hx as (row & <- & Hrow). destruct (Hrows row Hrow) as [Hlen Hunit].
  apply Hunit. unfold at_R. apply nth_In. lia.
Qed.

Lemma run_once_unit_interval (cfg : config) (f : strategy) (g : rng) :
  arms_ok cfg ->
  forall o g', run_once cfg f g = Ok (o, g') ->
    unit_interval (fst o) /\ forall v, snd o = Some v -> unit_interval v.
Proof.
  intros Harms o g' H.
  destruct (single_runs_unit_interval cfg (EPSILON cfg) g Harms)
    as ((rw1 & vs1 & g1 & Heg & Hrw1 & Hvs1) & (rw2 & vs2 & g2 & Hucb & Hrw2 & Hvs2)
        & (rw3 & g3 & Hrand & Hrw3)).
  unfold run_once in H. destruct f as [[|] |]; unfold bind, ret in H; simpl in H.
  - rewrite Heg in H. injection H as <- <-. simpl. split; [exact Hrw1 |].
    intros v E. injection E as <-. exact Hvs1.
  - rewrite Hucb in H. injection H as <- <-. simpl. split; [exact Hrw2 |].
    intros v E. injection E as <-. exact Hvs2.
  - rewrite Hrand in H. injection H as <- <-. simpl. split; [exact Hrw3 |].
    intros v E. discriminate.
Qed.

Lemma successive_runs_unit_interval (cfg : config) (f : strategy) (n : nat) (g : rng) :
  arms_ok cfg ->
  forall outs g', successive_runs cfg f n g = Ok (outs, g') ->
    forall o, In o outs ->
      unit_interval (fst o) /\ forall v, snd o = Some v -> unit_interval v.
Proof.
  intros Harms. induction n as [| n IH]; intros outs g' H o Ho.
  - simpl in H. injection H as <- <-. destruct Ho.
  - simpl in H.
    destruct (successive_runs cfg f n g) as [[outs0 g1] | e]; [| discriminate].
    destruct (run_once cfg f g1) as [[o1 g2] | e] eqn:Hone; [| discriminate].
    injection H as <- <-. apply in_app_or in Ho. destruct Ho as [Ho | [<- | []]].
    + exact (IH outs0 g1 eq_refl o Ho).
    + exact (run_once_unit_interval cfg f g1 Harms o1 g2 Hone).
Qed.

Lemma estimates_of_In (outs : list (list R * option (list R))) (v : list R) :
  In v (estimates_of outs) -> exists r, In (r, Some v) outs.
Proof.
  induction outs as [| [r [w |]] outs IH]; simpl; intros H; [destruct H | |].
  - destruct H as [<- | H]; [exists r; now left |].
    destruct (IH H) as (r' & Hr'). exists r'. now right.
  - destruct (IH H) as (r' & Hr'). exists r'. now right.
Qed.

(** X5: with at least one run, the curve [average_runs] returns has one
    element per step, every element lies in [[0, 1]], and so does every
    averaged estimate when there are some. *)
Theorem aggregate_stays_in_unit_interval
    (cfg : config) (f : strategy) (runs : Z) (g : rng) :
  arms_ok cfg -> 1 <= runs ->
  exists avg avg_values g',
    average_runs cfg f runs g = Ok ((avg, avg_values), g') /\
    Z.of_nat (length avg) = Z.max 0 (NUM_STEPS cfg) /\
    unit_interval avg /\
    forall vs, avg_values = Some vs -> unit_interval vs.
Proof.
  intros Harms Hruns.
  destruct (average_runs_spec cfg f runs g Harms ltac:(lia))
    as (outs & g' & Hsucc & Hlen & Hok & Havg).
  pose proof (successive_runs_unit_interval cfg f _ g Harms outs g' Hsucc) as Hunit.
  eexists _, _, g'. split; [exact Havg |]. split; [| split].
  - rewrite length_map, range_length. lia.
  - intros x Hx. apply in_map_iff in Hx. destruct Hx as (t & <- & Ht).
    apply In_range in Ht.
    apply mean_in_unit_interval; [| rewrite column_length, length_map; lia | lia].
    apply (column_unit_interval _ t (Z.of_nat (Z.to_nat (NUM_STEPS cfg)))); [| lia].
    intros row Hrow. apply in_map_iff in Hrow. destruct Hrow as (o & <- & Ho).
    split; [destruct (Hok o Ho) as [Hl _]; lia | exact (proj1 (Hunit o Ho))].
  - intros vs Hvs.
    assert (Hall : forall v, In v (estimates_of outs) ->
              Z.of_nat (length v) = NUM_ARMS cfg /\ unit_interval v).
    { intros v Hv. apply estimates_of_In in Hv. destruct Hv as (r & Hr).
      split; [| exact (proj2 (Hunit (r, Some v) Hr) v eq_refl)].
      destruct (Hok (r, Some v) Hr) as [_ Hshape]. destruct f as [l |].
      - destruct Hshape as (v' & E & Hl). simpl in E. injection E as ->. exact Hl.
      - simpl in Hshape. discriminate. }
    assert (Hn : estimates_of outs <> [] ->
              Z.of_nat (length (estimates_of outs)) = runs).
    { intros Hne. destruct f as [l |].
      - destruct (estimates_of_learning cfg l outs Hok) as (_ & Hl & _). lia.
      - now rewrite (estimates_of_random cfg outs Hok) in Hne. }
    destruct (estimates_of outs) as [| v0 rest] eqn:Eest; [discriminate |].
    injection Hvs as <-.
    specialize (Hn ltac:(discriminate)).
    intros x Hx. apply in_map_iff in Hx. destruct Hx as (a & <- & Ha).
    apply In_range in Ha.
    apply (mean_in_unit_interval (column (v0 :: rest) a) runs);
      [| rewrite column_length; exact Hn | lia].
    apply (column_unit_interval _ a (NUM_ARMS cfg)); [exact Hall | lia].
Qed.

Lemma aggregate_stays_in_unit_interval_witness :
  (arms_ok source_config /\ 1 <= 50) /\
  exists avg avg_values g',
    average_runs source_config (Learning UCB) 50 zero_rng = Ok ((avg, avg_values), g') /\
    Z.of_nat (length avg) = Z.max 0 (NUM_STEPS source_config) /\
    unit_interval avg /\
    forall vs, avg_values = Some vs -> unit_interval vs.
Proof.
  split; [split; [exact arms_ok_source | lia] |].
  apply (aggregate_stays_in_unit_interval source_config (Learning UCB) 50 zero_rng).
  - unfold arms_ok. simpl. lia.
  - lia.
Defined.

(** ** The reward source *)

(** X6: for an arm that has a true mean [p], on a well-formed generator,
    [pull_arm] makes one call of [random.random()] and returns 1 when the draw
    is below [p] and 0 otherwise; a mean of 1 or more always pays and a mean of
    0 or less never does. *)
Theorem pull_arm_pays (cfg : config) (arm : Z) (g : rng) :
  rng_wf g ->
  0 <= arm < Z.of_nat (length (TRUE_MEANS cfg)) ->
  exists r,
    pull_arm cfg arm g = Ok (r, advance g 1 0) /\
    (r = 0 \/ r = 1) /\
    (r = 1 <-> (next_float g < at_R (TRUE_MEANS cfg) arm)%R) /\
    ((1 <= at_R (TRUE_MEANS cfg) arm)%R -> r = 1) /\
    ((at_R (TRUE_MEANS cfg) arm <= 0)%R -> r = 0).
Proof.
  intros Hwf Ha. pose proof (Hwf (fpos g)) as Hu. fold (next_float g) in Hu.
  unfold pull_arm, bind, random, lift, ret.
  rewrite (getitem_in_range _ _ 0%R) by exact Ha. fold (at_R (TRUE_MEANS cfg) arm).
  rewrite skip_float_advance.
  destruct (Rlt_dec (next_float g) (at_R (TRUE_MEANS cfg) arm)) as [Hlt | Hge].
  - exists 1. split; [reflexivity |]. split; [now right |].
    split; [tauto |]. split; [reflexivity |]. intros Hp. lra.
  - exists 0. split; [reflexivity |]. split; [now left |].
    split; [split; [discriminate | contradiction] |].
    split; [intros Hp; lra | reflexivity].
Qed.

Lemma pull_arm_pays_witness :
  (rng_wf zero_rng /\ 0 <= 2 < Z.of_nat (length (TRUE_MEANS source_config))) /\
  exists r,
    pull_arm source_config 2 zero_rng = Ok (r, advance zero_rng 1 0) /\
    (r = 0 \/ r = 1) /\
    (r = 1 <-> (next_float zero_rng < at_R (TRUE_MEANS source_config) 2)%R) /\
    ((1 <= at_R (TRUE_MEANS source_config) 2)%R -> r = 1) /\
    ((at_R (TRUE_MEANS source_config) 2 <= 0)%R -> r = 0).
Proof.
  split; [split; [exact rng_wf_zero | simpl; lia] |].
  apply (pull_arm_pays source_config 2 zero_rng).
  - intros i. simpl. lra.
  - simpl. lia.
Defined.

(** ** Configurations outside the domain *)

Lemma range_cons (n : nat) : (1 <= n)%nat -> exists l, range n = 0 :: l.
Proof.
  intros H. destruct n as [| n]; [lia |]. unfold range. simpl. eauto.
Qed.

Lemma for_loop_first_raises {St} (body : Z -> St -> M St) (n : nat) (s : St)
    (g : rng) (e : exn) :
  (1 <= n)%nat -> body 0 s g = Raise e -> for_loop body (range n) s g = Raise e.
Proof.
  intros Hn Hb. destruct (range_cons n Hn) as (l & ->).
  simpl. unfold bind. now rewrite Hb.
Qed.

Lemma list_mul_nonpos {A} (x : A) (n : Z) : n <= 0 -> list_mul x n = [].
Proof.
  intros H. unfold list_mul. replace (Z.to_nat n) with 0%nat by lia. reflexivity.
Qed.

Lemma single_runs_without_arm (cfg : config) (epsilon : R) (g : rng) :
  NUM_ARMS cfg <= 0 -> 1 <= NUM_STEPS cfg ->
  run_epsilon_greedy cfg epsilon g = Raise ValueError /\
  run_ucb cfg g = Raise ValueError /\
  run_random cfg g = Raise ValueError.
Proof.
  intros Harms Hsteps.
  assert (Hn : (1 <= Z.to_nat (NUM_STEPS cfg))%nat) by lia.
  split; [| split].
  - unfold run_epsilon_greedy, bind, eg_loop.
    rewrite (for_loop_first_raises _ _ _ _ ValueError Hn); [reflexivity |].
    unfold eg_body, bind, snapshot, eg_select, bind, random, init_locals.
    rewrite !list_mul_nonpos by exact Harms.
    destruct (Rlt_dec (next_float g) epsilon).
    + unfold randint. destruct (Z.ltb_spec (NUM_ARMS cfg - 1) 0); [reflexivity | lia].
    + reflexivity.
  - unfold run_ucb, bind, ucb_loop.
    rewrite (for_loop_first_raises _ _ _ _ ValueError Hn); [reflexivity |].
    unfold ucb_body, bind, snapshot, ucb_select, ucb_scores.
    destruct (Z.ltb_spec 0 (NUM_ARMS cfg)); [lia |].
    replace (Z.to_nat (NUM_ARMS cfg)) with 0%nat by lia. reflexivity.
  - unfold run_random, bind, random_loop.
    rewrite (for_loop_first_raises _ _ _ _ ValueError Hn); [reflexivity |].
    unfold random_body, bind, snapshot, randint.
    destruct (Z.ltb_spec (NUM_ARMS cfg - 1) 0); [reflexivity | lia].
Qed.

(** X7: a configuration without arm is not turned down; with at least one
    step every single run raises [ValueError] at its first selection, and so
    does [average_runs] as soon as it performs a run. *)
Theorem no_arm_raises_value_error
    (cfg : config) (epsilon : R) (f : strategy) (runs : Z) (g : rng) :
  NUM_ARMS cfg <= 0 -> 1 <= NUM_STEPS cfg -> 1 <= runs ->
  run_epsilon_greedy cfg epsilon g = Raise ValueError /\
  run_ucb cfg g = Raise ValueError /\
  run_random cfg g = Raise ValueError /\
  average_runs cfg f runs g = Raise ValueError.
Proof.
  intros Harms Hsteps Hruns.
  destruct (single_runs_without_arm cfg epsilon g Harms Hsteps) as (Heg & Hucb & Hrand).
  do 3 (split; [assumption |]).
  unfold average_runs, bind, gather.
  rewrite (for_loop_first_raises _ _ _ _ ValueError); [reflexivity | lia |].
  unfold gather_body, bind. destruct f as [[|] |]; simpl call_learner.
  - destruct (single_runs_without_arm cfg (EPSILON cfg) g Harms Hsteps) as (-> & _).
    reflexivity.
  - now rewrite Hucb.
  - now rewrite Hrand.
Qed.

Lemma no_arm_raises_value_error_witness :
  (NUM_ARMS (mkConfig 0 3 1 0 []) <= 0 /\ 1 <= NUM_STEPS (mkConfig 0 3 1 0 []) /\
   1 <= 1) /\
  run_epsilon_greedy (mkConfig 0 3 1 0 []) 0 zero_rng = Raise ValueError /\
  run_ucb (mkConfig 0 3 1 0 []) zero_rng = Raise ValueError /\
  run_random (mkConfig 0 3 1 0 []) zero_rng = Raise ValueError /\
  average_runs (mkConfig 0 3 1 0 []) RandomBaseline 1 zero_rng = Raise ValueError.
Proof.
  split; [simpl; lia |].
  apply (no_arm_raises_value_error (mkConfig 0 3 1 0 []) 0 RandomBaseline 1 zero_rng);
    simpl; lia.
Defined.

Lemma map_constant {A B} (f : A -> B) (c : B) (l : list A) :
  (forall x, In x l -> f x = c) -> map f l = repeat c (length l).
Proof.
  induction l as [| x l IH]; intros H; simpl; [reflexivity |].
  rewrite (H x) by (now left). f_equal. apply IH. intros y Hy. apply H. now right.
Qed.

Lemma zero_over (runs : Z) : (0 / IZR runs = 0)%R.
Proof.
  unfold Rdiv. apply Rmult_0_l.
Qed.

Lemma gather_no_run (cfg : config) (f : strategy) (runs : Z) (g : rng) :
  runs <= 0 -> gather cfg f runs g = Ok (([], []), g).
Proof.
  intros H. unfold gather. replace (Z.to_nat runs) with 0%nat by lia. reflexivity.
Qed.

Lemma average_runs_no_run (cfg : config) (f : strategy) (runs : Z) (g : rng) :
  runs <= 0 ->
  (runs < 0 ->
   average_runs cfg f runs g =
   Ok ((repeat 0%R (Z.to_nat (NUM_STEPS cfg)), None), g)) /\
  (runs = 0 -> 1 <= NUM_STEPS cfg ->
   average_runs cfg f runs g = Raise ZeroDivisionError) /\
  (runs = 0 -> NUM_STEPS cfg <= 0 ->
   average_runs cfg f runs g = Ok (([], None), g)).
Proof.
  intros Hruns. unfold average_runs, bind. rewrite gather_no_run by exact Hruns.
  split; [| split].
  - intros Hneg. unfold lift.
    rewrite column_means_ok; [| simpl; lia | lia | intros row []].
    unfold ret. do 3 f_equal.
    rewrite <- (range_length (Z.to_nat (NUM_STEPS cfg))) at 2.
    apply map_constant. intros t _. simpl. apply zero_over.
  - intros -> Hsteps. unfold lift, column_means.
    destruct (range_cons (Z.to_nat (NUM_STEPS cfg)) ltac:(lia)) as (l & ->).
    reflexivity.
  - intros -> Hsteps. unfold lift, column_means.
    replace (Z.to_nat (NUM_STEPS cfg)) with 0%nat by lia. reflexivity.
Qed.

(** X8: without any run.  For a negative run count [average_runs] returns,
    for every strategy, a curve of [NUM_STEPS] zeros and [None], leaving the
    generator as it was; for a run count of zero it raises
    [ZeroDivisionError] when there is at least one step, and returns the empty
    curve and [None] otherwise. *)
Theorem average_runs_without_run (cfg : config) (f : strategy) (runs : Z) (g : rng) :
  runs <= 0 ->
  (runs < 0 ->
   average_runs cfg f runs g =
   Ok ((repeat 0%R (Z.to_nat (NUM_STEPS cfg)), None), g)) /\
  (runs = 0 -> 1 <= NUM_STEPS cfg ->
   average_runs cfg f runs g = Raise ZeroDivisionError) /\
  (runs = 0 -> NUM_STEPS cfg <= 0 ->
   average_runs cfg f runs g = Ok (([], None), g)).
Proof.
  exact (average_runs_no_run cfg f runs g).
Qed.

Lemma average_runs_without_run_witness :
  (-2 <= 0) /\
  ((-2 < 0 ->
    average_runs source_config (Learning UCB) (-2) zero_rng =
    Ok ((repeat 0%R (Z.to_nat (NUM_STEPS source_config)), None), zero_rng)) /\
   (-2 = 0 -> 1 <= NUM_STEPS source_config ->
    average_runs source_config (Learning UCB) (-2) zero_rng = Raise ZeroDivisionError) /\
   (-2 = 0 -> NUM_STEPS source_config <= 0 ->
    average_runs source_config (Learning UCB) (-2) zero_rng = Ok (([], None), zero_rng))).
Proof.
  split; [lia |].
  apply (average_runs_without_run source_config (Learning UCB) (-2) zero_rng). lia.
Defined.

Lemma single_runs_without_step (cfg : config) (epsilon : R) (g : rng) :
  NUM_STEPS cfg <= 0 ->
  run_epsilon_greedy cfg epsilon g = Ok (([], list_mul 0%R (NUM_ARMS cfg)), g) /\
  run_ucb cfg g = Ok (([], list_mul 0%R (NUM_ARMS cfg)), g) /\
  run_random cfg g = Ok ([], g).
Proof.
  intros H.
  unfold run_epsilon_greedy, run_ucb, run_random, eg_loop, ucb_loop, random_loop, bind.
  replace (Z.to_nat (NUM_STEPS cfg)) with 0%nat by lia. repeat split.
Qed.

Lemma successive_runs_constant (cfg : config) (f : strategy)
    (o : list R * option (list R)) :
  (forall g, run_once cfg f g = Ok (o, g)) ->
  forall n g, successive_runs cfg f n g = Ok (repeat o n, g).
Proof.
  intros Hone n g. induction n as [| n IH]; [reflexivity |].
  simpl successive_runs. rewrite IH, Hone. f_equal. f_equal.
  clear. induction n as [| n IH]; simpl; [reflexivity | now rewrite IH].
Qed.

Lemma sumR_repeat_zero (n : nat) : sumR (repeat 0%R n) = 0%R.
Proof.
  induction n as [| n IH]; simpl; [reflexivity | rewrite IH; lra].
Qed.

Lemma estimates_of_repeat_none (r : list R) (n : nat) :
  estimates_of (repeat (r, None) n) = [].
Proof.
  induction n as [| n IH]; simpl; auto.
Qed.

Lemma estimates_of_repeat_some (r v : list R) (n : nat) :
  estimates_of (repeat (r, Some v) n) = repeat v n.
Proof.
  induction n as [| n IH]; simpl; [reflexivity | now rewrite IH].
Qed.

Lemma column_repeat (v : list R) (n : nat) (a : Z) :
  column (repeat v n) a = repeat (at_R v a) n.
Proof.
  unfold column. induction n as [| n IH]; simpl; [reflexivity | now rewrite IH].
Qed.

(** X9: with a step count of zero or less no arm is pulled and no draw is
    made, whatever the rest of the configuration is: every single run returns
    the empty trajectory (and all-zero estimates), and [average_runs], for at
    least one run, returns the empty curve, with all-zero estimates for a
    learning strategy and [None] for Random. *)
Theorem no_step_runs (cfg : config) (epsilon : R) (f : strategy) (runs : Z) (g : rng) :
  NUM_STEPS cfg <= 0 -> 1 <= runs ->
  run_epsilon_greedy cfg epsilon g = Ok (([], list_mul 0%R (NUM_ARMS cfg)), g) /\
  run_ucb cfg g = Ok (([], list_mul 0%R (NUM_ARMS cfg)), g) /\
  run_random cfg g = Ok ([], g) /\
  average_runs cfg f runs g =
  Ok (([], match f with
           | Learning _ => Some (list_mul 0%R (NUM_ARMS cfg))
           | RandomBaseline => None
           end), g).
Proof.
  intros Hsteps Hruns.
  destruct (single_runs_without_step cfg epsilon g Hsteps) as (Heg & Hucb & Hrand).
  do 3 (split; [assumption |]).
  unfold average_runs, bind, gather. rewrite gather_successive.
  destruct f as [l |].
  - rewrite (successive_runs_constant cfg (Learning l)
               ([], Some (list_mul 0%R (NUM_ARMS cfg)))).
    + rewrite estimates_of_repeat_some.
      unfold lift at 1. unfold column_means at 1.
      replace (Z.to_nat (NUM_STEPS cfg)) with 0%nat by lia. simpl comprehension.
      destruct (Z.to_nat runs) as [| k] eqn:Ek; [lia |].
      rewrite <- Ek. clear k Ek.
      destruct (repeat (list_mul 0%R (NUM_ARMS cfg)) (Z.to_nat runs)) as [| v rest] eqn:Er.
      { apply (f_equal (@length _)) in Er. rewrite repeat_length in Er. simpl in Er. lia. }
      rewrite <- Er. clear v rest Er.
      unfold lift, ret. rewrite column_means_ok.
      * do 4 f_equal. rewrite (map_constant _ 0%R).
        { now rewrite range_length. }
        intros a Ha.
        rewrite column_repeat. unfold at_R. rewrite nth_list_mul.
        rewrite sumR_repeat_zero. apply zero_over.
      * apply repeat_length.
      * lia.
      * intros row Hrow. apply repeat_spec in Hrow. subst row.
        rewrite list_mul_length. lia.
    + intros g0. unfold run_once, bind, ret.
      destruct (single_runs_without_step cfg (EPSILON cfg) g0 Hsteps) as (E1 & E2 & _).
      destruct l; simpl call_learner; [now rewrite E1 | now rewrite E2].
  - rewrite (successive_runs_constant cfg RandomBaseline ([], None)).
    + rewrite estimates_of_repeat_none.
      unfold lift at 1. unfold column_means at 1.
      replace (Z.to_nat (NUM_STEPS cfg)) with 0%nat by lia. reflexivity.
    + intros g0. unfold run_once, bind, ret.
      destruct (single_runs_without_step cfg epsilon g0 Hsteps) as (_ & _ & E3).
      now rewrite E3.
Qed.

Lemma no_step_runs_witness :
  (NUM_STEPS (mkConfig 5 0 3 0 []) <= 0 /\ 1 <= 3) /\
  run_epsilon_greedy (mkConfig 5 0 3 0 []) 0 zero_rng
    = Ok (([], list_mul 0%R (NUM_ARMS (mkConfig 5 0 3 0 []))), zero_rng) /\
  run_ucb (mkConfig 5 0 3 0 []) zero_rng
    = Ok (([], list_mul 0%R (NUM_ARMS (mkConfig 5 0 3 0 []))), zero_rng) /\
  run_random (mkConfig 5 0 3 0 []) zero_rng = Ok ([], zero_rng) /\
  average_runs (mkConfig 5 0 3 0 []) (Learning UCB) 3 zero_rng =
  Ok (([], match Learning UCB with
           | Learning _ => Some (list_mul 0%R (NUM_ARMS (mkConfig 5 0 3 0 [])))
           | RandomBaseline => None
           end), zero_rng).
Proof.
  split; [simpl; lia |].
  apply (no_step_runs (mkConfig 5 0 3 0 []) 0 (Learning UCB) 3 zero_rng); simpl; lia.
Defined.

(** ** The greedy run *)




(** ** An arm without a true mean *)

Lemma getitem_ok_range {A} (l : list A) (i : Z) (x : A) :
  getitem l i = Ok x -> 0 <= i -> i < Z.of_nat (length l).
Proof.
  intros H Hi. destruct (Z.lt_ge_cases i (Z.of_nat (length l))) as [Hlt | Hge]; auto.
  rewrite getitem_past_end in H by lia. discriminate.
Qed.

Lemma ucb_loop_means (cfg : config) (n : nat) (g : rng) :
  forall s g',
    ucb_loop cfg n g = Ok (s, g') ->
    forall e, In e (trace s) -> exists p, getitem (TRUE_MEANS cfg) (ev_arm e) = Ok p.
Proof.
  induction n as [| n IH]; intros s' g' H e He.
  - unfold ucb_loop in H. simpl in H. unfold ret in H. injection H as <- <-.
    destruct He.
  - unfold ucb_loop in H. apply for_loop_S_inv in H.
    destruct H as (s & g1 & Hrun & Hbody). fold (ucb_loop cfg n) in Hrun.
    unfold ucb_body in Hbody.
    apply bind_inv in Hbody. destruct Hbody as (g0 & g2 & Hsnap & Hbody).
    apply bind_inv in Hbody. destruct Hbody as (arm & g3 & _ & Hbody).
    apply pull_and_learn_inv in Hbody. destruct Hbody as (_ & r & _ & Htr & Hp).
    rewrite Htr in He. apply in_app_or in He. destruct He as [He | [<- | []]].
    + exact (IH s g1 Hrun e He).
    + exact Hp.
Qed.

(** X11: an arm count exceeding the number of true means is not turned
    down; a run of UCB1 with more steps than true means raises [IndexError],
    when its warm-up reaches the first arm that has none. *)
Theorem ucb_missing_mean_raises (cfg : config) (g : rng) :
  Z.of_nat (length (TRUE_MEANS cfg)) < NUM_ARMS cfg ->
  Z.of_nat (length (TRUE_MEANS cfg)) < NUM_STEPS cfg ->
  run_ucb cfg g = Raise IndexError.
Proof.
  intros Hshort Hsteps.
  assert (Hone : 1 <= NUM_ARMS cfg) by lia.
  unfold run_ucb, bind.
  destruct (ucb_loop_cases cfg Hone (Z.to_nat (NUM_STEPS cfg)) g)
    as [[_ Hraise] | (s & g' & Hrun & I & _)].
  - now rewrite Hraise.
  - exfalso.
    destruct (nth_error_in_length (trace s) (length (TRUE_MEANS cfg))) as (e & He).
    { rewrite (inv_trace_len _ _ _ _ I). lia. }
    pose proof (ucb_warmup_arm cfg _ s _ e I He Hshort) as Harm.
    destruct (ucb_loop_means cfg _ g s g' Hrun e (nth_error_In _ _ He)) as (p & Hp).
    apply getitem_ok_range in Hp; lia.
Qed.

Lemma ucb_missing_mean_raises_witness :
  (Z.of_nat (length (TRUE_MEANS (mkConfig 5 1000 50 0 [1%R; 0%R]))) <
   NUM_ARMS (mkConfig 5 1000 50 0 [1%R; 0%R]) /\
   Z.of_nat (length (TRUE_MEANS (mkConfig 5 1000 50 0 [1%R; 0%R]))) <
   NUM_STEPS (mkConfig 5 1000 50 0 [1%R; 0%R])) /\
  run_ucb (mkConfig 5 1000 50 0 [1%R; 0%R]) zero_rng = Raise IndexError.
Proof.
  split; [simpl; lia |].
  apply (ucb_missing_mean_raises (mkConfig 5 1000 50 0 [1%R; 0%R]) zero_rng); simpl; lia.
Defined.

(** * Properties of the report *)

(** ** Sequencing *)

Lemma io_for_returns {A} (body : A -> IO unit) (h : A -> line) (l : list A) (g : rng) :
  (forall x, In x l -> body x g = ([h x], Returned tt g)) ->
  io_for body l g = (map h l, Returned tt g).
Proof.
  induction l as [| x l IH]; intros H; simpl; [reflexivity |].
  unfold io_bind. rewrite (H x) by (now left).
  rewrite IH by (intros y Hy; apply H; now right). reflexivity.
Qed.

(** A loop whose body either prints one line or raises [e] without printing:
    it prints the lines of the elements before the first that raises. *)
Lemma io_for_cases {A} (body : A -> IO unit) (h : A -> line) (e : report_exn)
    (l : list A) (g : rng) :
  (forall x, In x l ->
     body x g = ([h x], Returned tt g) \/ body x g = ([], Raised e)) ->
  (io_for body l g = (map h l, Returned tt g) /\
   forall x, In x l -> body x g = ([h x], Returned tt g)) \/
  (exists k, (k < length l)%nat /\
     io_for body l g = (map h (firstn k l), Raised e) /\
     exists x, nth_error l k = Some x /\ body x g = ([], Raised e)).
Proof.
  induction l as [| x l IH]; intros H.
  - left. split; [reflexivity | intros x []].
  - destruct (H x ltac:(now left)) as [Hx | Hx].
    + destruct IH as [[Hall Hbodies] | (k & Hk & Hrun & y & Hy & Hraise)].
      { intros y Hy. apply H. now right. }
      * left. split.
        -- simpl. unfold io_bind. rewrite Hx, Hall. reflexivity.
        -- intros y [<- | Hy]; auto.
      * right. exists (S k). split; [simpl; lia |]. split.
        -- simpl. unfold io_bind. rewrite Hx, Hrun. reflexivity.
        -- exists y. auto.
    + right. exists 0%nat. split; [simpl; lia |]. split.
      * simpl. unfold io_bind. now rewrite Hx.
      * exists x. auto.
Qed.

(** ** [print_performance_summary] *)

Lemma getitem_cases {A} (l : list A) (i : Z) (d : A) :
  0 <= i ->
  (i < Z.of_nat (length l) /\ getitem l i = Ok (nth (Z.to_nat i) l d)) \/
  (Z.of_nat (length l) <= i /\ getitem l i = Raise IndexError).
Proof.
  intros Hi. destruct (Z.lt_ge_cases i (Z.of_nat (length l))) as [Hlt | Hge].
  - left. split; [exact Hlt |]. apply getitem_in_range. lia.
  - right. split; [exact Hge |]. now apply getitem_past_end.
Qed.

Lemma summary_row_cases (eg_avg ucb_avg rand_avg : list R) (step : Z) (g : rng) :
  0 <= step ->
  (step < Z.of_nat (length eg_avg) /\ step < Z.of_nat (length ucb_avg) /\
   step < Z.of_nat (length rand_avg) /\
   summary_row eg_avg ucb_avg rand_avg step g =
   ([SummaryRow (step + 1) (at_R eg_avg step) (at_R ucb_avg step) (at_R rand_avg step)],
    Returned tt g)) \/
  ((Z.of_nat (length eg_avg) <= step \/ Z.of_nat (length ucb_avg) <= step \/
    Z.of_nat (length rand_avg) <= step) /\
   summary_row eg_avg ucb_avg rand_avg step g = ([], Raised (Exn IndexError))).
Proof.
  intros Hstep. unfold summary_row, io_bind, eval, print.
  destruct (getitem_cases eg_avg step 0%R Hstep) as [[H1 ->] | [H1 ->]];
    [| right; split; [lia | reflexivity]].
  destruct (getitem_cases ucb_avg step 0%R Hstep) as [[H2 ->] | [H2 ->]];
    [| right; split; [lia | reflexivity]].
  destruct (getitem_cases rand_avg step 0%R Hstep) as [[H3 ->] | [H3 ->]];
    [| right; split; [lia | reflexivity]].
  left. repeat split; auto.
Qed.

Lemma summary_outcome (eg_avg ucb_avg rand_avg : list R) (g : rng) :
  exists rows out,
    print_performance_summary eg_avg ucb_avg rand_avg g =
    (SummaryTitle :: SummaryHeader :: SummaryRule :: rows, out) /\
    (out = Returned tt g \/ out = Raised (Exn IndexError)) /\
    (out = Returned tt g <->
     1000 <= Z.of_nat (length eg_avg) /\ 1000 <= Z.of_nat (length ucb_avg) /\
     1000 <= Z.of_nat (length rand_avg)) /\
    (out = Returned tt g ->
     rows =
     [SummaryRow 51 (at_R eg_avg 50) (at_R ucb_avg 50) (at_R rand_avg 50);
      SummaryRow 201 (at_R eg_avg 200) (at_R ucb_avg 200) (at_R rand_avg 200);
      SummaryRow 501 (at_R eg_avg 500) (at_R ucb_avg 500) (at_R rand_avg 500);
      SummaryRow 1000 (at_R eg_avg 999) (at_R ucb_avg 999) (at_R rand_avg 999)]) /\
    (out <> Returned tt g -> (length rows < 4)%nat).
Proof.
  set (h := fun step =>
              SummaryRow (step + 1) (at_R eg_avg step) (at_R ucb_avg step)
                (at_R rand_avg step)).
  assert (Hcp : forall x, In x checkpoints -> 0 <= x <= 999).
  { intros x Hx. unfold checkpoints in Hx. simpl in Hx.
    destruct Hx as [<- | [<- | [<- | [<- | []]]]]; lia. }
  assert (Hbody : forall x, In x checkpoints ->
            summary_row eg_avg ucb_avg rand_avg x g = ([h x], Returned tt g) \/
            summary_row eg_avg ucb_avg rand_avg x g = ([], Raised (Exn IndexError))).
  { intros x Hx.
    destruct (summary_row_cases eg_avg ucb_avg rand_avg x g ltac:(apply Hcp; exact Hx))
      as [(_ & _ & _ & H) | (_ & H)]; auto. }
  unfold print_performance_summary, io_bind, print.
  destruct (io_for_cases _ h (Exn IndexError) checkpoints g Hbody)
    as [[Hall Hbodies] | (k & Hk & Hrun & x & Hx & Hraise)].
  - rewrite Hall. eexists _, _. split; [reflexivity |].
    assert (H999 : In 999 checkpoints) by (unfold checkpoints; simpl; tauto).
    destruct (summary_row_cases eg_avg ucb_avg rand_avg 999 g ltac:(lia))
      as [(H1 & H2 & H3 & _) | (_ & H)];
      [| rewrite (Hbodies 999 H999) in H; discriminate].
    split; [now left |]. split; [split; [intros _; lia | reflexivity] |].
    split; [reflexivity | congruence].
  - rewrite Hrun. eexists _, _. split; [reflexivity |].
    split; [now right |].
    assert (Hin : In x checkpoints) by (eapply nth_error_In; eauto).
    destruct (summary_row_cases eg_avg ucb_avg rand_avg x g ltac:(apply Hcp; exact Hin))
      as [(_ & _ & _ & H) | (Hlen & _)]; [rewrite Hraise in H; discriminate |].
    pose proof (Hcp x Hin) as Hx999.
    split; [split; [discriminate | lia] |].
    split; [discriminate |].
    intros _. rewrite length_map, length_firstn.
    unfold checkpoints in *. simpl length in *. lia.
Qed.

(** X12: [print_performance_summary] prints its three heading lines and
    then reads the three curves at the indices 50, 200, 500 and 999.  It
    returns exactly when each curve has at least 1000 elements, having printed
    the four rows labelled 51, 201, 501 and 1000; otherwise it raises
    [IndexError] at the first index that a curve lacks, after the rows before
    it. *)
Theorem summary_needs_1000_steps (eg_avg ucb_avg rand_avg : list R) (g : rng) :
  exists rows out,
    print_performance_summary eg_avg ucb_avg rand_avg g =
    (SummaryTitle :: SummaryHeader :: SummaryRule :: rows, out) /\
    (out = Returned tt g \/ out = Raised (Exn IndexError)) /\
    (out = Returned tt g <->
     1000 <= Z.of_nat (length eg_avg) /\ 1000 <= Z.of_nat (length ucb_avg) /\
     1000 <= Z.of_nat (length rand_avg)) /\
    (out = Returned tt g ->
     rows =
     [SummaryRow 51 (at_R eg_avg 50) (at_R ucb_avg 50) (at_R rand_avg 50);
      SummaryRow 201 (at_R eg_avg 200) (at_R ucb_avg 200) (at_R rand_avg 200);
      SummaryRow 501 (at_R eg_avg 500) (at_R ucb_avg 500) (at_R rand_avg 500);
      SummaryRow 1000 (at_R eg_avg 999) (at_R ucb_avg 999) (at_R rand_avg 999)]) /\
    (out <> Returned tt g -> (length rows < 4)%nat).
Proof.
  exact (summary_outcome eg_avg ucb_avg rand_avg g).
Qed.

(** ** [print_bar_chart] *)

Lemma py_max_spec (l : list R) :
  l <> [] ->
  exists m, py_max l = Ok m /\ In m l /\ forall x, In x l -> (x <= m)%R.
Proof.
  destruct l as [| x l]; [congruence | intros _].
  exists (max_from x l). split; [reflexivity |]. split.
  - destruct (max_from_in x l) as [-> | H]; [now left | now right].
  - intros y [<- | Hy]; [apply max_from_ge_init | now apply max_from_ge].
Qed.

Lemma py_int_bounds (x : R) (n : Z) :
  (0 <= x <= IZR n)%R -> 0 <= py_int x <= n.
Proof.
  intros [Hlo Hhi]. unfold py_int.
  destruct (Rlt_dec x 0) as [Hneg | _]; [lra |].
  destruct (base_Int_part x) as [Hle Hgt].
  split.
  - assert (H : (IZR (-1) < IZR (Int_part x))%R) by (simpl; lra).
    apply lt_IZR in H. lia.
  - apply le_IZR. lra.
Qed.

Lemma nth_error_combine {A B} (l : list A) (l' : list B) (i : nat) (x : A) (y : B) :
  nth_error l i = Some x -> nth_error l' i = Some y ->
  nth_error (combine l l') i = Some (x, y).
Proof.
  revert l' i. induction l as [| a l IH]; intros [| b l'] [| i] Hx Hy;
    simpl in *; try discriminate.
  - injection Hx as <-. injection Hy as <-. reflexivity.
  - now apply IH.
Qed.

Lemma nth_error_range (n i : nat) :
  (i < n)%nat -> nth_error (range n) i = Some (Z.of_nat i).
Proof.
  intros H. rewrite (nth_error_nth' (range n) 0) by (rewrite range_length; lia).
  now rewrite nth_range.
Qed.

Lemma bar_chart_outcome (l : label) (vs true_means : list R) (g : rng) :
  print_bar_chart l None true_means g =
  ([ChartTitle l; ChartHeader; ChartRule], Raised TypeError) /\
  exists rows,
    print_bar_chart l (Some vs) true_means g =
    (ChartTitle l :: ChartHeader :: ChartRule :: rows, Returned tt g) /\
    length rows = Nat.min (length vs) (length true_means) /\
    forall i, (i < length rows)%nat ->
      exists bar best,
        nth_error rows i =
        Some (ChartRow (Z.of_nat i) (nth i vs 0%R) (nth i true_means 0%R) bar best) /\
        bar = Z.to_nat (py_int (nth i vs 0%R * 20)) /\
        ((0 <= nth i vs 0 <= 1)%R -> (bar <= 20)%nat) /\
        (best = true <-> forall x, In x true_means -> (x <= nth i true_means 0)%R).
Proof.
  split; [reflexivity |].
  unfold print_bar_chart, io_bind, print.
  destruct true_means as [| tm0 tms].
  - rewrite combine_nil. exists []. simpl. split; [reflexivity |].
    split; [now rewrite Nat.min_0_r |]. intros i Hi. lia.
  - set (true_means := tm0 :: tms).
    destruct (py_max_spec true_means ltac:(discriminate)) as (m & Hmax & Hin & Hge).
    set (h := fun row : Z * (R * R) =>
                let '(i, (est, tm)) := row in
                ChartRow i est tm (str_mul_len (py_int (est * 20)))
                  (if Req_dec_T tm m then true else false)).
    rewrite (io_for_returns _ h).
    + eexists. split; [reflexivity |].
      assert (Hlen : length (map h (enumerate (combine vs true_means))) =
                     Nat.min (length vs) (length true_means)).
      { unfold enumerate.
        rewrite length_map, length_combine, range_length, Nat.min_id.
        apply length_combine. }
      split; [exact Hlen |]. intros i Hi. rewrite Hlen in Hi.
      assert (Hv : nth_error vs i = Some (nth i vs 0%R))
        by (apply nth_error_nth'; lia).
      assert (Ht : nth_error true_means i = Some (nth i true_means 0%R))
        by (apply nth_error_nth'; lia).
      exists (str_mul_len (py_int (nth i vs 0%R * 20))),
             (if Req_dec_T (nth i true_means 0%R) m then true else false).
      split; [| split; [reflexivity | split]].
      * unfold enumerate.
        rewrite nth_error_map.
        rewrite (nth_error_combine _ _ i (Z.of_nat i) (nth i vs 0%R, nth i true_means 0%R)).
        -- reflexivity.
        -- apply nth_error_range. rewrite length_combine. lia.
        -- now apply nth_error_combine.
      * intros Hunit. unfold str_mul_len.
        pose proof (py_int_bounds (nth i vs 0%R * 20) 20 ltac:(lra)). lia.
      * assert (Hti : In (nth i true_means 0%R) true_means) by (apply nth_In; lia).
        destruct (Req_dec_T (nth i true_means 0%R) m) as [E | E].
        -- split; [intros _ x Hx; rewrite E; now apply Hge | reflexivity].
        -- split; [discriminate |]. intros Hall. exfalso. apply E.
           apply Rle_antisym; [now apply Hge | now apply Hall].
    + intros [i [est tm]] _. unfold chart_row, io_bind, eval, print.
      rewrite Hmax. reflexivity.
Qed.

(** X13: for a list of estimates, [print_bar_chart] never raises: after its
    three heading lines it prints one row per pair of [zip(values,
    true_means)], so as many rows as the shorter list has elements.  Row [i]
    shows [values[i]] and [true_means[i]], a bar of [int(values[i] * 20)]
    blocks, at most 20 for an estimate in [[0, 1]], and the mark BEST exactly
    when no true mean exceeds [true_means[i]].  For [None] instead of a list
    it raises [TypeError] after the heading lines. *)
Theorem bar_chart_rows (l : label) (vs true_means : list R) (g : rng) :
  print_bar_chart l None true_means g =
  ([ChartTitle l; ChartHeader; ChartRule], Raised TypeError) /\
  exists rows,
    print_bar_chart l (Some vs) true_means g =
    (ChartTitle l :: ChartHeader :: ChartRule :: rows, Returned tt g) /\
    length rows = Nat.min (length vs) (length true_means) /\
    forall i, (i < length rows)%nat ->
      exists bar best,
        nth_error rows i =
        Some (ChartRow (Z.of_nat i) (nth i vs 0%R) (nth i true_means 0%R) bar best) /\
        bar = Z.to_nat (py_int (nth i vs 0%R * 20)) /\
        ((0 <= nth i vs 0 <= 1)%R -> (bar <= 20)%nat) /\
        (best = true <-> forall x, In x true_means -> (x <= nth i true_means 0)%R).
Proof.
  exact (bar_chart_outcome l vs true_means g).
Qed.

(** ** [main] *)

Lemma io_bind_eq {A B} (m : IO A) (k : A -> IO B) (g g1 : rng) (a : A)
    (o1 o2 : list line) (r : outcome B) :
  m g = (o1, Returned a g1) -> k a g1 = (o2, r) -> io_bind m k g = (o1 ++ o2, r).
Proof.
  intros Hm Hk. unfold io_bind. now rewrite Hm, Hk.
Qed.

Lemma io_bind_raised {A B} (m : IO A) (k : A -> IO B) (g : rng)
    (o1 : list line) (e : report_exn) :
  m g = (o1, Raised e) -> io_bind m k g = (o1, Raised e).
Proof.
  intros Hm. unfold io_bind. now rewrite Hm.
Qed.

Lemma getitem_last {A} (l : list A) (d : A) :
  l <> [] -> getitem l (-1) = Ok (nth (length l - 1) l d).
Proof.
  intros Hne. assert (Hlen : (1 <= length l)%nat).
  { destruct l; [congruence | simpl; lia]. }
  unfold getitem, norm_index. cbv zeta. change (-1 <? 0) with true. cbv iota.
  destruct (Z.leb_spec 0 (-1 + Z.of_nat (length l))) as [_ | H]; [| lia].
  destruct (Z.ltb_spec (-1 + Z.of_nat (length l)) (Z.of_nat (length l))) as [_ | H];
    [| lia].
  simpl andb.
  replace (Z.to_nat (-1 + Z.of_nat (length l))) with (length l - 1)%nat by lia.
  now rewrite (nth_error_nth' l d) by lia.
Qed.

Lemma best_arm_ok (cfg : config) (g : rng) :
  TRUE_MEANS cfg <> [] ->
  exists i m,
    best_arm cfg g = ([], Returned (i, m) g) /\
    first_argmax (TRUE_MEANS cfg) i /\ m = at_R (TRUE_MEANS cfg) i.
Proof.
  intros Hne.
  destruct (py_max_spec (TRUE_MEANS cfg) Hne) as (m & Hmax & _).
  destruct (argmax_first (TRUE_MEANS cfg) Hne) as (i & Hsel & Hfirst).
  unfold rbind in Hsel. rewrite Hmax in Hsel.
  exists i, m. split; [| split; [exact Hfirst |]].
  - unfold best_arm, io_bind, eval. rewrite Hmax, Hsel. reflexivity.
  - unfold py_index in Hsel.
    destruct (index_from_spec 0 (TRUE_MEANS cfg) m) as (k & _ & Hi & Hn & _).
    { destruct (py_max_spec (TRUE_MEANS cfg) Hne) as (m' & Hmax' & Hin & _).
      rewrite Hmax in Hmax'. injection Hmax' as <-. exact Hin. }
    rewrite Hsel in Hi. injection Hi as Hi. unfold at_R.
    replace (Z.to_nat i) with k by lia. now symmetry.
Qed.

Lemma best_arm_no_mean (cfg : config) (g : rng) :
  TRUE_MEANS cfg = [] -> best_arm cfg g = ([], Raised (Exn ValueError)).
Proof.
  intros H. unfold best_arm, io_bind, eval. now rewrite H.
Qed.

(** The shape of what [average_runs] returns for at least one run. *)
Lemma average_runs_shape (cfg : config) (f : strategy) (runs : Z) (g : rng) :
  arms_ok cfg -> 1 <= runs ->
  exists avg av g',
    average_runs cfg f runs g = Ok ((avg, av), g') /\
    length avg = Z.to_nat (NUM_STEPS cfg) /\
    match f with
    | Learning _ => exists vs, av = Some vs /\ Z.of_nat (length vs) = NUM_ARMS cfg
    | RandomBaseline => av = None
    end.
Proof.
  intros Harms Hruns.
  destruct (average_runs_spec cfg f runs g Harms ltac:(lia))
    as (outs & g' & _ & Hlen & Hok & Havg).
  eexists _, _, g'. split; [exact Havg |].
  split; [now rewrite length_map, range_length |].
  destruct f as [l |].
  - destruct (estimates_of_learning cfg l outs Hok) as (_ & Hl & _).
    destruct (estimates_of outs) as [| v vs] eqn:Eest; [simpl in Hl; lia |].
    eexists. split; [reflexivity |].
    rewrite length_map, range_length. unfold arms_ok in Harms. lia.
  - now rewrite (estimates_of_random cfg outs Hok).
Qed.

Lemma summary_returns (eg_avg ucb_avg rand_avg : list R) (g : rng) :
  1000 <= Z.of_nat (length eg_avg) -> 1000 <= Z.of_nat (length ucb_avg) ->
  1000 <= Z.of_nat (length rand_avg) ->
  exists rows,
    print_performance_summary eg_avg ucb_avg rand_avg g =
    (SummaryTitle :: SummaryHeader :: SummaryRule :: rows, Returned tt g) /\
    length rows = 4%nat.
Proof.
  intros H1 H2 H3.
  destruct (summary_outcome eg_avg ucb_avg rand_avg g)
    as (rows & out & Hrun & _ & Hiff & Hrows & _).
  assert (Hout : out = Returned tt g) by (apply Hiff; auto).
  exists rows. rewrite Hrun, Hout. split; [reflexivity |].
  now rewrite (Hrows Hout).
Qed.

Lemma summary_raises (eg_avg ucb_avg rand_avg : list R) (g : rng) :
  Z.of_nat (length eg_avg) < 1000 ->
  exists rows,
    print_performance_summary eg_avg ucb_avg rand_avg g =
    (SummaryTitle :: SummaryHeader :: SummaryRule :: rows, Raised (Exn IndexError)) /\
    (length rows < 4)%nat.
Proof.
  intros H1.
  destruct (summary_outcome eg_avg ucb_avg rand_avg g)
    as (rows & out & Hrun & Hcases & Hiff & _ & Hshort).
  assert (Hne : out <> Returned tt g).
  { intros E. apply Hiff in E. lia. }
  destruct Hcases as [E | E]; [contradiction |].
  exists rows. rewrite Hrun, E. split; [reflexivity | now apply Hshort].
Qed.

Lemma chart_returns (l : label) (vs true_means : list R) (g : rng) :
  exists rows,
    print_bar_chart l (Some vs) true_means g =
    (ChartTitle l :: ChartHeader :: ChartRule :: rows, Returned tt g) /\
    length rows = Nat.min (length vs) (length true_means).
Proof.
  destruct (bar_chart_outcome l vs true_means g) as (_ & rows & Hrun & Hlen & _).
  exists rows. auto.
Qed.

Lemma simulate_ok {A} (m : M A) (g g' : rng) (a : A) :
  m g = Ok (a, g') -> simulate m g = ([], Returned a g').
Proof.
  intros H. unfold simulate. now rewrite H.
Qed.

Lemma simulate_raises {A} (m : M A) (g : rng) (e : exn) :
  m g = Raise e -> simulate m g = ([], Raised (Exn e)).
Proof.
  intros H. unfold simulate. now rewrite H.
Qed.

Lemma eval_ok {A} (r : result A) (g : rng) (a : A) :
  r = Ok a -> eval r g = ([], Returned a g).
Proof.
  intros ->. reflexivity.
Qed.

Ltac io_step H := eapply io_bind_eq; [exact H | cbv beta iota].
Ltac io_print := eapply io_bind_eq; [reflexivity | cbv beta iota].

(** Find a line in a concatenation of printed segments. *)
Ltac find_line :=
  first [ solve [simpl; auto]
        | apply in_or_app; first [ left; solve [simpl; auto] | right; find_line ] ].

(** X14: with at least one arm, a true mean for every arm, at least one
    run and at least 1000 steps, [main] returns.  It runs [average_runs] for
    Epsilon-Greedy, UCB1 and Random in this order, each on the generator the
    previous one left, prints [30 + 2 * NUM_ARMS] lines, and names
    Epsilon-Greedy as winner exactly when its last average is strictly greater
    than that of UCB1: a tie goes to UCB1. *)
Theorem main_completes (cfg : config) (g : rng) :
  arms_ok cfg -> 1 <= NUM_RUNS cfg -> 1000 <= NUM_STEPS cfg ->
  exists eg_avg eg_values g1 ucb_avg ucb_values g2 rand_avg g3 out,
    average_runs cfg (Learning EpsilonGreedy) (NUM_RUNS cfg) g
      = Ok ((eg_avg, Some eg_values), g1) /\
    average_runs cfg (Learning UCB) (NUM_RUNS cfg) g1
      = Ok ((ucb_avg, Some ucb_values), g2) /\
    average_runs cfg RandomBaseline (NUM_RUNS cfg) g2 = Ok ((rand_avg, None), g3) /\
    main cfg g = (out, Returned tt g3) /\
    Z.of_nat (length out) = 30 + 2 * NUM_ARMS cfg /\
    In (WinnerLine (NUM_STEPS cfg)
          (if Rgt_dec (at_R eg_avg (NUM_STEPS cfg - 1)) (at_R ucb_avg (NUM_STEPS cfg - 1))
           then LabelEpsilonGreedy else LabelUCB))
       out.
Proof.
  intros Harms Hruns Hsteps.
  destruct (average_runs_shape cfg (Learning EpsilonGreedy) (NUM_RUNS cfg) g Harms Hruns)
    as (eg_avg & av1 & g1 & Hr1 & Hl1 & eg_values & -> & Hv1).
  destruct (average_runs_shape cfg (Learning UCB) (NUM_RUNS cfg) g1 Harms Hruns)
    as (ucb_avg & av2 & g2 & Hr2 & Hl2 & ucb_values & -> & Hv2).
  destruct (average_runs_shape cfg RandomBaseline (NUM_RUNS cfg) g2 Harms Hruns)
    as (rand_avg & av3 & g3 & Hr3 & Hl3 & ->).
  assert (Hne : TRUE_MEANS cfg <> []).
  { unfold arms_ok in Harms. destruct (TRUE_MEANS cfg); [simpl in Harms; lia | discriminate]. }
  destruct (best_arm_ok cfg g Hne) as (i & m & Hbest & _).
  destruct (best_arm_ok cfg g3 Hne) as (i' & m' & Hbest' & _).
  destruct (summary_returns eg_avg ucb_avg rand_avg g3) as (srows & Hsum & Hsl); try lia.
  destruct (chart_returns LabelEpsilonGreedy eg_values (TRUE_MEANS cfg) g3)
    as (rows1 & Hc1 & Hcl1).
  destruct (chart_returns LabelUCB ucb_values (TRUE_MEANS cfg) g3)
    as (rows2 & Hc2 & Hcl2).
  assert (Hlast : forall l : list R, length l = Z.to_nat (NUM_STEPS cfg) ->
            getitem l (-1) = Ok (at_R l (NUM_STEPS cfg - 1))).
  { intros l Hl. rewrite (getitem_last l 0%R).
    - unfold at_R. do 2 f_equal. lia.
    - destruct l; [simpl in Hl; lia | discriminate]. }
  exists eg_avg, eg_values, g1, ucb_avg, ucb_values, g2, rand_avg, g3. eexists.
  do 3 (split; [assumption |]).
  split; [| split].
  - unfold main.
    do 6 io_print. io_step Hbest. do 2 io_print.
    io_step (simulate_ok _ _ _ _ Hr1). io_print.
    io_step (simulate_ok _ _ _ _ Hr2). io_print.
    io_step (simulate_ok _ _ _ _ Hr3).
    io_step Hsum. io_step Hc1. io_step Hc2.
    io_step (eval_ok _ g3 _ (Hlast eg_avg Hl1)).
    io_step (eval_ok _ g3 _ (Hlast ucb_avg Hl2)).
    cbv zeta. do 4 io_print.
    io_step (eval_ok _ g3 _ (Hlast rand_avg Hl3)). io_print.
    io_step Hbest'. io_print. reflexivity.
  - rewrite !length_app. simpl length.
    rewrite Hsl, Hcl1, Hcl2. unfold arms_ok in Harms. lia.
  - find_line.
Qed.

Lemma main_completes_witness :
  (arms_ok source_config /\ 1 <= NUM_RUNS source_config /\
   1000 <= NUM_STEPS source_config) /\
  exists eg_avg eg_values g1 ucb_avg ucb_values g2 rand_avg g3 out,
    average_runs source_config (Learning EpsilonGreedy) (NUM_RUNS source_config) zero_rng
      = Ok ((eg_avg, Some eg_values), g1) /\
    average_runs source_config (Learning UCB) (NUM_RUNS source_config) g1
      = Ok ((ucb_avg, Some ucb_values), g2) /\
    average_runs source_config RandomBaseline (NUM_RUNS source_config) g2
      = Ok ((rand_avg, None), g3) /\
    main source_config zero_rng = (out, Returned tt g3) /\
    Z.of_nat (length out) = 30 + 2 * NUM_ARMS source_config /\
    In (WinnerLine (NUM_STEPS source_config)
          (if Rgt_dec (at_R eg_avg (NUM_STEPS source_config - 1))
                      (at_R ucb_avg (NUM_STEPS source_config - 1))
           then LabelEpsilonGreedy else LabelUCB))
       out.
Proof.
  split; [split; [exact arms_ok_source | simpl; lia] |].
  apply (main_completes source_config zero_rng).
  - unfold arms_ok. simpl. lia.
  - simpl. lia.
  - simpl. lia.
Defined.

(** X15: the report needs 1000 steps.  With at least one arm, a true mean
    for every arm and at least one run, but fewer than 1000 steps, [main]
    performs the three simulations and then raises [IndexError] in
    [print_performance_summary], after the heading of the summary and fewer
    than four of its rows; no chart and no winner is printed. *)
Theorem main_needs_1000_steps (cfg : config) (g : rng) :
  arms_ok cfg -> 1 <= NUM_RUNS cfg -> NUM_STEPS cfg < 1000 ->
  exists i m rows,
    main cfg g =
    ([BannerRule; TitleLine; AuthorLine; BannerRule;
      SetupLine (NUM_ARMS cfg) (NUM_STEPS cfg) (NUM_RUNS cfg);
      TrueMeansLine (TRUE_MEANS cfg); BestArmLine i m;
      RunningEpsilonGreedy (EPSILON cfg); RunningUCB; RunningRandom;
      SummaryTitle; SummaryHeader; SummaryRule] ++ rows,
     Raised (Exn IndexError)) /\
    (length rows < 4)%nat /\
    forall l, In l rows -> exists step a b c, l = SummaryRow step a b c.
Proof.
  intros Harms Hruns Hsteps.
  destruct (average_runs_shape cfg (Learning EpsilonGreedy) (NUM_RUNS cfg) g Harms Hruns)
    as (eg_avg & av1 & g1 & Hr1 & Hl1 & _).
  destruct (average_runs_shape cfg (Learning UCB) (NUM_RUNS cfg) g1 Harms Hruns)
    as (ucb_avg & av2 & g2 & Hr2 & _).
  destruct (average_runs_shape cfg RandomBaseline (NUM_RUNS cfg) g2 Harms Hruns)
    as (rand_avg & av3 & g3 & Hr3 & _).
  assert (Hne : TRUE_MEANS cfg <> []).
  { unfold arms_ok in Harms. destruct (TRUE_MEANS cfg); [simpl in Harms; lia | discriminate]. }
  destruct (best_arm_ok cfg g Hne) as (i & m & Hbest & _).
  destruct (summary_outcome eg_avg ucb_avg rand_avg g3)
    as (rows & out & Hsum & Hcases & Hiff & _ & Hshort).
  assert (Hnot : out <> Returned tt g3) by (intros E; apply Hiff in E; lia).
  destruct Hcases as [E | ->]; [contradiction |].
  exists i, m, rows. split; [| split; [now apply Hshort |]].
  - unfold main. etransitivity.
    + do 6 io_print. io_step Hbest. do 2 io_print.
      io_step (simulate_ok _ _ _ _ Hr1). io_print.
      io_step (simulate_ok _ _ _ _ Hr2). io_print.
      io_step (simulate_ok _ _ _ _ Hr3).
      apply (io_bind_raised _ _ g3 _ _ Hsum).
    + reflexivity.
  - intros l Hl.
    unfold print_performance_summary, io_bind, print in Hsum.
    destruct (io_for (summary_row eg_avg ucb_avg rand_avg) checkpoints g3)
      as [rows0 out0] eqn:Efor.
    injection Hsum as <- _.
    clear - Efor Hl. revert rows0 out0 Efor Hl.
    generalize checkpoints. intros cps.
    induction cps as [| x cps IH]; intros rows0 out0 Efor Hl.
    + simpl in Efor. injection Efor as <- _. destruct Hl.
    + simpl in Efor. unfold io_bind in Efor.
      unfold summary_row at 1 in Efor. unfold io_bind, eval, print in Efor.
      destruct (getitem eg_avg x); [| injection Efor as <- _; destruct Hl].
      destruct (getitem ucb_avg x); [| injection Efor as <- _; destruct Hl].
      destruct (getitem rand_avg x); [| injection Efor as <- _; destruct Hl].
      destruct (io_for (summary_row eg_avg ucb_avg rand_avg) cps g3)
        as [rows1 out1] eqn:E1.
      injection Efor as <- _. simpl in Hl. destruct Hl as [<- | Hl]; [eauto |].
      exact (IH rows1 out1 eq_refl Hl).
Qed.

Lemma main_needs_1000_steps_witness :
  (arms_ok tiny_config /\ 1 <= NUM_RUNS tiny_config /\ NUM_STEPS tiny_config < 1000) /\
  exists i m rows,
    main tiny_config zero_rng =
    ([BannerRule; TitleLine; AuthorLine; BannerRule;
      SetupLine (NUM_ARMS tiny_config) (NUM_STEPS tiny_config) (NUM_RUNS tiny_config);
      TrueMeansLine (TRUE_MEANS tiny_config); BestArmLine i m;
      RunningEpsilonGreedy (EPSILON tiny_config); RunningUCB; RunningRandom;
      SummaryTitle; SummaryHeader; SummaryRule] ++ rows,
     Raised (Exn IndexError)) /\
    (length rows < 4)%nat /\
    forall l, In l rows -> exists step a b c, l = SummaryRow step a b c.
Proof.
  split; [split; [unfold arms_ok; simpl; lia | simpl; lia] |].
  apply (main_needs_1000_steps tiny_config zero_rng).
  - unfold arms_ok. simpl. lia.
  - simpl. lia.
  - simpl. lia.
Defined.

(** X16: without any true mean [main] raises [ValueError] when it looks for
    the best arm, after six lines and before any simulation is started. *)
Theorem main_without_mean (cfg : config) (g : rng) :
  TRUE_MEANS cfg = [] ->
  main cfg g =
  ([BannerRule; TitleLine; AuthorLine; BannerRule;
    SetupLine (NUM_ARMS cfg) (NUM_STEPS cfg) (NUM_RUNS cfg); TrueMeansLine []],
   Raised (Exn ValueError)).
Proof.
  intros H. unfold main. etransitivity.
  - do 6 io_print. apply (io_bind_raised _ _ g _ _ (best_arm_no_mean cfg g H)).
  - now rewrite H.
Qed.

Lemma main_without_mean_witness :
  TRUE_MEANS (mkConfig 5 1000 50 0 []) = [] /\
  main (mkConfig 5 1000 50 0 []) zero_rng =
  ([BannerRule; TitleLine; AuthorLine; BannerRule;
    SetupLine (NUM_ARMS (mkConfig 5 1000 50 0 [])) (NUM_STEPS (mkConfig 5 1000 50 0 []))
      (NUM_RUNS (mkConfig 5 1000 50 0 []));
    TrueMeansLine []],
   Raised (Exn ValueError)).
Proof.
  split; [reflexivity |].
  apply (main_without_mean (mkConfig 5 1000 50 0 []) zero_rng). reflexivity.
Defined.

(** X17: a negative run count is not turned down either.  With some true
    mean and at least 1000 steps, [main] performs no run, prints a summary of
    the all-zero curves, and then raises [TypeError] in the first chart, whose
    estimates are [None], after the three heading lines of that chart. *)
Theorem main_with_negative_runs (cfg : config) (g : rng) :
  TRUE_MEANS cfg <> [] -> NUM_RUNS cfg < 0 -> 1000 <= NUM_STEPS cfg ->
  exists i m rows,
    main cfg g =
    ([BannerRule; TitleLine; AuthorLine; BannerRule;
      SetupLine (NUM_ARMS cfg) (NUM_STEPS cfg) (NUM_RUNS cfg);
      TrueMeansLine (TRUE_MEANS cfg); BestArmLine i m;
      RunningEpsilonGreedy (EPSILON cfg); RunningUCB; RunningRandom;
      SummaryTitle; SummaryHeader; SummaryRule] ++ rows ++
     [ChartTitle LabelEpsilonGreedy; ChartHeader; ChartRule],
     Raised TypeError) /\
    rows = [SummaryRow 51 0 0 0; SummaryRow 201 0 0 0;
            SummaryRow 501 0 0 0; SummaryRow 1000 0 0 0].
Proof.
  intros Hne Hruns Hsteps.
  assert (Hrun : forall f g0,
            average_runs cfg f (NUM_RUNS cfg) g0 =
            Ok ((repeat 0%R (Z.to_nat (NUM_STEPS cfg)), None), g0)).
  { intros f g0.
    exact (proj1 (average_runs_no_run cfg f (NUM_RUNS cfg) g0 ltac:(lia)) Hruns). }
  destruct (best_arm_ok cfg g Hne) as (i & m & Hbest & _).
  set (zeros := repeat 0%R (Z.to_nat (NUM_STEPS cfg))).
  assert (Hlen : 1000 <= Z.of_nat (length zeros)).
  { unfold zeros. rewrite repeat_length. lia. }
  destruct (summary_outcome zeros zeros zeros g)
    as (rows & out & Hsum & _ & Hiff & Hrows & _).
  assert (Hout : out = Returned tt g) by (apply Hiff; auto).
  specialize (Hrows Hout). subst out.
  assert (Hz : forall k, at_R zeros k = 0%R).
  { intros k. unfold at_R, zeros. generalize (Z.to_nat k), (Z.to_nat (NUM_STEPS cfg)).
    intros a b. revert a. induction b as [| b IH]; intros [| a]; simpl; auto. }
  rewrite !Hz in Hrows.
  exists i, m, rows. split; [| exact Hrows].
  unfold main. etransitivity.
  - do 6 io_print. io_step Hbest. do 2 io_print.
    io_step (simulate_ok _ _ _ _ (Hrun (Learning EpsilonGreedy) g)). io_print.
    io_step (simulate_ok _ _ _ _ (Hrun (Learning UCB) g)). io_print.
    io_step (simulate_ok _ _ _ _ (Hrun RandomBaseline g)).
    io_step Hsum.
    apply io_bind_raised. reflexivity.
  - simpl. reflexivity.
Qed.

Lemma main_with_negative_runs_witness :
  (TRUE_MEANS (mkConfig 5 1000 (-1) 0 [1%R]) <> [] /\
   NUM_RUNS (mkConfig 5 1000 (-1) 0 [1%R]) < 0 /\
   1000 <= NUM_STEPS (mkConfig 5 1000 (-1) 0 [1%R])) /\
  exists i m rows,
    main (mkConfig 5 1000 (-1) 0 [1%R]) zero_rng =
    ([BannerRule; TitleLine; AuthorLine; BannerRule;
      SetupLine (NUM_ARMS (mkConfig 5 1000 (-1) 0 [1%R]))
        (NUM_STEPS (mkConfig 5 1000 (-1) 0 [1%R]))
        (NUM_RUNS (mkConfig 5 1000 (-1) 0 [1%R]));
      TrueMeansLine (TRUE_MEANS (mkConfig 5 1000 (-1) 0 [1%R])); BestArmLine i m;
      RunningEpsilonGreedy (EPSILON (mkConfig 5 1000 (-1) 0 [1%R]));
      RunningUCB; RunningRandom;
      SummaryTitle; SummaryHeader; SummaryRule] ++ rows ++
     [ChartTitle LabelEpsilonGreedy; ChartHeader; ChartRule],
     Raised TypeError) /\
    rows = [SummaryRow 51 0 0 0; SummaryRow 201 0 0 0;
            SummaryRow 501 0 0 0; SummaryRow 1000 0 0 0].
Proof.
  split; [split; [simpl; discriminate | simpl; lia] |].
  apply (main_with_negative_runs (mkConfig 5 1000 (-1) 0 [1%R]) zero_rng).
  - simpl. discriminate.
  - simpl. lia.
  - simpl. lia.
Defined.
